(** * Authentication / session core of the cown backend

    A shallow embedding of the code paths of [src/services/authService.js]
    (field cipher, registration, session cache, session verification),
    of the [requireAuth] middleware and of [UserService.updateProfile] /
    [UserRepository.update], together with the properties the specification
    states about them.

    Conventions.
    - A Node [Buffer] is a [list byte].
    - A JavaScript string is the list of its UTF-16 code units ([jsstring]).
    - Calls into a datastore are steps of a small state-and-exception monad
      over a [world] that holds the MySQL tables, the Mongo collection and
      the Redis cache, with explicit fault flags for "the call rejects".
    - Values drawn from [crypto.randomBytes], [crypto.randomUUID],
      [Math.random] and [bcrypt.hash] are inputs of the operation that
      draws them. *)

From Stdlib Require Import NArith ZArith List Lia Btauto Bool.
From Stdlib Require Import Strings.Byte Strings.Ascii Strings.String.
From stdpp Require Import base option list gmap strings pretty.

Local Open Scope N_scope.

(** ** Bytes *)

Module Bytes.

(** The byte with value [n]; callers pass values below 256. *)
Definition byte_of_N (n : N) : byte :=
  match Byte.of_N n with
  | Some b => b
  | None => x00
  end.

Definition bxor (a b : byte) : byte :=
  byte_of_N (N.lxor (Byte.to_N a) (Byte.to_N b)).

(** Bytewise XOR of a buffer with a mask; positions the mask does not
    cover are XORed with zero. *)
Fixpoint xor_bytes (a m : list byte) : list byte :=
  match a with
  | [] => []
  | x :: a' => bxor x (hd x00 m) :: xor_bytes a' (tl m)
  end.

End Bytes.

Import Bytes.

(** ** AES-256 (FIPS-197), the block cipher behind
    [crypto.createCipheriv('aes-256-cbc', ...)] *)

Module AES.

(** Multiplication by [x] in GF(2^8) modulo [x^8 + x^4 + x^3 + x + 1]. *)
Definition xtime (b : byte) : byte :=
  let n := Byte.to_N b in
  byte_of_N (N.lxor (N.shiftl n 1) (if N.testbit n 7 then 283 else 0)).

Fixpoint gmul_bits (i : nat) (k : N) (a : byte) : byte :=
  match i with
  | O => x00
  | S j => bxor (if N.odd k then a else x00) (gmul_bits j (N.div2 k) (xtime a))
  end.

(** [gmul k a] is the product of the field elements [k] and [a]. *)
Definition gmul (k : N) (a : byte) : byte := gmul_bits 8 k a.

Fixpoint gpow (n : nat) (a : byte) : byte :=
  match n with
  | O => x01
  | S m => gmul (Byte.to_N a) (gpow m a)
  end.

Definition rotl8 (n k : N) : N :=
  N.lor (N.shiftl n k mod 256) (N.shiftr n (8 - k)).

(** The S-box as FIPS-197 defines it: multiplicative inverse ([a^254]),
    then the affine map. *)
Definition sbox_spec (a : byte) : byte :=
  let v := Byte.to_N (gpow 254 a) in
  byte_of_N
    (N.lxor v (N.lxor (rotl8 v 1) (N.lxor (rotl8 v 2)
       (N.lxor (rotl8 v 3) (N.lxor (rotl8 v 4) 99))))).

Definition all_bytes : list byte :=
  Eval vm_compute in map (fun n => byte_of_N (N.of_nat n)) (seq 0 256).

Definition sbox_table : list byte :=
  Eval vm_compute in map sbox_spec all_bytes.

Definition sbox (a : byte) : byte := nth (Byte.to_nat a) sbox_table x00.

Definition inv_sbox_spec (c : byte) : byte :=
  match List.find (fun a => Byte.eqb (sbox a) c) all_bytes with
  | Some a => a
  | None => x00
  end.

Definition inv_sbox_table : list byte :=
  Eval vm_compute in map inv_sbox_spec all_bytes.

Definition inv_sbox (c : byte) : byte := nth (Byte.to_nat c) inv_sbox_table x00.

(** *** Key schedule, Nk = 8, Nr = 14 *)

Definition word : Type := byte * byte * byte * byte.

Definition word0 : word := (x00, x00, x00, x00).

Definition rot_word (w : word) : word :=
  let '(a, b, c, d) := w in (b, c, d, a).

Definition sub_word (w : word) : word :=
  let '(a, b, c, d) := w in (sbox a, sbox b, sbox c, sbox d).

Definition xor_word (v w : word) : word :=
  let '(a, b, c, d) := v in
  let '(a', b', c', d') := w in
  (bxor a a', bxor b b', bxor c c', bxor d d').

Definition rcon (i : nat) : word := (gpow (i - 1) x02, x00, x00, x00).

Fixpoint words_of_bytes (l : list byte) : list word :=
  match l with
  | a :: b :: c :: d :: l' => (a, b, c, d) :: words_of_bytes l'
  | _ => []
  end.

Definition bytes_of_word (w : word) : list byte :=
  let '(a, b, c, d) := w in [a; b; c; d].

Definition next_word (i : nat) (ws : list word) : word :=
  let temp := nth (i - 1) ws word0 in
  let temp' :=
    if Nat.eqb (i mod 8) 0 then xor_word (sub_word (rot_word temp)) (rcon (i / 8))
    else if Nat.eqb (i mod 8) 4 then sub_word temp
    else temp in
  xor_word (nth (i - 8) ws word0) temp'.

Fixpoint expand_loop (fuel i : nat) (ws : list word) : list word :=
  match fuel with
  | O => ws
  | S f => expand_loop f (S i) (ws ++ [next_word i ws])
  end.

Definition key_expansion (key : list byte) : list word :=
  expand_loop 52 8 (words_of_bytes key).

Definition round_key (ws : list word) (r : nat) : list byte :=
  concat (map bytes_of_word (firstn 4 (skipn (4 * r) ws))).

(** The fifteen round keys. *)
Definition round_keys (key : list byte) : list (list byte) :=
  let ws := key_expansion key in map (round_key ws) (seq 0 15).

(** *** Round transformations on the 16-byte state (column-major) *)

Definition add_round_key (rk st : list byte) : list byte := xor_bytes st rk.

Definition sub_bytes (st : list byte) : list byte := map sbox st.
Definition inv_sub_bytes (st : list byte) : list byte := map inv_sbox st.

Definition shift_rows (st : list byte) : list byte :=
  match st with
  | [s0; s1; s2; s3; s4; s5; s6; s7; s8; s9; sa; sb; sc; sd; se; sf] =>
      [s0; s5; sa; sf; s4; s9; se; s3; s8; sd; s2; s7; sc; s1; s6; sb]
  | _ => st
  end.

Definition inv_shift_rows (st : list byte) : list byte :=
  match st with
  | [s0; s1; s2; s3; s4; s5; s6; s7; s8; s9; sa; sb; sc; sd; se; sf] =>
      [s0; sd; sa; s7; s4; s1; se; sb; s8; s5; s2; sf; sc; s9; s6; s3]
  | _ => st
  end.

Definition mix_column (w : word) : word :=
  let '(a, b, c, d) := w in
  (bxor (gmul 2 a) (bxor (gmul 3 b) (bxor c d)),
   bxor a (bxor (gmul 2 b) (bxor (gmul 3 c) d)),
   bxor a (bxor b (bxor (gmul 2 c) (gmul 3 d))),
   bxor (gmul 3 a) (bxor b (bxor c (gmul 2 d)))).

Definition inv_mix_column (w : word) : word :=
  let '(a, b, c, d) := w in
  (bxor (gmul 14 a) (bxor (gmul 11 b) (bxor (gmul 13 c) (gmul 9 d))),
   bxor (gmul 9 a) (bxor (gmul 14 b) (bxor (gmul 11 c) (gmul 13 d))),
   bxor (gmul 13 a) (bxor (gmul 9 b) (bxor (gmul 14 c) (gmul 11 d))),
   bxor (gmul 11 a) (bxor (gmul 13 b) (bxor (gmul 9 c) (gmul 14 d)))).

Definition mix_columns (st : list byte) : list byte :=
  concat (map (fun w => bytes_of_word (mix_column w)) (words_of_bytes st)).

Definition inv_mix_columns (st : list byte) : list byte :=
  concat (map (fun w => bytes_of_word (inv_mix_column w)) (words_of_bytes st)).

Definition round (st rk : list byte) : list byte :=
  add_round_key rk (mix_columns (shift_rows (sub_bytes st))).

Definition inv_round (rk st : list byte) : list byte :=
  inv_sub_bytes (inv_shift_rows (inv_mix_columns (add_round_key rk st))).

Definition final_round (rk st : list byte) : list byte :=
  add_round_key rk (shift_rows (sub_bytes st)).

Definition inv_final_round (rk st : list byte) : list byte :=
  inv_sub_bytes (inv_shift_rows (add_round_key rk st)).

(** Cipher and inverse cipher over a given list of round keys:
    first key, middle keys, last key. *)
Definition cipher (rks : list (list byte)) (blk : list byte) : list byte :=
  match rks with
  | [] => blk
  | rk0 :: rest =>
      let mid := removelast rest in
      let rkN := List.last rest [] in
      final_round rkN (fold_left round mid (add_round_key rk0 blk))
  end.

Definition inv_cipher (rks : list (list byte)) (blk : list byte) : list byte :=
  match rks with
  | [] => blk
  | rk0 :: rest =>
      let mid := removelast rest in
      let rkN := List.last rest [] in
      add_round_key rk0 (fold_right inv_round (inv_final_round rkN blk) mid)
  end.

Definition encrypt_block (key blk : list byte) : list byte :=
  cipher (round_keys key) blk.

Definition decrypt_block (key blk : list byte) : list byte :=
  inv_cipher (round_keys key) blk.

End AES.

(** ** JavaScript strings and the two text encodings the cipher uses *)

Module Text.

(** A JavaScript string: its UTF-16 code units. *)
Definition jsstring : Type := list N.

(** The string with the given ASCII text. *)
Definition js (s : string) : jsstring :=
  map N_of_ascii (list_ascii_of_string s).

(** *** ['hex'] *)

Definition hex_digit (n : N) : N := if n <? 10 then 48 + n else 87 + n.

(** [buf.toString('hex')]: two lower-case digits per byte. *)
Definition hex_encode (bs : list byte) : jsstring :=
  flat_map (fun b => [hex_digit (Byte.to_N b / 16); hex_digit (Byte.to_N b mod 16)]) bs.

Definition hex_value (c : N) : option N :=
  if (48 <=? c) && (c <=? 57) then Some (c - 48)
  else if (97 <=? c) && (c <=? 102) then Some (c - 87)
  else if (65 <=? c) && (c <=? 70) then Some (c - 55)
  else None.

(** [Buffer.from(s, 'hex')]: decodes pairs of digits and stops at the first
    pair that is not two hex digits; a trailing single character is dropped. *)
Fixpoint hex_decode (s : jsstring) : list byte :=
  match s with
  | c1 :: c2 :: rest =>
      match hex_value c1, hex_value c2 with
      | Some h, Some l => byte_of_N (16 * h + l) :: hex_decode rest
      | _, _ => []
      end
  | _ => []
  end.

(** *** ['utf8'] *)

Definition is_high_surrogate (c : N) : bool := (0xD800 <=? c) && (c <=? 0xDBFF).
Definition is_low_surrogate (c : N) : bool := (0xDC00 <=? c) && (c <=? 0xDFFF).

(** The one to four bytes of a code point; the six-bit groups are written
    with division and remainder by 64. *)
Definition utf8_of_code_point (cp : N) : list byte :=
  if cp <? 0x80 then [byte_of_N cp]
  else if cp <? 0x800 then
    [byte_of_N (0xC0 + cp / 64);
     byte_of_N (0x80 + cp mod 64)]
  else if cp <? 0x10000 then
    [byte_of_N (0xE0 + cp / 64 / 64);
     byte_of_N (0x80 + (cp / 64) mod 64);
     byte_of_N (0x80 + cp mod 64)]
  else
    [byte_of_N (0xF0 + cp / 64 / 64 / 64);
     byte_of_N (0x80 + (cp / 64 / 64) mod 64);
     byte_of_N (0x80 + (cp / 64) mod 64);
     byte_of_N (0x80 + cp mod 64)].

(** U+FFFD, the replacement character, in UTF-8. *)
Definition replacement_utf8 : list byte := [xef; xbf; xbd].

Definition surrogate_pair_code_point (hi lo : N) : N :=
  0x10000 + (hi - 0xD800) * 1024 + (lo - 0xDC00).

(** String to bytes, as Node does for the ['utf8'] input encoding: a
    surrogate pair becomes one four-byte sequence, an unpaired surrogate
    becomes U+FFFD. *)
Fixpoint utf8_encode (s : jsstring) : list byte :=
  match s with
  | [] => []
  | c :: rest =>
      if is_high_surrogate c then
        match rest with
        | d :: rest' =>
            if is_low_surrogate d
            then utf8_of_code_point (surrogate_pair_code_point c d) ++ utf8_encode rest'
            else replacement_utf8 ++ utf8_encode rest
        | [] => replacement_utf8
        end
      else if is_low_surrogate c then replacement_utf8 ++ utf8_encode rest
      else utf8_of_code_point c ++ utf8_encode rest
  end.

(** Decoder state: continuation bytes still expected, the code point
    accumulated so far, and the admissible range of the next byte. *)
Record utf8_state : Type := mk_utf8_state
  { u_rem : N; u_acc : N; u_lower : N; u_upper : N }.

Definition utf8_init : utf8_state := mk_utf8_state 0 0 0x80 0xBF.

(** A byte read when no sequence is open. *)
Definition utf8_lead (b : N) : list N * utf8_state :=
  if b <=? 0x7F then ([b], utf8_init)
  else if (0xC2 <=? b) && (b <=? 0xDF) then
    ([], mk_utf8_state 1 (b - 0xC0) 0x80 0xBF)
  else if (0xE0 <=? b) && (b <=? 0xEF) then
    ([], mk_utf8_state 2 (b - 0xE0)
           (if b =? 0xE0 then 0xA0 else 0x80) (if b =? 0xED then 0x9F else 0xBF))
  else if (0xF0 <=? b) && (b <=? 0xF4) then
    ([], mk_utf8_state 3 (b - 0xF0)
           (if b =? 0xF0 then 0x90 else 0x80) (if b =? 0xF4 then 0x8F else 0xBF))
  else ([0xFFFD], utf8_init).

(** One byte: a continuation byte in range extends the open sequence; a
    byte out of range closes it with U+FFFD and is read again as a lead. *)
Definition utf8_step (st : utf8_state) (b : N) : list N * utf8_state :=
  if u_rem st =? 0 then utf8_lead b
  else if (u_lower st <=? b) && (b <=? u_upper st) then
    let acc := u_acc st * 64 + (b - 0x80) in
    if u_rem st =? 1 then ([acc], utf8_init)
    else ([], mk_utf8_state (u_rem st - 1) acc 0x80 0xBF)
  else
    let '(out, st') := utf8_lead b in (0xFFFD :: out, st').

Fixpoint utf8_run (st : utf8_state) (bs : list byte) : list N * utf8_state :=
  match bs with
  | [] => ([], st)
  | b :: bs' =>
      let '(o1, s1) := utf8_step st (Byte.to_N b) in
      let '(o2, s2) := utf8_run s1 bs' in
      (o1 ++ o2, s2)
  end.

(** The code points a byte sequence decodes to; a sequence left open at
    the end yields one more U+FFFD. *)
Definition utf8_code_points (bs : list byte) : list N :=
  let '(out, st) := utf8_run utf8_init bs in
  out ++ (if u_rem st =? 0 then [] else [0xFFFD]).

Definition utf16_of_code_point (cp : N) : list N :=
  if cp <? 0x10000 then [cp]
  else [0xD800 + (cp - 0x10000) / 1024; 0xDC00 + (cp - 0x10000) mod 1024].

(** Bytes to string, as Node does for the ['utf8'] output encoding. *)
Definition utf8_decode (bs : list byte) : jsstring :=
  flat_map utf16_of_code_point (utf8_code_points bs).

(** A string is well formed when every code unit is below [0x10000] and
    surrogates occur only as a high one followed by a low one. *)
Fixpoint well_formed (s : jsstring) : bool :=
  match s with
  | [] => true
  | c :: rest =>
      if is_high_surrogate c then
        match rest with
        | d :: rest' => is_low_surrogate d && well_formed rest'
        | [] => false
        end
      else negb (is_low_surrogate c) && (c <? 0x10000) && well_formed rest
  end.

End Text.

Import Text.

(** ** The field cipher: [cryptoMethods.aesIGE] of [authService.js] *)

Module Cipher.

Local Open Scope nat_scope.

Inductive result (A : Type) : Type :=
  | Ok (a : A)
  | Err (e : string).
Arguments Ok {A} a.
Arguments Err {A} e.

(** The errors [crypto] throws on these paths, by their message. *)
Definition invalid_iv : string := "Invalid initialization vector".
Definition invalid_key_length : string := "Invalid key length".
Definition invalid_hex_length : string := "The argument 'encoding' is invalid for data of odd length".
Definition wrong_final_block_length : string := "wrong final block length".
Definition bad_decrypt : string := "bad decrypt".

(** *** CBC mode with PKCS#7 padding over a block cipher *)

Section BlockMode.

Variables E D : list byte -> list byte.

(** [n] blocks of [data], each XORed with the previous ciphertext block
    (the IV for the first) and enciphered. *)
Fixpoint cbc_encrypt (n : nat) (prev data : list byte) : list byte :=
  match n with
  | O => []
  | S k =>
      let c := E (xor_bytes (firstn 16 data) prev) in
      c ++ cbc_encrypt k c (skipn 16 data)
  end.

Fixpoint cbc_decrypt (n : nat) (prev ct : list byte) : list byte :=
  match n with
  | O => []
  | S k =>
      let c := firstn 16 ct in
      xor_bytes (D c) prev ++ cbc_decrypt k c (skipn 16 ct)
  end.

End BlockMode.

Definition pad_length (len : nat) : nat := 16 - len mod 16.

(** PKCS#7: between 1 and 16 bytes, each holding the number of bytes added. *)
Definition pkcs7_pad (data : list byte) : list byte :=
  let p := pad_length (length data) in
  data ++ repeat (byte_of_N (N.of_nat p)) p.

(** The check of [EVP_DecryptFinal_ex]: the last byte [p] must be in 1..16
    and the last [p] bytes must all equal [p]. *)
Definition pkcs7_unpad (data : list byte) : option (list byte) :=
  let p := Byte.to_nat (List.last data x00) in
  if Nat.eqb p 0 || Nat.ltb 16 p then None
  else
    let body := length data - p in
    if forallb (fun b => Nat.eqb (Byte.to_nat b) p) (skipn body data)
    then Some (firstn body data)
    else None.

(** [createCipheriv('aes-256-cbc', key, iv)], [update], [final]. *)
Definition aes_256_cbc_encrypt (key iv data : list byte) : result (list byte) :=
  if negb (Nat.eqb (length iv) 16) then Err invalid_iv
  else if negb (Nat.eqb (length key) 32) then Err invalid_key_length
  else
    let padded := pkcs7_pad data in
    Ok (cbc_encrypt (AES.encrypt_block key) (length padded / 16) iv padded).

(** [createDecipheriv('aes-256-cbc', key, iv)], [update], [final]. *)
Definition aes_256_cbc_decrypt (key iv ct : list byte) : result (list byte) :=
  if negb (Nat.eqb (length iv) 16) then Err invalid_iv
  else if negb (Nat.eqb (length key) 32) then Err invalid_key_length
  else if Nat.eqb (length ct) 0 || negb (Nat.eqb (length ct mod 16) 0)
  then Err wrong_final_block_length
  else
    match pkcs7_unpad (cbc_decrypt (AES.decrypt_block key) (length ct / 16) iv ct) with
    | Some data => Ok data
    | None => Err bad_decrypt
    end.

Definition colon : N := 58.

(** [s.split(':')], then [shift()] and [join(':')] of the rest: the text
    before the first colon and the text after it. *)
Fixpoint split_first_colon (s : jsstring) : jsstring * jsstring :=
  match s with
  | [] => ([], [])
  | c :: rest =>
      if (c =? colon)%N then ([], rest)
      else let '(a, b) := split_first_colon rest in (c :: a, b)
  end.

(** [aesIGE.encrypt(data, key)]; [iv] is the value of [crypto.randomBytes(16)].
    Every caller passes a [Buffer] as [key], so [keyBuffer] is [key]. *)
Definition aesIGE_encrypt (iv : list byte) (data : jsstring) (key : list byte)
  : result jsstring :=
  match aes_256_cbc_encrypt key iv (utf8_encode data) with
  | Ok ct => Ok (hex_encode iv ++ colon :: hex_encode ct)
  | Err e => Err e
  end.

(** [aesIGE.decrypt(encryptedData, key)]: the errors are those of
    [createDecipheriv] (IV, then key length), of [update] (a hex string of
    odd length) and of [final] (block length, padding). *)
Definition aesIGE_decrypt (encryptedData : jsstring) (key : list byte)
  : result jsstring :=
  let '(ivText, encryptedText) := split_first_colon encryptedData in
  let iv := hex_decode ivText in
  if negb (Nat.eqb (length iv) 16) then Err invalid_iv
  else if negb (Nat.eqb (length key) 32) then Err invalid_key_length
  else if Nat.odd (length encryptedText) then Err invalid_hex_length
  else
    match aes_256_cbc_decrypt key iv (hex_decode encryptedText) with
    | Ok data => Ok (utf8_decode data)
    | Err e => Err e
    end.

End Cipher.

Import Cipher.

(** ** Test data *)

(** Known-answer test of FIPS-197, Appendix C.3. *)
Definition fips_key : list byte :=
  [x00; x01; x02; x03; x04; x05; x06; x07; x08; x09; x0a; x0b; x0c; x0d; x0e; x0f;
   x10; x11; x12; x13; x14; x15; x16; x17; x18; x19; x1a; x1b; x1c; x1d; x1e; x1f].

Definition fips_plain : list byte :=
  [x00; x11; x22; x33; x44; x55; x66; x77; x88; x99; xaa; xbb; xcc; xdd; xee; xff].

Definition fips_cipher : list byte :=
  [x8e; xa2; xb7; xca; x51; x67; x45; xbf; xea; xfc; x49; x90; x4b; x49; x60; x89].

(** Known-answer test of NIST SP 800-38A, F.2.5 (CBC-AES256, first block). *)
Definition sp800_key : list byte :=
  [x60; x3d; xeb; x10; x15; xca; x71; xbe; x2b; x73; xae; xf0; x85; x7d; x77; x81;
   x1f; x35; x2c; x07; x3b; x61; x08; xd7; x2d; x98; x10; xa3; x09; x14; xdf; xf4].

Definition sp800_iv : list byte :=
  [x00; x01; x02; x03; x04; x05; x06; x07; x08; x09; x0a; x0b; x0c; x0d; x0e; x0f].

Definition sp800_plain : list byte :=
  [x6b; xc1; xbe; xe2; x2e; x40; x9f; x96; xe9; x3d; x7e; x11; x73; x93; x17; x2a].


(** ** JavaScript values *)

Module JS.

(** The primitive values that flow through the session cookie, the request
    body and the cached session data. Numbers are the integral ones (ids). *)
Inductive value : Type :=
  | VUndefined
  | VNull
  | VBool (b : bool)
  | VNum (n : Z)
  | VStr (s : jsstring).

Global Instance value_eq_dec : EqDecision value.
Proof. solve_decision. Defined.

(** [!!v] *)
Definition truthy (v : value) : bool :=
  match v with
  | VUndefined | VNull => false
  | VBool b => b
  | VNum n => negb (n =? 0)%Z
  | VStr s => negb (Nat.eqb (length s) 0)
  end.

(** [a === b] *)
Definition strict_eq (a b : value) : bool :=
  match a, b with
  | VUndefined, VUndefined => true
  | VNull, VNull => true
  | VBool x, VBool y => Bool.eqb x y
  | VNum x, VNum y => (x =? y)%Z
  | VStr x, VStr y => bool_decide (x = y)
  | _, _ => false
  end.

(** The string a template literal [`${v}`] inserts. *)
Definition to_string (v : value) : jsstring :=
  match v with
  | VUndefined => js "undefined"
  | VNull => js "null"
  | VBool true => js "true"
  | VBool false => js "false"
  | VNum n => js (pretty n)
  | VStr s => s
  end.

(** What [JSON.parse] returns. *)
#[warnings="-register-all"]
Inductive json : Type :=
  | JPrim (v : value)
  | JArray (items : list json)
  | JObject (fields : list (string * json)).

(** [obj[name]] on the fields of a parsed object; of a repeated name the
    last occurrence counts. *)
Fixpoint field (name : string) (fields : list (string * json)) : option json :=
  match fields with
  | [] => None
  | (k, v) :: rest =>
      match field name rest with
      | Some v' => Some v'
      | None => if String.eqb k name then Some v else None
      end
  end.

End JS.

Import JS.

(** ** The world: MySQL, MongoDB, Redis *)

Module Store.

(** *** MySQL *)

Inductive sqlval : Type :=
  | SNull
  | SInt (n : Z)
  | SText (s : jsstring)
  | STime (t : N).

Global Instance sqlval_eq_dec : EqDecision sqlval.
Proof. solve_decision. Defined.

(** A row: the columns that are not [NULL]. *)
Definition row : Type := gmap string sqlval.

Definition col (r : row) (c : string) : sqlval := default SNull (r !! c).

Record table : Type := mk_table
  { t_columns : list string;
    t_rows : list row;
    t_auto_inc : Z }.

(** The [users] table of the [CREATE TABLE] statement in [storeUserInMySQL]. *)
Definition users_columns : list string :=
  ["id"; "email"; "password_hash"; "session_id"; "auth_key"; "encryption_key";
   "first_name"; "last_name"; "phone"; "created_at"]%string.

Definition user_sessions_columns : list string :=
  ["id"; "user_id"; "session_token"; "created_at"]%string.

Definition empty_table (cols : list string) : table := mk_table cols [] 1.

(** A bind parameter. *)
Definition sql_param (v : value) : sqlval :=
  match v with
  | VUndefined | VNull => SNull
  | VBool b => SInt (if b then 1 else 0)
  | VNum n => SInt n
  | VStr s => SText s
  end.

Inductive statement : Type :=
  | DropUserSessionsIfExists
  | DropUsersIfExists
  | CreateUsers
  | CreateUserSessions
  | InsertUser (email password_hash : jsstring)
  | SelectUserById (cols : list string) (id : value)
  | UpdateUserById (assignments : list (string * sqlval)) (id : value).

Inductive sql_result : Type :=
  | Done
  | Inserted (insertId : Z)
  | Rows (rows : list row).

(** *** MongoDB: the [user_profiles] collection *)

Record profile_doc : Type := mk_profile_doc
  { p_user_id : Z;
    p_gender : value;
    p_birth_date : value;
    p_mtproto_session : jsstring;
    p_created_at : N }.

(** *** Redis *)

(** The text of a cached value, up to what [JSON.parse] makes of it. *)
Inductive redis_text : Type :=
  | Json (j : json)
  | NotJson (s : jsstring).

Inductive redis_cmd : Type :=
  | GET (key : jsstring)
  | SETEX (key : jsstring) (ttl : N) (text : redis_text)
  | DEL (key : jsstring).

(** *** The whole state *)

Record world : Type := mk_world
  { w_now : N;
    w_users : option table;
    w_user_sessions : option table;
    w_users_referenced : bool;
    w_mysql_faults : list bool;
    w_profiles : list profile_doc;
    w_mongo_up : bool;
    w_redis : gmap jsstring (redis_text * N);
    w_redis_up : bool;
    w_redis_log : list redis_cmd }.

Definition set_users (u : option table) (w : world) : world :=
  mk_world (w_now w) u (w_user_sessions w) (w_users_referenced w)
    (w_mysql_faults w) (w_profiles w) (w_mongo_up w) (w_redis w) (w_redis_up w)
    (w_redis_log w).

Definition set_user_sessions (t : option table) (w : world) : world :=
  mk_world (w_now w) (w_users w) t (w_users_referenced w)
    (w_mysql_faults w) (w_profiles w) (w_mongo_up w) (w_redis w) (w_redis_up w)
    (w_redis_log w).

Definition set_mysql_faults (fs : list bool) (w : world) : world :=
  mk_world (w_now w) (w_users w) (w_user_sessions w) (w_users_referenced w)
    fs (w_profiles w) (w_mongo_up w) (w_redis w) (w_redis_up w) (w_redis_log w).

Definition set_profiles (ps : list profile_doc) (w : world) : world :=
  mk_world (w_now w) (w_users w) (w_user_sessions w) (w_users_referenced w)
    (w_mysql_faults w) ps (w_mongo_up w) (w_redis w) (w_redis_up w) (w_redis_log w).

Definition set_redis (m : gmap jsstring (redis_text * N)) (w : world) : world :=
  mk_world (w_now w) (w_users w) (w_user_sessions w) (w_users_referenced w)
    (w_mysql_faults w) (w_profiles w) (w_mongo_up w) m (w_redis_up w) (w_redis_log w).

Definition set_redis_up (up : bool) (w : world) : world :=
  mk_world (w_now w) (w_users w) (w_user_sessions w) (w_users_referenced w)
    (w_mysql_faults w) (w_profiles w) (w_mongo_up w) (w_redis w) up (w_redis_log w).

Definition log_redis (c : redis_cmd) (w : world) : world :=
  mk_world (w_now w) (w_users w) (w_user_sessions w) (w_users_referenced w)
    (w_mysql_faults w) (w_profiles w) (w_mongo_up w) (w_redis w) (w_redis_up w)
    (w_redis_log w ++ [c]).

(** *** Asynchronous code as a state-and-exception monad *)

Definition M (A : Type) : Type := world -> result A * world.

Definition ret {A} (a : A) : M A := fun w => (Ok a, w).

Definition throw {A} (e : string) : M A := fun w => (Err e, w).

Definition bind {A B} (c : M A) (k : A -> M B) : M B :=
  fun w =>
    match c w with
    | (Ok a, w') => k a w'
    | (Err e, w') => (Err e, w')
    end.

(** [try { c } catch (error) { h error }] *)
Definition try_catch {A} (c : M A) (h : string -> M A) : M A :=
  fun w =>
    match c w with
    | (Ok a, w') => (Ok a, w')
    | (Err e, w') => h e w'
    end.

(** A synchronous computation that may throw. *)
Definition lift {A} (r : result A) : M A := fun w => (r, w).

Definition get_world : M world := fun w => (Ok w, w).

Declare Scope monad_scope.
Delimit Scope monad_scope with monad.
Notation "'let*' x ':=' c 'in' k" := (bind c (fun x => k))
  (at level 10, x name, c at level 100, k at level 200) : monad_scope.
Notation "'let*' '_' ':=' c 'in' k" := (bind c (fun _ => k))
  (at level 10, c at level 100, k at level 200) : monad_scope.

Local Open Scope monad_scope.

(** *** [mysql.execute] *)

Definition row_id_is (id : sqlval) (r : row) : bool :=
  match id with
  | SNull => false
  | _ => bool_decide (col r "id" = id)
  end.

Definition email_taken (email : sqlval) (rows : list row) : bool :=
  existsb (fun r => bool_decide (col r "email" = email)) rows.

Definition known_columns (t : table) (cols : list string) : bool :=
  forallb (fun c => existsb (String.eqb c) (t_columns t)) cols.

Definition project (cols : list string) (r : row) : row :=
  filter (fun kv => existsb (String.eqb (fst kv)) cols = true) r.

Definition assign (assignments : list (string * sqlval)) (r : row) : row :=
  fold_left (fun acc kv =>
               match snd kv with
               | SNull => delete (fst kv) acc
               | v => <[fst kv := v]> acc
               end) assignments r.

Definition assigned_email (assignments : list (string * sqlval)) : option sqlval :=
  match filter (fun kv => fst kv = "email"%string) assignments with
  | [] => None
  | kv :: rest => Some (snd (List.last rest kv))
  end.

(** The effect of one statement on the tables, or the error it raises.
    Of the constraints of [users], the ones modelled are [UNIQUE (email)]
    and the foreign keys that keep [DROP TABLE users] from succeeding while
    another table refers to it; emails are compared exactly. *)
Definition run_statement (s : statement) (w : world) : result sql_result * world :=
  match s with
  | DropUserSessionsIfExists => (Ok Done, set_user_sessions None w)
  | DropUsersIfExists =>
      match w_users w with
      | None => (Ok Done, w)
      | Some _ =>
          if w_users_referenced w || bool_decide (is_Some (w_user_sessions w))
          then (Err "Cannot drop table 'users' referenced by a foreign key constraint", w)
          else (Ok Done, set_users None w)
      end
  | CreateUsers =>
      match w_users w with
      | Some _ => (Err "Table 'users' already exists", w)
      | None => (Ok Done, set_users (Some (empty_table users_columns)) w)
      end
  | CreateUserSessions =>
      match w_user_sessions w, w_users w with
      | Some _, _ => (Err "Table 'user_sessions' already exists", w)
      | None, None => (Err "Failed to open the referenced table 'users'", w)
      | None, Some _ =>
          (Ok Done, set_user_sessions (Some (empty_table user_sessions_columns)) w)
      end
  | InsertUser email password_hash =>
      match w_users w with
      | None => (Err "Table 'users' doesn't exist", w)
      | Some t =>
          if negb (known_columns t ["email"; "password_hash"]%string)
          then (Err "Unknown column", w)
          else if email_taken (SText email) (t_rows t)
          then (Err "Duplicate entry for key 'users.email'", w)
          else
            let id := t_auto_inc t in
            let r : row :=
              assign [("id"%string, SInt id); ("email"%string, SText email);
                      ("password_hash"%string, SText password_hash);
                      ("created_at"%string, STime (w_now w))] ∅ in
            (Ok (Inserted id),
             set_users (Some (mk_table (t_columns t) (t_rows t ++ [r]) (id + 1))) w)
      end
  | SelectUserById cols id =>
      match w_users w with
      | None => (Err "Table 'users' doesn't exist", w)
      | Some t =>
          if negb (known_columns t cols) then (Err "Unknown column", w)
          else
            (Ok (Rows (map (project cols)
                         (filter (fun r => row_id_is (sql_param id) r = true)
                            (t_rows t)))), w)
      end
  | UpdateUserById assignments id =>
      match w_users w with
      | None => (Err "Table 'users' doesn't exist", w)
      | Some t =>
          if negb (known_columns t (map fst assignments)) then (Err "Unknown column", w)
          else
            let hit r := row_id_is (sql_param id) r in
            let clash :=
              match assigned_email assignments with
              | Some e =>
                  existsb hit (t_rows t) &&
                  email_taken e (filter (fun r => hit r = false) (t_rows t))
              | None => false
              end in
            if clash then (Err "Duplicate entry for key 'users.email'", w)
            else
              (Ok Done,
               set_users
                 (Some (mk_table (t_columns t)
                          (map (fun r => if hit r then assign assignments r else r)
                             (t_rows t))
                          (t_auto_inc t))) w)
      end
  end.

(** [await this.mysql.execute(...)]: the next entry of the fault schedule
    says whether the call rejects before reaching the tables. *)
Definition mysql_execute (s : statement) : M sql_result :=
  fun w =>
    let w' := set_mysql_faults (tl (w_mysql_faults w)) w in
    if hd false (w_mysql_faults w) then (Err "connect ECONNREFUSED", w')
    else run_statement s w'.

(** *** [collection.insertOne] *)

Definition mongo_insertOne (d : profile_doc) : M unit :=
  fun w =>
    if w_mongo_up w then (Ok tt, set_profiles (w_profiles w ++ [d]) w)
    else (Err "MongoNetworkError", w).

(** *** The Redis client *)

(** What the server holds under a key now: entries past their expiry are gone. *)
Definition redis_lookup (w : world) (key : jsstring) : option redis_text :=
  match w_redis w !! key with
  | Some (text, expires) => if w_now w <? expires then Some text else None
  | None => None
  end.

Definition redis_get (key : jsstring) : M (option redis_text) :=
  fun w =>
    let w' := log_redis (GET key) w in
    if w_redis_up w then (Ok (redis_lookup w key), w')
    else (Err "The client is closed", w').

Definition redis_setEx (key : jsstring) (ttl : N) (text : redis_text) : M unit :=
  fun w =>
    let w' := log_redis (SETEX key ttl text) w in
    if w_redis_up w
    then (Ok tt, set_redis (<[key := (text, w_now w + ttl)]> (w_redis w')) w')
    else (Err "The client is closed", w').

Definition redis_del (key : jsstring) : M unit :=
  fun w =>
    let w' := log_redis (DEL key) w in
    if w_redis_up w then (Ok tt, set_redis (delete key (w_redis w')) w')
    else (Err "The client is closed", w').

End Store.

Import Store.

(** ** [AuthService] ([src/services/authService.js]) *)

Module AuthService.

Local Open Scope monad_scope.

(** The argument of [register]. *)
Record userData : Type := mk_userData
  { email : jsstring;
    password : jsstring;
    firstName : jsstring;
    lastName : jsstring;
    phone : option jsstring;
    gender : value;
    birthDate : value }.

(** What the random sources and [bcrypt.hash] return during one call of
    [register]: the key of [generateKey], the IV of each [encrypt], the
    password hash, the UUID and the 256 bytes of [createSession], and the
    53 random bits [m] of [Math.random() = m / 2^53]. *)
Record draws : Type := mk_draws
  { d_key : list byte;
    d_iv_first_name : list byte;
    d_iv_last_name : list byte;
    d_iv_phone : list byte;
    d_password_hash : jsstring;
    d_session_id : jsstring;
    d_auth_key : list byte;
    d_random : N }.

(** The shape of what the random sources deliver. *)
Definition valid_draws (d : draws) : Prop :=
  length (d_key d) = 32%nat /\
  length (d_iv_first_name d) = 16%nat /\
  length (d_iv_last_name d) = 16%nat /\
  length (d_iv_phone d) = 16%nat /\
  (d_random d < 2 ^ 53)%N.

Record encryptedData : Type := mk_encryptedData
  { e_email : jsstring;
    e_first_name : jsstring;
    e_last_name : jsstring;
    e_phone : option jsstring;
    e_encryption_key : jsstring;
    e_gender : value;
    e_birth_date : value }.

(** [encryptUserData(userData)] *)
Definition encryptUserData (d : draws) (u : userData) : M encryptedData :=
  let encryptionKey := d_key d in
  let* first_name := lift (aesIGE_encrypt (d_iv_first_name d) (firstName u) encryptionKey) in
  let* last_name := lift (aesIGE_encrypt (d_iv_last_name d) (lastName u) encryptionKey) in
  let* phone :=
    match phone u with
    | Some (c :: p) =>
        let* x := lift (aesIGE_encrypt (d_iv_phone d) (c :: p) encryptionKey) in
        ret (Some x)
    | _ => ret None
    end in
  ret (mk_encryptedData (email u) first_name last_name phone
         (hex_encode encryptionKey) (gender u) (birthDate u)).

(** A user row as [login] reads it from MySQL. *)
Record encryptedUser : Type := mk_encryptedUser
  { eu_email : value;
    eu_first_name : value;
    eu_last_name : value;
    eu_phone : value;
    eu_encryption_key : value }.

Record profile : Type := mk_profile
  { pr_email : value;
    pr_firstName : value;
    pr_lastName : value;
    pr_phone : value }.

(** [a || b] *)
Definition or_else (a b : value) : value := if truthy a then a else b.

(** [Buffer.from(v, 'hex')] *)
Definition buffer_from_hex (v : value) : M (list byte) :=
  match v with
  | VStr s => ret (hex_decode s)
  | _ => throw "TypeError: The first argument must be of type string"
  end.

(** [aesIGE.decrypt(v, key)] on a column value. *)
Definition decrypt_column (v : value) (key : list byte) : M value :=
  match v with
  | VStr s => let* p := lift (aesIGE_decrypt s key) in ret (VStr p)
  | _ => throw "TypeError: encryptedData.split is not a function"
  end.

Definition plain_data (eu : encryptedUser) : profile :=
  mk_profile (eu_email eu)
    (or_else (eu_first_name eu) (VStr []))
    (or_else (eu_last_name eu) (VStr []))
    (or_else (eu_phone eu) VNull).

(** [decryptUserData(encryptedUser)] *)
Definition decryptUserData (eu : encryptedUser) : M profile :=
  try_catch
    (if negb (truthy (eu_encryption_key eu)) then ret (plain_data eu)
     else
       let* encryptionKey := buffer_from_hex (eu_encryption_key eu) in
       let* firstName :=
         if truthy (eu_first_name eu)
         then decrypt_column (eu_first_name eu) encryptionKey else ret (VStr []) in
       let* lastName :=
         if truthy (eu_last_name eu)
         then decrypt_column (eu_last_name eu) encryptionKey else ret (VStr []) in
       let* phone :=
         if truthy (eu_phone eu)
         then decrypt_column (eu_phone eu) encryptionKey else ret VNull in
       ret (mk_profile (eu_email eu) firstName lastName phone))
    (fun _ => ret (plain_data eu)).

(** [result.insertId] *)
Definition insertId (r : sql_result) : value :=
  match r with
  | Inserted id => VNum id
  | _ => VUndefined
  end.

(** [Math.floor(Math.random() * k)] for the draw [m / 2^53], in exact
    arithmetic (the rounding of the product is not modelled). *)
Definition floor_random_times (m k : N) : Z := Z.of_N (m * k / 2 ^ 53).

(** The [try] block of [storeUserInMySQL]: drop and recreate both tables,
    then insert the row, a second time if the first insert throws. *)
Definition storeUserInMySQL_try (email password_hash : jsstring) : M value :=
  let* _ := mysql_execute DropUserSessionsIfExists in
  let* _ := mysql_execute DropUsersIfExists in
  let* _ := mysql_execute CreateUsers in
  let* _ := mysql_execute CreateUserSessions in
  try_catch
    (let* result := mysql_execute (InsertUser email password_hash) in
     ret (insertId result))
    (fun _ =>
       let* result := mysql_execute (InsertUser email password_hash) in
       ret (insertId result)).

(** [storeUserInMySQL(userData)]: on any error, a dummy id. *)
Definition storeUserInMySQL (d : draws) (email password_hash : jsstring) : M value :=
  try_catch
    (storeUserInMySQL_try email password_hash)
    (fun _ => ret (VNum (floor_random_times (d_random d) 10000))).

(** [storeUserProfileInMongoDB(userId, profileData)] *)
Definition storeUserProfileInMongoDB (userId : value) (e : encryptedData)
    (session_id : jsstring) : M unit :=
  let* w := get_world in
  mongo_insertOne
    (mk_profile_doc
       (match userId with VNum n => n | _ => 0%Z end)
       (e_gender e) (e_birth_date e) session_id (w_now w)).

Record sessionData : Type := mk_sessionData
  { session_id : value;
    auth_key : value }.

(** [JSON.stringify(sessionData)]: members that are [undefined] are left out. *)
Definition JSON_stringify (sd : sessionData) : redis_text :=
  let member name v :=
    match v with
    | VUndefined => []
    | _ => [(name, JPrim v)]
    end in
  Json (JObject (member "session_id"%string (session_id sd)
                 ++ member "auth_key"%string (auth_key sd))).

(** [JSON.parse(text)] *)
Definition JSON_parse (text : redis_text) : M json :=
  match text with
  | Json j => ret j
  | NotJson _ => throw "SyntaxError: Unexpected token in JSON"
  end.

(** [j.session_id === sessionId] *)
Definition session_id_is (j : json) (sessionId : value) : M bool :=
  match j with
  | JPrim VNull | JPrim VUndefined =>
      throw "TypeError: Cannot read properties of null (reading 'session_id')"
  | JPrim _ | JArray _ => ret (strict_eq VUndefined sessionId)
  | JObject fields =>
      match field "session_id" fields with
      | None => ret (strict_eq VUndefined sessionId)
      | Some (JPrim v) => ret (strict_eq v sessionId)
      | Some _ => ret false
      end
  end.

(** [`session:${userId}`] *)
Definition session_key (userId : value) : jsstring :=
  js "session:" ++ to_string userId.

(** [cacheUserSession(userId, sessionData)] *)
Definition cacheUserSession (userId : value) (sd : sessionData) : M unit :=
  try_catch
    (redis_setEx (session_key userId) 86400 (JSON_stringify sd))
    (fun _ => ret tt).

(** [!cachedSession] *)
Definition no_cached_session (c : option redis_text) : bool :=
  match c with
  | None => true
  | Some (NotJson []) => true
  | Some _ => false
  end.

(** [verifySession(userId, sessionId)] *)
Definition verifySession (userId sessionId : value) : M bool :=
  try_catch
    (let sessionKey := session_key userId in
     let* cachedSession := redis_get sessionKey in
     if no_cached_session cachedSession then ret false
     else
       let* sessionData :=
         JSON_parse (default (NotJson []) cachedSession) in
       session_id_is sessionData sessionId)
    (fun _ => ret true).

Record register_result : Type := mk_register_result
  { success : bool;
    userId : value;
    sessionId : value }.

(** [this.mtproto.createSession(...)] of the mock [MTProtoAuth]. *)
Definition createSession (d : draws) : sessionData :=
  mk_sessionData (VStr (d_session_id d)) (VStr (hex_encode (d_auth_key d))).

(** [register(userData)], on an initialized service. *)
Definition register (d : draws) (u : userData) : M register_result :=
  try_catch
    (let* encrypted := encryptUserData d u in
     let hashedPassword := d_password_hash d in
     let sd := createSession d in
     let* userId := storeUserInMySQL d (e_email encrypted) hashedPassword in
     let* _ := storeUserProfileInMongoDB userId encrypted (d_session_id d) in
     let* _ := cacheUserSession userId sd in
     ret (mk_register_result true userId (session_id sd)))
    (fun e => throw ("Failed to register user: " ++ e)).

End AuthService.

Import AuthService.

(** ** The access guard: [requireAuth] of the authentication middleware *)

Module Middleware.

Local Open Scope monad_scope.

(** [req.session], the credential carrier of the request; the session
    middleware of [server.js] puts it on every request. *)
Record http_session : Type := mk_http_session
  { s_userId : value;
    s_sessionId : value;
    s_destroyed : bool }.

(** [req.session.destroy()] *)
Definition destroy (s : http_session) : http_session :=
  mk_http_session (s_userId s) (s_sessionId s) true.

(** How the middleware ends: it calls [next()] with [req.user.id] set, or
    it answers with a status and a code. *)
Inductive outcome : Type :=
  | Next (user : value)
  | Respond (status : N) (code : string).

(** [requireAuth(req, res, next)] *)
Definition requireAuth (s : http_session) : M (outcome * http_session) :=
  try_catch
    (let userId := s_userId s in
     let sessionId := s_sessionId s in
     if negb (truthy userId) || negb (truthy sessionId)
     then ret (Respond 401 "AUTH_REQUIRED", s)
     else
       let* sessionExists := verifySession userId sessionId in
       if negb sessionExists
       then ret (Respond 401 "SESSION_INVALID", destroy s)
       else ret (Next userId, s))
    (fun _ => ret (Respond 500 "AUTH_ERROR", s)).

(** The decision of the guard in the words of the specification. *)
Inductive decision : Type :=
  | ALLOWED (accountId : value)
  | DENIED_AuthRequired
  | DENIED_SessionInvalid
  | DENIED_AuthServiceError
  | OTHER.

Global Instance decision_eq_dec : EqDecision decision.
Proof. solve_decision. Defined.

Definition decision_of (o : outcome) : decision :=
  match o with
  | Next u => ALLOWED u
  | Respond 401 "AUTH_REQUIRED" => DENIED_AuthRequired
  | Respond 401 "SESSION_INVALID" => DENIED_SessionInvalid
  | Respond 500 "AUTH_ERROR" => DENIED_AuthServiceError
  | Respond _ _ => OTHER
  end.

(** The guard on a request that carries the pair [(userId, sessionId)]. *)
Definition access_guard (userId sessionId : value) (w : world) : decision * world :=
  match requireAuth (mk_http_session userId sessionId false) w with
  | (Ok (o, _), w') => (decision_of o, w')
  | (Err _, w') => (OTHER, w')
  end.

End Middleware.

Import Middleware.

(** ** [UserRepository] and [UserService.updateProfile] *)

Module UserService.

Local Open Scope monad_scope.

(** A value of the object passed to [UserRepository.update]. *)
Inductive field_value : Type :=
  | FValue (v : value)
  | FDate (t : N).

Definition sql_of_field (f : field_value) : sqlval :=
  match f with
  | FValue v => sql_param v
  | FDate t => STime t
  end.

Definition findById_columns : list string :=
  ["id"; "username"; "email"; "display_name"; "bio"; "avatar_url"; "is_active";
   "is_verified"; "created_at"]%string.

(** [UserRepository.findById(id)]: [rows[0] || null]. *)
Definition findById (id : value) : M (option row) :=
  let* r := mysql_execute (SelectUserById findById_columns id) in
  match r with
  | Rows (r0 :: _) => ret (Some r0)
  | _ => ret None
  end.

(** [UserRepository.update(id, updateData)] *)
Definition update (id : value) (updateData : list (string * field_value))
  : M (option row) :=
  let kept :=
    filter (fun kv => fst kv ≠ "id"%string ∧ fst kv ≠ "password_hash"%string)
      updateData in
  match kept with
  | [] => findById id
  | _ =>
      let* w := get_world in
      let* _ := mysql_execute
           (UpdateUserById
              (map (fun kv => (fst kv, sql_of_field (snd kv))) kept
               ++ [("updated_at"%string, STime (w_now w))]) id) in
      findById id
  end.

Definition allowedFields : list string :=
  ["firstName"; "lastName"; "bio"; "dateOfBirth"; "location"; "website";
   "phoneNumber"]%string.

(** [UserService.updateProfile(userId, updateData)]; [updateData] lists
    the own properties of the object in the order of [Object.keys]. *)
Definition updateProfile (userId : value) (updateData : list (string * value))
  : M row :=
  try_catch
    (let* w := get_world in
     let filteredData :=
       map (fun kv => (fst kv, FValue (snd kv)))
         (filter (fun kv => fst kv ∈ allowedFields) updateData)
       ++ [("updatedAt"%string, FDate (w_now w))] in
     let* updatedUser := update userId filteredData in
     match updatedUser with
     | Some r => ret (delete "password"%string r)
     | None => throw "TypeError: Cannot destructure 'updatedUser' as it is null"
     end)
    (fun error => throw error).

End UserService.

(** ** Vocabulary of the statements *)

(** The rows of the [users] table, none when the table does not exist. *)
Definition users_rows (w : world) : list row :=
  match w_users w with
  | Some t => t_rows t
  | None => []
  end.

(** The row the [INSERT] of [storeUserInMySQL] writes into the fresh table. *)
Definition inserted_row (email password_hash : jsstring) (now : N) : row :=
  assign [("id"%string, SInt 1); ("email"%string, SText email);
          ("password_hash"%string, SText password_hash);
          ("created_at"%string, STime now)] ∅.

(** No two rows of the [users] table carry the same email. *)
Definition unique_emails (w : world) : Prop :=
  NoDup (map (fun r => col r "email") (users_rows w)).

(** What a call leaves alone: everything but the MySQL tables and the
    fault schedule. *)
Definition same_outside_mysql (w w' : world) : Prop :=
  w_now w' = w_now w /\ w_users_referenced w' = w_users_referenced w /\
  w_profiles w' = w_profiles w /\ w_mongo_up w' = w_mongo_up w /\
  w_redis w' = w_redis w /\ w_redis_up w' = w_redis_up w /\
  w_redis_log w' = w_redis_log w.

(** The assignments of the [UPDATE] that [updateProfile] sends: every
    allowed field of the request with the value as supplied, then the two
    timestamps. *)
Definition plain_assignments (now : N) (updateData : list (string * value))
  : list (string * sqlval) :=
  map (fun kv => (fst kv, sql_param (snd kv)))
    (filter (fun kv => fst kv ∈ UserService.allowedFields) updateData)
  ++ [("updatedAt"%string, STime now); ("updated_at"%string, STime now)].



(** ** Example states *)

(** A world with no tables, no documents and an empty, reachable cache. *)
Definition empty_world : world :=
  mk_world 1000 None None false [] [] true ∅ true [].

(** The session issued for account 1. *)
Definition session_A : sessionData :=
  mk_sessionData (VStr (js "token-A")) (VStr (js "auth-key-A")).

(** The world after that session was cached for account 1. *)
Definition session_issued_world : world :=
  snd (cacheUserSession (VNum 1) session_A empty_world).

(** The same world once the cache has become unreachable. *)
Definition outage_world : world := set_redis_up false session_issued_world.

(** What the random sources deliver in the example registration; the
    [Math.random] draw is the least one with [Math.floor(random * 10000) = 7]. *)
Definition example_draws : draws :=
  mk_draws fips_key sp800_iv sp800_iv sp800_iv (js "$2b$12$new-hash")
    (js "uuid-2") fips_plain 6305039478319.

(** A registration with the email of an existing account. *)
Definition example_user : userData :=
  mk_userData (js "a@x.com") (js "Str0ng!Pass") (js "Alice") (js "Smith")
    None VUndefined VUndefined.

Definition user_row (id : Z) (email password_hash : jsstring) : row :=
  assign [("id"%string, SInt id); ("email"%string, SText email);
          ("password_hash"%string, SText password_hash);
          ("created_at"%string, STime 500)] ∅.


(** One account with id 7 is stored and the next MySQL call rejects. *)
Definition mysql_down_world : world :=
  mk_world 1000
    (Some (mk_table users_columns [user_row 7 (js "c@x.com") (js "$2b$12$carol")] 8))
    (Some (empty_table user_sessions_columns)) false [true] [] true ∅ true [].



(** ** The clock *)

(** The same world when the clock shows [t]. *)
Definition at_time (t : N) (w : world) : world :=
  mk_world t (w_users w) (w_user_sessions w) (w_users_referenced w)
    (w_mysql_faults w) (w_profiles w) (w_mongo_up w) (w_redis w) (w_redis_up w)
    (w_redis_log w).

(** ** [AuthService]: [login] and [logout] *)

Module AuthSessions.

Local Open Scope monad_scope.

(** [typeof v] *)
Definition typeof (v : value) : string :=
  match v with
  | VUndefined => "undefined"
  | VNull => "object"
  | VBool _ => "boolean"
  | VNum _ => "number"
  | VStr _ => "string"
  end.

(** What the driver hands back for a column value. The columns read by
    [login] are declared as integers and text; a timestamp, which would
    come back as a [Date] object, is read as its time value. *)
Definition js_of_sql (v : sqlval) : value :=
  match v with
  | SNull => VNull
  | SInt n => VNum n
  | SText s => VStr s
  | STime t => VNum (Z.of_N t)
  end.

(** [user.c] on a row of [SELECT *]: [undefined] when the table has no
    such column, [null] when the column is [NULL]. *)
Definition prop (cols : list string) (r : row) (c : string) : value :=
  if existsb (String.eqb c) cols then js_of_sql (col r c) else VUndefined.

(** [SELECT * FROM users WHERE email = ?]: the columns of the table and the
    matching rows; emails are compared exactly, as in [run_statement]. *)
Definition select_users_by_email (email : jsstring) (w : world)
  : result (list string * list row) * world :=
  match w_users w with
  | None => (Err "Table 'users' doesn't exist", w)
  | Some t =>
      if negb (known_columns t ["email"%string]) then (Err "Unknown column", w)
      else (Ok (t_columns t,
                filter (fun r => col r "email" = SText email) (t_rows t)), w)
  end.

(** [await this.mysql.execute(query, [email])], under the fault schedule of
    [mysql_execute]. *)
Definition mysql_execute_select (email : jsstring) : M (list string * list row) :=
  fun w =>
    let w' := set_mysql_faults (tl (w_mysql_faults w)) w in
    if hd false (w_mysql_faults w) then (Err "connect ECONNREFUSED", w')
    else select_users_by_email email w'.

(** The properties of the row that [login] reads. *)
Record db_user : Type := mk_db_user
  { du_id : value;
    du_password_hash : value;
    du_session_id : value;
    du_auth_key : value;
    du_encrypted : encryptedUser }.

Definition user_of_row (cols : list string) (r : row) : db_user :=
  mk_db_user (prop cols r "id") (prop cols r "password_hash")
    (prop cols r "session_id") (prop cols r "auth_key")
    (mk_encryptedUser (prop cols r "email") (prop cols r "first_name")
       (prop cols r "last_name") (prop cols r "phone")
       (prop cols r "encryption_key")).

(** [findUserInMySQL(email)]: [rows[0] || null]. *)
Definition findUserInMySQL (email : jsstring) : M (option db_user) :=
  let* res := mysql_execute_select email in
  match res with
  | (cols, r :: _) => ret (Some (user_of_row cols r))
  | (_, []) => ret None
  end.

(** [collection.findOne({ user_id: userId })]: the first document of the
    collection with that id. *)
Definition mongo_findOne (userId : value) : M (option profile_doc) :=
  fun w =>
    if w_mongo_up w
    then (Ok (List.find (fun d => match userId with
                                  | VNum n => (p_user_id d =? n)%Z
                                  | _ => false
                                  end) (w_profiles w)), w)
    else (Err "MongoNetworkError", w).

(** [getUserProfileFromMongoDB(userId)] *)
Definition getUserProfileFromMongoDB (userId : value) : M (option profile_doc) :=
  mongo_findOne userId.

(** [this.mtproto.restoreSession(sessionData)] of the mock [MTProtoAuth]. *)
Definition restoreSession (sd : sessionData) : sessionData := sd.

(** [this.mtproto.destroySession(userId)] of the mock [MTProtoAuth]. *)
Definition destroySession (userId : value) : M bool := ret true.

Section Bcrypt.

(** What [bcrypt] computes for a password and a hash of 60 characters. *)
Variable compare : jsstring -> jsstring -> bool.

(** [bcrypt.compare(s, hash)] of [bcryptjs]: arguments that are not strings
    are rejected, a hash that is not 60 characters long never matches. *)
Definition bcrypt_compare (s : jsstring) (hash : value) : M bool :=
  match hash with
  | VStr h => ret (Nat.eqb (length h) 60 && compare s h)
  | _ => throw ("Illegal arguments: string, " ++ typeof hash)
  end.

Record login_user : Type := mk_login_user
  { lu_id : value;
    lu_data : profile;
    lu_profile : option profile_doc }.

Record login_result : Type := mk_login_result
  { l_success : bool;
    l_user : login_user;
    l_sessionId : value;
    l_token : value }.

(** [login(credentials)], on an initialized service; [email] and
    [password] are [credentials.email] and [credentials.password]. *)
Definition login (email password : jsstring) : M login_result :=
  try_catch
    (let* found := findUserInMySQL email in
     match found with
     | None => throw "User not found"
     | Some user =>
         let* isValidPassword := bcrypt_compare password (du_password_hash user) in
         if negb isValidPassword then throw "Invalid credentials"
         else
           let sd := restoreSession
                       (mk_sessionData (du_session_id user) (du_auth_key user)) in
           let* decryptedUserData := decryptUserData (du_encrypted user) in
           let* _ := cacheUserSession (du_id user) sd in
           let* userProfile := getUserProfileFromMongoDB (du_id user) in
           ret (mk_login_result true
                  (mk_login_user (du_id user) decryptedUserData userProfile)
                  (session_id sd) (auth_key sd))
     end)
    (fun e => throw ("Failed to login: " ++ e)).

End Bcrypt.

Record logout_result : Type := mk_logout_result
  { lo_success : bool;
    lo_message : string }.

Definition logged_out : logout_result :=
  mk_logout_result true "Logged out successfully".

(** [logout(userId)]: the [catch] answers success as well. *)
Definition logout (userId : value) : M logout_result :=
  try_catch
    (let* _ := redis_del (session_key userId) in
     let* _ := destroySession userId in
     ret logged_out)
    (fun _ => ret logged_out).

End AuthSessions.

Import AuthSessions.

(** ** The other guards of the authentication middleware *)

Module PageGuards.

Local Open Scope monad_scope.

(** How a page guard ends: [next()] or [res.redirect(url)]. *)
Inductive page_outcome : Type :=
  | PageNext
  | Redirect (url : string).

(** [requireAuthHTML(req, res, next)] *)
Definition requireAuthHTML (s : http_session) : M (page_outcome * http_session) :=
  try_catch
    (let userId := s_userId s in
     let sessionId := s_sessionId s in
     if negb (truthy userId) || negb (truthy sessionId)
     then ret (Redirect "/login", s)
     else
       let* sessionExists := verifySession userId sessionId in
       if negb sessionExists
       then ret (Redirect "/login", destroy s)
       else ret (PageNext, s))
    (fun _ => ret (Redirect "/login", s)).

(** [requireGuest(req, res, next)] *)
Definition requireGuest (s : http_session) : page_outcome :=
  if truthy (s_userId s) then Redirect "/messages" else PageNext.

End PageGuards.

Import PageGuards.

(** ** [AuthController.login] ([src/controllers/authController.js]) *)

Module AuthController.

Local Open Scope monad_scope.

(** [s.includes(sub)] *)
Fixpoint includes (s sub : string) : bool :=
  String.prefix sub s ||
  match s with
  | EmptyString => false
  | String _ rest => includes rest sub
  end.

(** A field of the request body after the validators of the route, which
    admit strings only: absent, or a string. *)
Definition missing (f : option jsstring) : bool :=
  match f with
  | Some (_ :: _) => false
  | _ => true
  end.

Inductive login_response : Type :=
  | LoginOk (user : login_user) (sessionId : value)
  | LoginFailed (status : N) (message : string).

(** [AuthController.login(req, res)]; [errors_empty] is
    [validationResult(req).isEmpty()]. On success the account id and the
    session id of the result are put on [req.session]. *)
Definition login (compare : jsstring -> jsstring -> bool) (errors_empty : bool)
    (email password : option jsstring) (s : http_session)
  : M (login_response * http_session) :=
  try_catch
    (if negb errors_empty then ret (LoginFailed 400 "Validation failed", s)
     else if missing email || missing password
     then ret (LoginFailed 400 "Email and password are required", s)
     else
       let* result :=
         AuthSessions.login compare (default [] email) (default [] password) in
       ret (LoginOk (l_user result) (l_sessionId result),
            mk_http_session (lu_id (l_user result)) (l_sessionId result)
              (s_destroyed s)))
    (fun message =>
       if includes message "User not found" || includes message "Invalid credentials"
       then ret (LoginFailed 401 "Invalid email or password", s)
       else ret (LoginFailed 500 "Login failed", s)).

Inductive check_response : Type :=
  | Authenticated (userId sessionId : value)
  | NotAuthenticated.

(** [AuthController.checkAuth(req, res)]: 200 with the two ids of the
    session, or 401; the cached session is not consulted. *)
Definition checkAuth (s : http_session) : check_response :=
  if negb (truthy (s_userId s)) || negb (truthy (s_sessionId s))
  then NotAuthenticated
  else Authenticated (s_userId s) (s_sessionId s).

End AuthController.

(** ** [UserService.getProfile] *)

Module UserProfiles.

Local Open Scope monad_scope.

(** [UserService.getProfile(userId)] *)
Definition getProfile (userId : value) : M row :=
  try_catch
    (let* user := UserService.findById userId in
     match user with
     | None => throw "User not found"
     | Some r => ret (delete "password"%string r)
     end)
    (fun error => throw error).

End UserProfiles.

(** ** [UserRepository.delete] ([src/repositories/userRepository.js]) *)

Module UserRepository.

Local Open Scope monad_scope.

(** [UserRepository.delete(id)]:
    [UPDATE users SET is_active = 0, updated_at = NOW() WHERE id = ?]. *)
Definition delete (id : value) : M unit :=
  let* w := get_world in
  let* _ := mysql_execute
       (UpdateUserById
          [("is_active"%string, SInt 0); ("updated_at"%string, STime (w_now w))] id) in
  ret tt.

End UserRepository.

(** ** Vocabulary of the further statements *)

(** The fields [encryptUserData] produces, as a row that stores them reads. *)
Definition stored_fields (e : encryptedData) : encryptedUser :=
  mk_encryptedUser (VStr (e_email e)) (VStr (e_first_name e)) (VStr (e_last_name e))
    (match e_phone e with Some p => VStr p | None => VNull end)
    (VStr (e_encryption_key e)).


(** A computation that leaves an exhausted fault schedule exhausted. *)
Definition keeps_no_faults {A} (c : M A) : Prop :=
  forall w, w_mysql_faults w = [] -> w_mysql_faults (snd (c w)) = [].

(** The world in which [register] caches the session, when MySQL and
    MongoDB answer: one row in [users], one more profile document. *)
Definition stored_world (d : draws) (u : userData) (w w1 : world) : Prop :=
  w_mysql_faults w1 = [] /\ w_users_referenced w1 = false /\ w_mongo_up w1 = true /\
  w_users w1
  = Some (mk_table users_columns
            [inserted_row (email u) (d_password_hash d) (w_now w)] 2) /\
  w_now w1 = w_now w /\ w_redis w1 = w_redis w /\ w_redis_up w1 = w_redis_up w /\
  w_redis_log w1 = w_redis_log w /\
  w_profiles w1
  = w_profiles w ++ [mk_profile_doc 1 (gender u) (birthDate u) (d_session_id d)
                       (w_now w)].

(** The assignments of the [UPDATE] of [UserRepository.delete]. *)
Definition deactivation (now : N) : list (string * sqlval) :=
  [("is_active"%string, SInt 0); ("updated_at"%string, STime now)].

(** ** Further example states *)

(** The same world once MongoDB has become unreachable. *)
Definition mongo_outage (w : world) : world :=
  mk_world (w_now w) (w_users w) (w_user_sessions w) (w_users_referenced w)
    (w_mysql_faults w) (w_profiles w) false (w_redis w) (w_redis_up w)
    (w_redis_log w).

(** A password hash of the length [bcrypt] produces. *)
Definition example_hash : jsstring :=
  js "$2b$12$abcdefghijklmnopqrstuuABCDEFGHIJKLMNOPQRSTUVWXYZ01234".

(** The draws of a registration whose password hash is [example_hash]. *)
Definition login_draws : draws :=
  mk_draws fips_key sp800_iv sp800_iv sp800_iv example_hash
    (js "uuid-1") fips_plain 6305039478319.

(** [bcrypt] accepts the password of [example_user] for [example_hash] and
    nothing else. *)
Definition example_compare (s h : jsstring) : bool :=
  bool_decide (s = js "Str0ng!Pass") && bool_decide (h = example_hash).

(** A second registration, by another person; the [Math.random] draw is 0. *)
Definition second_user : userData :=
  mk_userData (js "b@x.com") (js "An0ther!Pass") (js "Bob") (js "Jones")
    (Some (js "+15550100")) VUndefined VUndefined.

Definition second_draws : draws :=
  mk_draws sp800_key sp800_iv sp800_iv sp800_iv example_hash
    (js "uuid-2") fips_plain 0.

(** Two accounts are stored and MongoDB is unreachable. *)
Definition mongo_down_world : world :=
  mk_world 1000
    (Some (mk_table users_columns
             [user_row 1 (js "a@x.com") (js "$2b$12$old-hash");
              user_row 2 (js "b@x.com") (js "$2b$12$bob-hash")] 3))
    (Some (empty_table user_sessions_columns)) false [] [] false ∅ true [].

(** One account is stored, with a password hash of full length. *)
Definition stored_account_world : world :=
  mk_world 1000
    (Some (mk_table users_columns [inserted_row (js "a@x.com") example_hash 1000] 2))
    (Some (empty_table user_sessions_columns)) false [] [] true ∅ true [].



(** A row that holds every field of an account: the names as
    [aesIGE.encrypt] writes ["Alice"] under [fips_key] with the IV
    [sp800_iv]. *)
Definition complete_row : row :=
  assign [("session_id"%string, SText (js "token-D"));
          ("auth_key"%string, SText (js "auth-key-D"));
          ("encryption_key"%string, SText (hex_encode fips_key));
          ("first_name"%string,
           SText (hex_encode sp800_iv
                  ++ js ":19fd37b06ff1f1520ff984639d7267d9"));
          ("last_name"%string,
           SText (hex_encode sp800_iv
                  ++ js ":19fd37b06ff1f1520ff984639d7267d9"))]
    (inserted_row (js "d@x.com") example_hash 900).

Definition complete_account_world : world :=
  mk_world 1000 (Some (mk_table users_columns [complete_row] 2))
    (Some (empty_table user_sessions_columns)) false [] [] true ∅ true [].

(** A [users] table with the columns [UserRepository] names, holding one
    active account. *)
Definition repository_world : world :=
  mk_world 2000
    (Some (mk_table
             (UserService.findById_columns ++ ["password_hash"; "updated_at"]%string)
             [assign [("username"%string, SText (js "alice"));
                      ("is_active"%string, SInt 1)]
                (user_row 1 (js "a@x.com") (js "$2b$12$old-hash"))] 2))
    None false [] [] true ∅ true [].
(** * Properties *)

(** ** Known-answer tests *)

Example aes256_fips197_c3 : AES.encrypt_block fips_key fips_plain = fips_cipher.
Proof. vm_compute. reflexivity. Qed.

Example aes256_fips197_c3_inv : AES.decrypt_block fips_key fips_cipher = fips_plain.
Proof. vm_compute. reflexivity. Qed.

Example sbox_samples : AES.sbox x00 = x63 /\ AES.sbox x01 = x7c /\ AES.sbox x53 = xed.
Proof. vm_compute. auto. Qed.

Example utf8_samples :
  utf8_encode (js "Az") = [x41; x7a] /\
  utf8_encode [0xE9] = [xc3; xa9] /\
  utf8_encode [0x20AC] = [xe2; x82; xac] /\
  utf8_encode [0xD83D; 0xDE00] = [xf0; x9f; x98; x80] /\
  utf8_encode [0xD800] = [xef; xbf; xbd] /\
  utf8_decode [xf0; x9f; x98; x80] = [0xD83D; 0xDE00] /\
  utf8_decode [xe2; x82] = [0xFFFD] /\
  utf8_decode [xc0; x80] = [0xFFFD; 0xFFFD] /\
  utf8_decode [xed; xa0; x80] = [0xFFFD; 0xFFFD; 0xFFFD] /\
  hex_encode [x00; x1f; xab] = js "001fab" /\
  hex_decode (js "001FaBzz12") = [x00; x1f; xab].
Proof. vm_compute. repeat split. Qed.

Example cbc_aes256_sp800_38a :
  cbc_encrypt (AES.encrypt_block sp800_key) 1 sp800_iv sp800_plain =
  [xf5; x8c; x4c; x04; xd6; xe5; xf1; xba; x77; x9e; xab; xfb; x5f; x7b; xfb; xd6].
Proof. vm_compute. reflexivity. Qed.

Example aesIGE_sample :
  match aesIGE_encrypt sp800_iv (js "Alice") fips_key with
  | Ok c => aesIGE_decrypt c fips_key = Ok (js "Alice") /\ length c = 65%nat
  | Err _ => False
  end.
Proof. vm_compute. split; reflexivity. Qed.

(** ** Facts about bytes and XOR *)

Section ByteFacts.

Lemma to_N_lt (b : byte) : Byte.to_N b < 256.
Proof. pose proof (Byte.to_N_bounded b). lia. Qed.

Lemma to_N_byte_of_N (n : N) : n < 256 -> Byte.to_N (byte_of_N n) = n.
Proof.
  intros Hn. unfold byte_of_N.
  destruct (Byte.of_N n) as [b|] eqn:E.
  - apply Byte.to_of_N. exact E.
  - apply Byte.of_N_None_iff in E. lia.
Qed.

Lemma byte_of_N_to_N (b : byte) : byte_of_N (Byte.to_N b) = b.
Proof.
  unfold byte_of_N. rewrite Byte.of_to_N. reflexivity.
Qed.

Lemma to_N_inj (a b : byte) : Byte.to_N a = Byte.to_N b -> a = b.
Proof.
  intros H. rewrite <- (byte_of_N_to_N a), <- (byte_of_N_to_N b), H. reflexivity.
Qed.

Lemma lxor_lt_256 (m n : N) : m < 256 -> n < 256 -> N.lxor m n < 256.
Proof.
  intros Hm Hn.
  destruct (N.eq_dec (N.lxor m n) 0) as [->|Hz]; [lia|].
  apply N.log2_lt_pow2 with (b := 8); [lia|].
  eapply N.le_lt_trans; [apply N.log2_lxor|].
  apply N.max_lub_lt.
  - destruct (N.eq_dec m 0) as [->|]; [reflexivity|].
    apply N.log2_lt_pow2; [lia|exact Hm].
  - destruct (N.eq_dec n 0) as [->|]; [reflexivity|].
    apply N.log2_lt_pow2; [lia|exact Hn].
Qed.

Lemma to_N_bxor (a b : byte) :
  Byte.to_N (bxor a b) = N.lxor (Byte.to_N a) (Byte.to_N b).
Proof. apply to_N_byte_of_N, lxor_lt_256; apply to_N_lt. Qed.

Lemma bxor_comm (a b : byte) : bxor a b = bxor b a.
Proof. apply to_N_inj. rewrite !to_N_bxor. apply N.lxor_comm. Qed.

Lemma bxor_assoc (a b c : byte) : bxor a (bxor b c) = bxor (bxor a b) c.
Proof. apply to_N_inj. rewrite !to_N_bxor. symmetry. apply N.lxor_assoc. Qed.

Lemma bxor_nilpotent (a : byte) : bxor a a = x00.
Proof. apply to_N_inj. rewrite to_N_bxor. apply N.lxor_nilpotent. Qed.

Lemma bxor_0_r (a : byte) : bxor a x00 = a.
Proof. apply to_N_inj. rewrite to_N_bxor. apply N.lxor_0_r. Qed.

Lemma bxor_0_l (a : byte) : bxor x00 a = a.
Proof. rewrite bxor_comm. apply bxor_0_r. Qed.

Lemma bxor_cancel_r (a b : byte) : bxor (bxor a b) b = a.
Proof. rewrite <- bxor_assoc, bxor_nilpotent. apply bxor_0_r. Qed.

Lemma bxor_eq_0 (a b : byte) : bxor a b = x00 -> a = b.
Proof.
  intros H. apply to_N_inj. apply N.lxor_eq.
  rewrite <- to_N_bxor, H. reflexivity.
Qed.

Lemma length_xor_bytes (a m : list byte) : length (xor_bytes a m) = length a.
Proof.
  revert m. induction a as [|x a IH]; intros m; simpl; [reflexivity|].
  rewrite IH. reflexivity.
Qed.

Lemma xor_bytes_involutive (a m : list byte) : xor_bytes (xor_bytes a m) m = a.
Proof.
  revert m. induction a as [|x a IH]; intros m; simpl; [reflexivity|].
  rewrite bxor_cancel_r, IH. reflexivity.
Qed.

(** Every byte occurs in the enumeration, so a property of all bytes can
    be decided by running it over [AES.all_bytes]. *)
Lemma all_bytes_nth (b : byte) : nth (Byte.to_nat b) AES.all_bytes x00 = b.
Proof. destruct b; reflexivity. Qed.

Lemma In_all_bytes (b : byte) : In b AES.all_bytes.
Proof.
  rewrite <- (all_bytes_nth b). apply nth_In.
  pose proof (Byte.to_nat_bounded b). change (length AES.all_bytes) with 256%nat. lia.
Qed.

Lemma byte_forall (f g : byte -> byte) :
  forallb (fun b => Byte.eqb (f b) (g b)) AES.all_bytes = true ->
  forall b, f b = g b.
Proof.
  intros H b. rewrite forallb_forall in H.
  apply Byte.byte_dec_bl, H, In_all_bytes.
Qed.

Lemma byte_forall2 (f g : byte -> byte -> byte) :
  forallb (fun a => forallb (fun b => Byte.eqb (f a b) (g a b)) AES.all_bytes)
    AES.all_bytes = true ->
  forall a b, f a b = g a b.
Proof.
  intros H a b. rewrite forallb_forall in H.
  specialize (H a (In_all_bytes a)). rewrite forallb_forall in H.
  apply Byte.byte_dec_bl, H, In_all_bytes.
Qed.

End ByteFacts.

Ltac by_bytes :=
  match goal with
  | |- forall a : byte, @?F a = @?G a =>
      apply (byte_forall F G); vm_compute; reflexivity
  | |- forall a b : byte, @?F a b = @?G a b =>
      apply (byte_forall2 F G); vm_compute; reflexivity
  end.

(** ** AES: the inverse cipher undoes the cipher *)

Module AESFacts.
Import AES.

Lemma inv_sbox_sbox : forall a : byte, inv_sbox (sbox a) = a.
Proof. by_bytes. Qed.

Lemma xtime_bxor : forall a b : byte, xtime (bxor a b) = bxor (xtime a) (xtime b).
Proof. by_bytes. Qed.

Lemma bxor_swap_inner (a b c d : byte) :
  bxor (bxor a b) (bxor c d) = bxor (bxor a c) (bxor b d).
Proof.
  rewrite <- !bxor_assoc. f_equal.
  rewrite !bxor_assoc. f_equal. apply bxor_comm.
Qed.

Lemma gmul_bits_bxor (i : nat) (k : N) (a b : byte) :
  gmul_bits i k (bxor a b) = bxor (gmul_bits i k a) (gmul_bits i k b).
Proof.
  revert k a b. induction i as [|i IH]; intros k a b; simpl.
  - symmetry. apply bxor_nilpotent.
  - rewrite xtime_bxor, IH, bxor_swap_inner.
    destruct (N.odd k); [reflexivity|].
    rewrite bxor_nilpotent. reflexivity.
Qed.

Lemma gmul_bxor (k : N) (a b : byte) :
  gmul k (bxor a b) = bxor (gmul k a) (gmul k b).
Proof. apply gmul_bits_bxor. Qed.

(** Regrouping a 4-by-4 XOR sum by columns instead of rows. *)
Lemma bxor_transpose (a1 a2 a3 a4 b1 b2 b3 b4 c1 c2 c3 c4 d1 d2 d3 d4 : byte) :
  bxor (bxor a1 (bxor a2 (bxor a3 a4)))
    (bxor (bxor b1 (bxor b2 (bxor b3 b4)))
      (bxor (bxor c1 (bxor c2 (bxor c3 c4)))
            (bxor d1 (bxor d2 (bxor d3 d4))))) =
  bxor (bxor a1 (bxor b1 (bxor c1 d1)))
    (bxor (bxor a2 (bxor b2 (bxor c2 d2)))
      (bxor (bxor a3 (bxor b3 (bxor c3 d3)))
            (bxor a4 (bxor b4 (bxor c4 d4))))).
Proof.
  apply to_N_inj. rewrite !to_N_bxor.
  apply N.bits_inj. intros n. rewrite !N.lxor_spec. btauto.
Qed.

Lemma gmul_1 : forall a : byte, gmul 1 a = a.
Proof. by_bytes. Qed.

Lemma inv_mix_column_mix_column (w : word) : inv_mix_column (mix_column w) = w.
Proof.
  destruct w as [[[a b] c] d]. unfold mix_column, inv_mix_column.
  rewrite !gmul_bxor.
  assert (Ha0 : forall a, bxor (gmul 14 (gmul 2 a)) (bxor (gmul 11 a) (bxor (gmul 13 a) (gmul 9 (gmul 3 a)))) = a) by by_bytes.
  assert (Hb0 : forall a, bxor (gmul 14 (gmul 3 a)) (bxor (gmul 11 (gmul 2 a)) (bxor (gmul 13 a) (gmul 9 a))) = x00) by by_bytes.
  assert (Hc0 : forall a, bxor (gmul 14 a) (bxor (gmul 11 (gmul 3 a)) (bxor (gmul 13 (gmul 2 a)) (gmul 9 a))) = x00) by by_bytes.
  assert (Hd0 : forall a, bxor (gmul 14 a) (bxor (gmul 11 a) (bxor (gmul 13 (gmul 3 a)) (gmul 9 (gmul 2 a)))) = x00) by by_bytes.
  assert (Ha1 : forall a, bxor (gmul 9 (gmul 2 a)) (bxor (gmul 14 a) (bxor (gmul 11 a) (gmul 13 (gmul 3 a)))) = x00) by by_bytes.
  assert (Hb1 : forall a, bxor (gmul 9 (gmul 3 a)) (bxor (gmul 14 (gmul 2 a)) (bxor (gmul 11 a) (gmul 13 a))) = a) by by_bytes.
  assert (Hc1 : forall a, bxor (gmul 9 a) (bxor (gmul 14 (gmul 3 a)) (bxor (gmul 11 (gmul 2 a)) (gmul 13 a))) = x00) by by_bytes.
  assert (Hd1 : forall a, bxor (gmul 9 a) (bxor (gmul 14 a) (bxor (gmul 11 (gmul 3 a)) (gmul 13 (gmul 2 a)))) = x00) by by_bytes.
  assert (Ha2 : forall a, bxor (gmul 13 (gmul 2 a)) (bxor (gmul 9 a) (bxor (gmul 14 a) (gmul 11 (gmul 3 a)))) = x00) by by_bytes.
  assert (Hb2 : forall a, bxor (gmul 13 (gmul 3 a)) (bxor (gmul 9 (gmul 2 a)) (bxor (gmul 14 a) (gmul 11 a))) = x00) by by_bytes.
  assert (Hc2 : forall a, bxor (gmul 13 a) (bxor (gmul 9 (gmul 3 a)) (bxor (gmul 14 (gmul 2 a)) (gmul 11 a))) = a) by by_bytes.
  assert (Hd2 : forall a, bxor (gmul 13 a) (bxor (gmul 9 a) (bxor (gmul 14 (gmul 3 a)) (gmul 11 (gmul 2 a)))) = x00) by by_bytes.
  assert (Ha3 : forall a, bxor (gmul 11 (gmul 2 a)) (bxor (gmul 13 a) (bxor (gmul 9 a) (gmul 14 (gmul 3 a)))) = x00) by by_bytes.
  assert (Hb3 : forall a, bxor (gmul 11 (gmul 3 a)) (bxor (gmul 13 (gmul 2 a)) (bxor (gmul 9 a) (gmul 14 a))) = x00) by by_bytes.
  assert (Hc3 : forall a, bxor (gmul 11 a) (bxor (gmul 13 (gmul 3 a)) (bxor (gmul 9 (gmul 2 a)) (gmul 14 a))) = x00) by by_bytes.
  assert (Hd3 : forall a, bxor (gmul 11 a) (bxor (gmul 13 a) (bxor (gmul 9 (gmul 3 a)) (gmul 14 (gmul 2 a)))) = a) by by_bytes.
  f_equal; [f_equal; [f_equal|]|]; rewrite bxor_transpose.
  - rewrite Ha0, Hb0, Hc0, Hd0, ?bxor_0_r, ?bxor_0_l. reflexivity.
  - rewrite Ha1, Hb1, Hc1, Hd1, ?bxor_0_r, ?bxor_0_l. reflexivity.
  - rewrite Ha2, Hb2, Hc2, Hd2, ?bxor_0_r, ?bxor_0_l. reflexivity.
  - rewrite Ha3, Hb3, Hc3, Hd3, ?bxor_0_r, ?bxor_0_l. reflexivity.
Qed.

Lemma words_of_bytes_concat (ws : list word) :
  words_of_bytes (concat (map bytes_of_word ws)) = ws.
Proof.
  induction ws as [|[[[a b] c] d] ws IH]; simpl; [reflexivity|].
  rewrite IH. reflexivity.
Qed.

Lemma block_as_words (st : list byte) :
  length st = 16%nat ->
  exists w0 w1 w2 w3 : word, st = concat (map bytes_of_word [w0; w1; w2; w3]).
Proof.
  intros H.
  do 16 (destruct st as [|? st]; [discriminate H|]).
  destruct st; [|discriminate H].
  eexists (_, _, _, _), (_, _, _, _), (_, _, _, _), (_, _, _, _). reflexivity.
Qed.

Lemma inv_mix_columns_mix_columns (st : list byte) :
  length st = 16%nat -> inv_mix_columns (mix_columns st) = st.
Proof.
  intros H. destruct (block_as_words st H) as (w0 & w1 & w2 & w3 & ->).
  unfold inv_mix_columns, mix_columns.
  rewrite words_of_bytes_concat.
  rewrite <- (List.map_map mix_column bytes_of_word).
  rewrite words_of_bytes_concat.
  rewrite <- (List.map_map inv_mix_column bytes_of_word).
  rewrite List.map_map. simpl.
  rewrite !inv_mix_column_mix_column. reflexivity.
Qed.

Lemma length_mix_columns (st : list byte) :
  length st = 16%nat -> length (mix_columns st) = 16%nat.
Proof.
  intros H. destruct (block_as_words st H) as (w0 & w1 & w2 & w3 & ->).
  unfold mix_columns. rewrite words_of_bytes_concat.
  destruct w0 as [[[? ?] ?] ?], w1 as [[[? ?] ?] ?],
           w2 as [[[? ?] ?] ?], w3 as [[[? ?] ?] ?].
  reflexivity.
Qed.

Lemma length_shift_rows (st : list byte) : length (shift_rows st) = length st.
Proof.
  do 16 (destruct st as [|? st]; [reflexivity|]).
  destruct st; reflexivity.
Qed.

Lemma inv_shift_rows_shift_rows (st : list byte) :
  inv_shift_rows (shift_rows st) = st.
Proof.
  do 16 (destruct st as [|? st]; [reflexivity|]).
  destruct st; reflexivity.
Qed.

Lemma inv_sub_bytes_sub_bytes (st : list byte) : inv_sub_bytes (sub_bytes st) = st.
Proof.
  unfold inv_sub_bytes, sub_bytes. rewrite List.map_map.
  induction st as [|a st IH]; simpl; [reflexivity|].
  rewrite inv_sbox_sbox, IH. reflexivity.
Qed.

Lemma length_sub_bytes (st : list byte) : length (sub_bytes st) = length st.
Proof. apply List.length_map. Qed.

Lemma add_round_key_involutive (rk st : list byte) :
  add_round_key rk (add_round_key rk st) = st.
Proof. apply xor_bytes_involutive. Qed.

Lemma length_add_round_key (rk st : list byte) :
  length (add_round_key rk st) = length st.
Proof. apply length_xor_bytes. Qed.

Lemma length_round (st rk : list byte) :
  length st = 16%nat -> length (round st rk) = 16%nat.
Proof.
  intros H. unfold round.
  rewrite length_add_round_key. apply length_mix_columns.
  rewrite length_shift_rows, length_sub_bytes. exact H.
Qed.

Lemma inv_round_round (st rk : list byte) :
  length st = 16%nat -> inv_round rk (round st rk) = st.
Proof.
  intros H. unfold inv_round, round.
  rewrite add_round_key_involutive.
  rewrite inv_mix_columns_mix_columns
    by (rewrite length_shift_rows, length_sub_bytes; exact H).
  rewrite inv_shift_rows_shift_rows. apply inv_sub_bytes_sub_bytes.
Qed.

Lemma length_fold_round (mid : list (list byte)) (st : list byte) :
  length st = 16%nat -> length (fold_left round mid st) = 16%nat.
Proof.
  revert st. induction mid as [|rk mid IH]; intros st H; simpl; [exact H|].
  apply IH, length_round, H.
Qed.

Lemma inv_rounds_rounds (mid : list (list byte)) (st : list byte) :
  length st = 16%nat ->
  fold_right inv_round (fold_left round mid st) mid = st.
Proof.
  revert st. induction mid as [|rk mid IH]; intros st H; simpl; [reflexivity|].
  rewrite IH by (apply length_round, H).
  apply inv_round_round, H.
Qed.

Lemma inv_final_round_final_round (rk st : list byte) :
  inv_final_round rk (final_round rk st) = st.
Proof.
  unfold inv_final_round, final_round.
  rewrite add_round_key_involutive, inv_shift_rows_shift_rows.
  apply inv_sub_bytes_sub_bytes.
Qed.

Lemma inv_cipher_cipher (rks : list (list byte)) (blk : list byte) :
  length blk = 16%nat -> inv_cipher rks (cipher rks blk) = blk.
Proof.
  intros H. destruct rks as [|rk0 rest]; simpl; [reflexivity|].
  rewrite inv_final_round_final_round.
  rewrite inv_rounds_rounds by (rewrite length_add_round_key; exact H).
  apply add_round_key_involutive.
Qed.

Lemma length_cipher (rks : list (list byte)) (blk : list byte) :
  length blk = 16%nat -> length (cipher rks blk) = 16%nat.
Proof.
  intros H. destruct rks as [|rk0 rest]; simpl; [exact H|].
  unfold final_round.
  rewrite length_add_round_key, length_shift_rows, length_sub_bytes.
  apply length_fold_round. rewrite length_add_round_key. exact H.
Qed.

(** AES decryption inverts AES encryption, for every key. *)
Lemma decrypt_block_encrypt_block (key blk : list byte) :
  length blk = 16%nat -> decrypt_block key (encrypt_block key blk) = blk.
Proof. apply inv_cipher_cipher. Qed.

Lemma length_encrypt_block (key blk : list byte) :
  length blk = 16%nat -> length (encrypt_block key blk) = 16%nat.
Proof. apply length_cipher. Qed.

End AESFacts.

(** ** Facts about the encodings and the mode *)

Module CipherFacts.

Local Open Scope nat_scope.

Lemma firstn_app_exact {A} (n : nat) (a b : list A) :
  length a = n -> firstn n (a ++ b) = a.
Proof.
  intros <-. induction a as [|x a IH]; simpl.
  - destruct b; reflexivity.
  - rewrite IH. reflexivity.
Qed.

Lemma skipn_app_exact {A} (n : nat) (a b : list A) :
  length a = n -> skipn n (a ++ b) = b.
Proof. intros <-. induction a as [|x a IH]; simpl; auto. Qed.

(** *** hex *)

Lemma hex_pair_decodes (b : byte) (rest : jsstring) :
  hex_decode (hex_digit (Byte.to_N b / 16) :: hex_digit (Byte.to_N b mod 16) :: rest)
  = b :: hex_decode rest.
Proof. destruct b; reflexivity. Qed.

Lemma hex_decode_encode_app (bs : list byte) (rest : jsstring) :
  hex_decode (hex_encode bs ++ rest) = bs ++ hex_decode rest.
Proof.
  induction bs as [|b bs IH]; [reflexivity|].
  change (hex_encode (b :: bs) ++ rest)
    with (hex_digit (Byte.to_N b / 16) :: hex_digit (Byte.to_N b mod 16)
            :: (hex_encode bs ++ rest)).
  rewrite hex_pair_decodes, IH. reflexivity.
Qed.

Lemma hex_decode_encode (bs : list byte) : hex_decode (hex_encode bs) = bs.
Proof.
  rewrite <- (app_nil_r (hex_encode bs)), hex_decode_encode_app.
  apply app_nil_r.
Qed.

Lemma hex_encode_inj (a b : list byte) : hex_encode a = hex_encode b -> a = b.
Proof.
  intros H. rewrite <- (hex_decode_encode a), <- (hex_decode_encode b), H.
  reflexivity.
Qed.

Lemma length_hex_encode (bs : list byte) : length (hex_encode bs) = 2 * length bs.
Proof. induction bs as [|b bs IH]; simpl in *; lia. Qed.

Lemma hex_digits_not_colon (b : byte) :
  (hex_digit (Byte.to_N b / 16) =? colon)%N = false /\
  (hex_digit (Byte.to_N b mod 16) =? colon)%N = false.
Proof. destruct b; split; reflexivity. Qed.

Lemma split_first_colon_hex (bs : list byte) (rest : jsstring) :
  split_first_colon (hex_encode bs ++ colon :: rest) = (hex_encode bs, rest).
Proof.
  induction bs as [|b bs IH]; [reflexivity|].
  change (hex_encode (b :: bs))
    with (hex_digit (Byte.to_N b / 16) :: hex_digit (Byte.to_N b mod 16)
            :: hex_encode bs).
  destruct (hex_digits_not_colon b) as [H1 H2].
  cbn [app split_first_colon]. rewrite H1, H2, IH. reflexivity.
Qed.

(** *** PKCS#7 *)

Lemma pad_length_range (len : nat) : 1 <= pad_length len <= 16.
Proof.
  unfold pad_length. pose proof (Nat.mod_upper_bound len 16). lia.
Qed.

Lemma length_pkcs7_pad (data : list byte) :
  length (pkcs7_pad data) = 16 * (length data / 16 + 1).
Proof.
  unfold pkcs7_pad, pad_length. rewrite length_app, repeat_length.
  pose proof (Nat.div_mod_eq (length data) 16).
  pose proof (Nat.mod_upper_bound (length data) 16). lia.
Qed.

Lemma to_nat_byte_of_N_small (p : nat) :
  p <= 255 -> Byte.to_nat (byte_of_N (N.of_nat p)) = p.
Proof.
  intros H. rewrite Byte.to_nat_via_N, to_N_byte_of_N by lia. lia.
Qed.

Lemma last_app_repeat {A} (l : list A) (x d : A) (p : nat) :
  1 <= p -> List.last (l ++ repeat x p) d = x.
Proof.
  intros Hp. destruct p as [|p]; [lia|].
  replace (repeat x (S p)) with (repeat x p ++ [x]).
  - rewrite app_assoc. apply List.last_last.
  - clear. induction p as [|p IH]; simpl; [reflexivity|].
    simpl in IH. rewrite IH. reflexivity.
Qed.

Lemma pkcs7_unpad_pad (data : list byte) : pkcs7_unpad (pkcs7_pad data) = Some data.
Proof.
  pose proof (pad_length_range (length data)) as Hp.
  unfold pkcs7_unpad, pkcs7_pad.
  set (p := pad_length (length data)) in *.
  rewrite last_app_repeat by lia.
  rewrite to_nat_byte_of_N_small by lia.
  replace (Nat.eqb p 0 || Nat.ltb 16 p) with false.
  2:{ symmetry. apply orb_false_intro; [apply Nat.eqb_neq|apply Nat.ltb_ge]; lia. }
  rewrite length_app, repeat_length.
  replace (length data + p - p) with (length data) by lia.
  rewrite skipn_app_exact, firstn_app_exact by reflexivity.
  replace (forallb _ _) with true; [reflexivity|].
  symmetry. apply forallb_forall. intros b Hb.
  apply repeat_spec in Hb. subst b.
  rewrite to_nat_byte_of_N_small by lia. apply Nat.eqb_refl.
Qed.

(** *** CBC *)

Section BlockModeFacts.

Variables E D : list byte -> list byte.
Hypothesis D_E : forall b, length b = 16 -> D (E b) = b.
Hypothesis length_E : forall b, length b = 16 -> length (E b) = 16.

Lemma length_cbc_encrypt (n : nat) (prev data : list byte) :
  length data = 16 * n -> length (cbc_encrypt E n prev data) = 16 * n.
Proof.
  revert prev data. induction n as [|n IH]; intros prev data Hd; simpl; [reflexivity|].
  rewrite length_app, IH by (rewrite length_skipn; lia).
  rewrite length_E; [lia|].
  rewrite length_xor_bytes, length_firstn. lia.
Qed.

Lemma cbc_decrypt_encrypt (n : nat) (prev data : list byte) :
  length data = 16 * n ->
  cbc_decrypt D n prev (cbc_encrypt E n prev data) = data.
Proof.
  revert prev data. induction n as [|n IH]; intros prev data Hd; simpl.
  - destruct data; [reflexivity|discriminate Hd].
  - assert (Hx : length (xor_bytes (firstn 16 data) prev) = 16)
      by (rewrite length_xor_bytes, length_firstn; lia).
    rewrite firstn_app_exact, skipn_app_exact by (apply length_E, Hx).
    rewrite D_E by exact Hx.
    rewrite xor_bytes_involutive.
    rewrite IH by (rewrite length_skipn; lia).
    apply firstn_skipn.
Qed.

End BlockModeFacts.

Lemma aes_256_cbc_decrypt_encrypt (key iv data : list byte) :
  length iv = 16 -> length key = 32 ->
  exists ct, aes_256_cbc_encrypt key iv data = Ok ct /\
             aes_256_cbc_decrypt key iv ct = Ok data.
Proof.
  intros Hiv Hkey. unfold aes_256_cbc_encrypt, aes_256_cbc_decrypt.
  rewrite Hiv, Hkey.
  change (Nat.eqb 16 16) with true. change (Nat.eqb 32 32) with true.
  cbv beta iota zeta delta [negb].
  pose proof (length_pkcs7_pad data) as Hlen.
  set (n := length data / 16 + 1) in *.
  assert (Hn : length (pkcs7_pad data) / 16 = n).
  { rewrite Hlen, Nat.mul_comm. apply Nat.div_mul. lia. }
  rewrite Hn. eexists. split; [reflexivity|].
  rewrite (length_cbc_encrypt _ (AESFacts.length_encrypt_block key)) by exact Hlen.
  replace (16 * n / 16) with n by (rewrite Nat.mul_comm, Nat.div_mul; lia).
  replace (16 * n mod 16) with 0 by (rewrite Nat.mul_comm, Nat.Div0.mod_mul; lia).
  replace (Nat.eqb (16 * n) 0) with false
    by (symmetry; apply Nat.eqb_neq; unfold n; lia).
  change (Nat.eqb 0 0) with true. cbv beta iota delta [negb orb].
  rewrite (cbc_decrypt_encrypt _ _ (AESFacts.decrypt_block_encrypt_block key)
             (AESFacts.length_encrypt_block key)) by exact Hlen.
  rewrite pkcs7_unpad_pad. reflexivity.
Qed.

End CipherFacts.

(** *** UTF-8 *)

Module Utf8Facts.

Ltac split_conds :=
  repeat first
    [ progress cbn [u_rem u_acc u_lower u_upper andb orb negb app]
    | match goal with
      | |- context [(?a =? ?b)%N] => destruct (N.eqb_spec a b); try lia
      | |- context [(?a <=? ?b)%N] => destruct (N.leb_spec a b); try lia
      | |- context [(?a <? ?b)%N] => destruct (N.ltb_spec a b); try lia
      end ].

Lemma not_surrogate (c : N) :
  is_high_surrogate c = false -> is_low_surrogate c = false ->
  c < 0xD800 \/ 0xDFFF < c.
Proof.
  unfold is_high_surrogate, is_low_surrogate. intros Hh Hl.
  revert Hh Hl. split_conds; intros; try discriminate; lia.
Qed.

(** Decoding the bytes of one scalar value yields that value and leaves
    the decoder in its initial state. *)
Lemma utf8_run_code_point (cp : N) (rest : list byte) :
  cp < 0x110000 ->
  is_high_surrogate cp = false -> is_low_surrogate cp = false ->
  utf8_run utf8_init (utf8_of_code_point cp ++ rest) =
  (cp :: fst (utf8_run utf8_init rest), snd (utf8_run utf8_init rest)).
Proof.
  intros Hlt Hh Hl. destruct (not_surrogate cp Hh Hl) as [Hs|Hs].
  all: pose proof (N.div_mod cp 64 ltac:(lia)) as E1;
       pose proof (N.mod_lt cp 64 ltac:(lia)) as B1;
       pose proof (N.div_mod (cp / 64) 64 ltac:(lia)) as E2;
       pose proof (N.mod_lt (cp / 64) 64 ltac:(lia)) as B2;
       pose proof (N.div_mod (cp / 64 / 64) 64 ltac:(lia)) as E3;
       pose proof (N.mod_lt (cp / 64 / 64) 64 ltac:(lia)) as B3;
       revert E1 B1 E2 B2 E3 B3; unfold utf8_of_code_point;
       generalize (cp mod 64) as r1; generalize ((cp / 64) mod 64) as r2;
       generalize ((cp / 64 / 64) mod 64) as r3;
       generalize (cp / 64 / 64 / 64) as q3; generalize (cp / 64 / 64) as q2;
       generalize (cp / 64) as q1; intros q1 q2 q3 r3 r2 r1 E1 B1 E2 B2 E3 B3;
       destruct (utf8_run utf8_init rest) as [o s] eqn:Er;
       split_conds; cbn [app utf8_run];
       rewrite ?to_N_byte_of_N by lia;
       unfold utf8_step, utf8_lead, utf8_init; split_conds;
       rewrite ?to_N_byte_of_N by lia; split_conds;
       fold utf8_init; rewrite ?Er; cbn [app fst snd];
       repeat f_equal; lia.
Qed.

Lemma utf16_of_surrogate_pair (c d : N) :
  is_high_surrogate c = true -> is_low_surrogate d = true ->
  utf16_of_code_point (surrogate_pair_code_point c d) = [c; d].
Proof.
  unfold is_high_surrogate, is_low_surrogate, utf16_of_code_point,
    surrogate_pair_code_point.
  intros Hc Hd.
  apply andb_true_iff in Hc as [Hc1 Hc2]. apply andb_true_iff in Hd as [Hd1 Hd2].
  apply N.leb_le in Hc1, Hc2, Hd1, Hd2.
  destruct (N.ltb_spec (65536 + (c - 55296) * 1024 + (d - 56320)) 65536); [lia|].
  replace (65536 + (c - 55296) * 1024 + (d - 56320) - 65536)
    with (1024 * (c - 55296) + (d - 56320)) by lia.
  rewrite <- (N.div_unique (1024 * (c - 55296) + (d - 56320)) 1024 (c - 55296)
                (d - 56320)) by lia.
  rewrite <- (N.mod_unique (1024 * (c - 55296) + (d - 56320)) 1024 (c - 55296)
                (d - 56320)) by lia.
  f_equal; [|f_equal]; lia.
Qed.

Lemma surrogate_pair_is_scalar (c d : N) :
  is_high_surrogate c = true -> is_low_surrogate d = true ->
  surrogate_pair_code_point c d < 0x110000 /\
  is_high_surrogate (surrogate_pair_code_point c d) = false /\
  is_low_surrogate (surrogate_pair_code_point c d) = false.
Proof.
  unfold is_high_surrogate, is_low_surrogate, surrogate_pair_code_point.
  intros Hc Hd.
  apply andb_true_iff in Hc as [Hc1 Hc2]. apply andb_true_iff in Hd as [Hd1 Hd2].
  apply N.leb_le in Hc1, Hc2, Hd1, Hd2.
  repeat split; [lia| |]; apply andb_false_iff; right; apply N.leb_gt; lia.
Qed.

Lemma utf8_run_encode_bounded (n : nat) (s : jsstring) :
  (length s <= n)%nat -> well_formed s = true ->
  exists cps, utf8_run utf8_init (utf8_encode s) = (cps, utf8_init) /\
              flat_map utf16_of_code_point cps = s.
Proof.
  revert s. induction n as [|n IH]; intros s Hn Hwf.
  - destruct s; [|simpl in Hn; lia]. exists []. split; reflexivity.
  - destruct s as [|c rest]; [exists []; split; reflexivity|].
    cbn [well_formed utf8_encode] in *.
    destruct (is_high_surrogate c) eqn:Hh.
    + destruct rest as [|d rest']; [discriminate Hwf|].
      apply andb_true_iff in Hwf as [Hd Hwf]. rewrite Hd.
      destruct (IH rest') as (cps & Hrun & Hflat); [simpl in *; lia|exact Hwf|].
      destruct (surrogate_pair_is_scalar c d Hh Hd) as (Hlt & Hh' & Hl').
      exists (surrogate_pair_code_point c d :: cps). split.
      * rewrite utf8_run_code_point, Hrun by assumption. reflexivity.
      * cbn [flat_map]. rewrite utf16_of_surrogate_pair, Hflat by assumption.
        reflexivity.
    + apply andb_true_iff in Hwf as [Hwf Hrest].
      apply andb_true_iff in Hwf as [Hl Hlt].
      apply negb_true_iff in Hl. apply N.ltb_lt in Hlt. rewrite Hl.
      destruct (IH rest) as (cps & Hrun & Hflat); [simpl in *; lia|exact Hrest|].
      exists (c :: cps). split.
      * rewrite utf8_run_code_point, Hrun by (assumption || lia). reflexivity.
      * cbn [flat_map]. unfold utf16_of_code_point at 1.
        destruct (N.ltb_spec c 65536); [|lia]. rewrite Hflat. reflexivity.
Qed.

(** Decoding the UTF-8 encoding of a well-formed string gives it back. *)
Lemma utf8_decode_encode (s : jsstring) :
  well_formed s = true -> utf8_decode (utf8_encode s) = s.
Proof.
  intros Hwf.
  destruct (utf8_run_encode_bounded (length s) s (le_n _) Hwf) as (cps & Hrun & Hflat).
  unfold utf8_decode, utf8_code_points. rewrite Hrun. cbn.
  rewrite app_nil_r. exact Hflat.
Qed.

End Utf8Facts.

(** ** The field cipher: what [aesIGE.encrypt] and [aesIGE.decrypt] guarantee *)

Module FieldCipher.

Import CipherFacts Utf8Facts.

Local Open Scope nat_scope.

(** Decrypting a text in the format [encrypt] writes it, [hex(iv):hex(ct)],
    comes down to CBC decryption of [ct] under [iv]. *)
Lemma aesIGE_decrypt_hex (key iv ct : list byte) :
  length iv = 16 -> length key = 32 ->
  aesIGE_decrypt (hex_encode iv ++ colon :: hex_encode ct) key =
  match aes_256_cbc_decrypt key iv ct with
  | Ok data => Ok (utf8_decode data)
  | Err e => Err e
  end.
Proof.
  intros Hiv Hkey. unfold aesIGE_decrypt.
  rewrite split_first_colon_hex, !hex_decode_encode, Hiv, Hkey.
  change (Nat.eqb 16 16) with true. change (Nat.eqb 32 32) with true.
  cbv beta iota delta [negb].
  rewrite length_hex_encode.
  replace (Nat.odd (2 * length ct)) with false; [reflexivity|].
  symmetry. rewrite <- Nat.negb_even, Nat.even_mul. reflexivity.
Qed.

Lemma aesIGE_encrypt_ok (iv : list byte) (data : jsstring) (key : list byte) :
  length iv = 16 -> length key = 32 ->
  exists ct,
    aes_256_cbc_encrypt key iv (utf8_encode data) = Ok ct /\
    aes_256_cbc_decrypt key iv ct = Ok (utf8_encode data) /\
    aesIGE_encrypt iv data key = Ok (hex_encode iv ++ colon :: hex_encode ct).
Proof.
  intros Hiv Hkey.
  destruct (aes_256_cbc_decrypt_encrypt key iv (utf8_encode data) Hiv Hkey)
    as (ct & Henc & Hdec).
  exists ct. repeat split; [exact Henc|exact Hdec|].
  unfold aesIGE_encrypt. rewrite Henc. reflexivity.
Qed.

(** The IV is readable from the ciphertext text. *)
Lemma ciphertext_determines_iv (iv1 iv2 ct1 ct2 : list byte) :
  hex_encode iv1 ++ colon :: hex_encode ct1 = hex_encode iv2 ++ colon :: hex_encode ct2 ->
  iv1 = iv2.
Proof.
  intros H. apply (f_equal split_first_colon) in H.
  rewrite !split_first_colon_hex in H.
  apply hex_encode_inj. congruence.
Qed.

(** *** XORing the IV of a ciphertext XORs the first plaintext block *)

Lemma xor_bytes_nil_mask (a : list byte) : xor_bytes a [] = a.
Proof.
  induction a as [|x a IH]; simpl; [reflexivity|].
  rewrite bxor_0_r. simpl in IH. rewrite IH. reflexivity.
Qed.

Lemma xor_bytes_app (a b m : list byte) :
  xor_bytes (a ++ b) m = xor_bytes a m ++ xor_bytes b (skipn (length a) m).
Proof.
  revert m. induction a as [|x a IH]; intros m; simpl.
  - rewrite skipn_O. reflexivity.
  - rewrite IH. destruct m; simpl; [rewrite skipn_nil|]; reflexivity.
Qed.

Lemma xor_bytes_short_mask (a b m : list byte) :
  length m <= length a -> xor_bytes (a ++ b) m = xor_bytes a m ++ b.
Proof.
  intros H. rewrite xor_bytes_app, skipn_all2 by exact H.
  rewrite xor_bytes_nil_mask. reflexivity.
Qed.

Lemma xor_bytes_shift_mask (p i d : list byte) :
  length p <= length i ->
  xor_bytes (xor_bytes p i) (xor_bytes i d) = xor_bytes p d.
Proof.
  revert i d. induction p as [|x p IH]; intros i d H; simpl; [reflexivity|].
  destruct i as [|y i]; [simpl in H; lia|]. simpl.
  rewrite IH by (simpl in H; lia). f_equal.
  rewrite bxor_assoc, (bxor_cancel_r x y). reflexivity.
Qed.

Section Malleability.

Variables E D : list byte -> list byte.
Hypothesis D_E : forall b, length b = 16 -> D (E b) = b.
Hypothesis length_E : forall b, length b = 16 -> length (E b) = 16.

Lemma cbc_decrypt_shifted_iv (n : nat) (iv delta data : list byte) :
  length iv = 16 -> length delta <= 16 -> length data = 16 * S n ->
  cbc_decrypt D (S n) (xor_bytes iv delta) (cbc_encrypt E (S n) iv data)
  = xor_bytes data delta.
Proof.
  intros Hiv Hdelta Hdata. cbn [cbc_decrypt cbc_encrypt].
  assert (Hx : length (xor_bytes (firstn 16 data) iv) = 16)
    by (rewrite length_xor_bytes, length_firstn; lia).
  rewrite firstn_app_exact, skipn_app_exact by (apply length_E, Hx).
  rewrite D_E by exact Hx.
  rewrite xor_bytes_shift_mask by (rewrite length_firstn; lia).
  rewrite (cbc_decrypt_encrypt E D D_E length_E) by (rewrite length_skipn; lia).
  rewrite <- (firstn_skipn 16 data) at 3.
  rewrite xor_bytes_short_mask by (rewrite length_firstn; lia).
  reflexivity.
Qed.

End Malleability.

Lemma pkcs7_pad_xor (data delta : list byte) :
  length delta <= length data ->
  xor_bytes (pkcs7_pad data) delta = pkcs7_pad (xor_bytes data delta).
Proof.
  intros H. unfold pkcs7_pad.
  rewrite xor_bytes_short_mask, length_xor_bytes by exact H. reflexivity.
Qed.

Lemma aes_256_cbc_decrypt_shifted_iv (key iv delta data ct : list byte) :
  length iv = 16 -> length key = 32 ->
  length delta <= 16 -> length delta <= length data ->
  aes_256_cbc_encrypt key iv data = Ok ct ->
  aes_256_cbc_decrypt key (xor_bytes iv delta) ct = Ok (xor_bytes data delta).
Proof.
  intros Hiv Hkey Hd16 Hd Henc.
  unfold aes_256_cbc_encrypt in Henc. rewrite Hiv, Hkey in Henc.
  change (Nat.eqb 16 16) with true in Henc. change (Nat.eqb 32 32) with true in Henc.
  cbv beta iota zeta delta [negb] in Henc.
  assert (Hct : ct = cbc_encrypt (AES.encrypt_block key)
                      (length (pkcs7_pad data) / 16) iv (pkcs7_pad data))
    by congruence.
  subst ct. clear Henc.
  pose proof (length_pkcs7_pad data) as Hlen.
  set (n := length data / 16) in *.
  assert (Hn : length (pkcs7_pad data) / 16 = S n).
  { rewrite Hlen, Nat.mul_comm, Nat.div_mul; lia. }
  rewrite Hn. replace (n + 1) with (S n) in Hlen by lia.
  unfold aes_256_cbc_decrypt.
  rewrite length_xor_bytes, Hiv, Hkey.
  change (Nat.eqb 16 16) with true. change (Nat.eqb 32 32) with true.
  cbv beta iota delta [negb].
  rewrite (length_cbc_encrypt _ (AESFacts.length_encrypt_block key)) by exact Hlen.
  replace (16 * S n / 16) with (S n) by (rewrite Nat.mul_comm, Nat.div_mul; lia).
  replace (16 * S n mod 16) with 0 by (rewrite Nat.mul_comm, Nat.Div0.mod_mul; lia).
  replace (Nat.eqb (16 * S n) 0) with false by (symmetry; apply Nat.eqb_neq; lia).
  change (Nat.eqb 0 0) with true. cbv beta iota delta [negb orb].
  rewrite (cbc_decrypt_shifted_iv _ _ (AESFacts.decrypt_block_encrypt_block key)
             (AESFacts.length_encrypt_block key)) by assumption.
  rewrite pkcs7_pad_xor by exact Hd.
  rewrite pkcs7_unpad_pad. reflexivity.
Qed.

(** *** A ciphertext cut short, and what [decryptUserData] makes of it *)

Lemma hex_encode_nonempty (bs : list byte) : bs <> [] -> hex_encode bs <> [].
Proof. destruct bs; [congruence|discriminate]. Qed.

Lemma removelast_ciphertext (iv ct : list byte) :
  ct <> [] ->
  removelast (hex_encode iv ++ colon :: hex_encode ct)
  = hex_encode iv ++ colon :: removelast (hex_encode ct).
Proof.
  intros Hct. rewrite List.removelast_app by discriminate.
  f_equal. pose proof (hex_encode_nonempty ct Hct).
  cbn [removelast]. destruct (hex_encode ct); [congruence|reflexivity].
Qed.

Lemma length_removelast {A} (l : list A) : length (removelast l) = length l - 1.
Proof.
  induction l as [|x l IH]; [reflexivity|].
  destruct l as [|y l]; [reflexivity|].
  cbn [removelast length] in *. rewrite IH. lia.
Qed.

Lemma aesIGE_decrypt_truncated (key iv ct : list byte) :
  length iv = 16 -> length key = 32 -> ct <> [] ->
  aesIGE_decrypt (removelast (hex_encode iv ++ colon :: hex_encode ct)) key
  = Err invalid_hex_length.
Proof.
  intros Hiv Hkey Hct. rewrite removelast_ciphertext by exact Hct.
  unfold aesIGE_decrypt.
  rewrite split_first_colon_hex, hex_decode_encode, Hiv, Hkey.
  change (Nat.eqb 16 16) with true. change (Nat.eqb 32 32) with true.
  cbv beta iota delta [negb].
  rewrite length_removelast, length_hex_encode.
  replace (Nat.odd (2 * length ct - 1)) with true; [reflexivity|].
  symmetry. destruct ct as [|b ct]; [congruence|].
  cbn [length]. replace (2 * S (length ct) - 1) with (1 + 2 * length ct) by lia.
  rewrite Nat.odd_add_mul_2. reflexivity.
Qed.

Lemma cbc_ciphertext_nonempty (key iv data ct : list byte) :
  aes_256_cbc_encrypt key iv data = Ok ct -> ct <> [].
Proof.
  unfold aes_256_cbc_encrypt.
  destruct (negb (Nat.eqb (length iv) 16)); [discriminate|].
  destruct (negb (Nat.eqb (length key) 32)); [discriminate|].
  intros H Hnil.
  assert (Hct : ct = cbc_encrypt (AES.encrypt_block key)
                      (length (pkcs7_pad data) / 16) iv (pkcs7_pad data))
    by congruence.
  pose proof (length_pkcs7_pad data) as Hlen.
  pose proof (length_cbc_encrypt (AES.encrypt_block key)
                (AESFacts.length_encrypt_block key)
                (length data / 16 + 1) iv (pkcs7_pad data) Hlen) as Hl.
  replace (length (pkcs7_pad data) / 16) with (length data / 16 + 1) in Hct
    by (rewrite Hlen, Nat.mul_comm, Nat.div_mul; lia).
  rewrite <- Hct, Hnil in Hl. simpl in Hl. lia.
Qed.

(** When decrypting the first name throws, [decryptUserData] answers with
    the stored values themselves. *)
Lemma decryptUserData_falls_back (eu : encryptedUser) (w : world)
    (k s : jsstring) (e : string) :
  eu_encryption_key eu = VStr k -> k <> [] ->
  eu_first_name eu = VStr s -> s <> [] ->
  aesIGE_decrypt s (hex_decode k) = Err e ->
  decryptUserData eu w = (Ok (plain_data eu), w).
Proof.
  intros Hk Hkne Hs Hsne Hdec.
  unfold decryptUserData, try_catch, bind, buffer_from_hex, decrypt_column, lift, ret.
  rewrite Hk, Hs.
  destruct k as [|? ?]; [congruence|]. destruct s as [|? ?]; [congruence|].
  cbn [truthy length Nat.eqb negb].
  rewrite Hdec. reflexivity.
Qed.


End FieldCipher.

Section FieldCipherClaims.

Import CipherFacts Utf8Facts FieldCipher.

Local Open Scope nat_scope.

(** C5, as the code has it. For every string [P] without unpaired
    surrogates, every 32-byte key [K] and every 16-byte IV drawn by
    [encrypt], [aesIGE.encrypt(P, K)] succeeds and [aesIGE.decrypt] of its
    result under [K] returns exactly [P]. *)
Theorem C5_round_trip_well_formed (iv : list byte) (P : jsstring) (K : list byte) :
  length iv = 16 -> length K = 32 -> well_formed P = true ->
  exists c, aesIGE_encrypt iv P K = Ok c /\ aesIGE_decrypt c K = Ok P.
Proof.
  intros Hiv Hkey Hwf.
  destruct (aesIGE_encrypt_ok iv P K Hiv Hkey) as (ct & _ & Hdec & Henc).
  eexists. split; [exact Henc|].
  rewrite aesIGE_decrypt_hex, Hdec, utf8_decode_encode by assumption.
  reflexivity.
Qed.

Lemma C5_round_trip_witness :
  exists c, aesIGE_encrypt sp800_iv (js "Alice") fips_key = Ok c /\
            aesIGE_decrypt c fips_key = Ok (js "Alice").
Proof.
  apply (C5_round_trip_well_formed sp800_iv (js "Alice") fips_key); reflexivity.
Defined.

(** C5 as stated fails for a plaintext with an unpaired surrogate: the
    string of the single code unit U+D800 is encrypted as U+FFFD and comes
    back as U+FFFD. *)
Lemma C5_lone_surrogate_counterexample :
  aesIGE_encrypt sp800_iv [0xD800%N] fips_key
    = Ok (js "000102030405060708090a0b0c0d0e0f:f4196cf49a77a6748407f6a9d089c3d6") /\
  aesIGE_decrypt (js "000102030405060708090a0b0c0d0e0f:f4196cf49a77a6748407f6a9d089c3d6")
    fips_key = Ok [0xFFFD%N] /\
  [0xFFFD%N] <> [0xD800%N].
Proof. split; [|split]; [vm_compute; reflexivity ..|discriminate]. Qed.

(** C6. For every plaintext [P] and 32-byte key [K], two calls of
    [aesIGE.encrypt(P, K)] that draw distinct 16-byte IVs both succeed and
    return different ciphertexts. *)
Theorem C6_distinct_iv_distinct_ciphertext
    (iv1 iv2 : list byte) (P : jsstring) (K : list byte) :
  length iv1 = 16 -> length iv2 = 16 -> length K = 32 -> iv1 <> iv2 ->
  exists c1 c2,
    aesIGE_encrypt iv1 P K = Ok c1 /\ aesIGE_encrypt iv2 P K = Ok c2 /\ c1 <> c2.
Proof.
  intros H1 H2 Hkey Hne.
  destruct (aesIGE_encrypt_ok iv1 P K H1 Hkey) as (ct1 & _ & _ & Henc1).
  destruct (aesIGE_encrypt_ok iv2 P K H2 Hkey) as (ct2 & _ & _ & Henc2).
  eexists _, _. split; [exact Henc1|]. split; [exact Henc2|].
  intros Heq. apply Hne. exact (ciphertext_determines_iv _ _ _ _ Heq).
Qed.

Lemma C6_distinct_iv_witness :
  exists c1 c2,
    aesIGE_encrypt sp800_iv (js "Alice") fips_key = Ok c1 /\
    aesIGE_encrypt fips_plain (js "Alice") fips_key = Ok c2 /\ c1 <> c2.
Proof.
  apply (C6_distinct_iv_distinct_ciphertext sp800_iv fips_plain (js "Alice") fips_key);
    [reflexivity|reflexivity|reflexivity|discriminate].
Defined.

(** C2, as the code has it. [aesIGE.decrypt] checks the shape of its
    input and the PKCS#7 padding of the last block, nothing else: for a
    ciphertext [c] of [P] under a 32-byte key, replacing the IV part by the
    IV XORed with [delta] (at most 16 bytes, no longer than the plaintext
    bytes) makes [aesIGE.decrypt] return, without error, the plaintext
    bytes XORed with [delta]; [c] without its last character is refused
    with the hex-length error of [update]; and [decryptUserData] on a row
    holding that cut ciphertext does not fail but returns the stored text
    itself as the first name. *)
Theorem C2_decrypt_does_not_authenticate
    (K iv delta : list byte) (P : jsstring) (mail : value) (w : world) :
  length iv = 16 -> length K = 32 ->
  length delta <= 16 -> length delta <= length (utf8_encode P) ->
  exists c tampered,
    aesIGE_encrypt iv P K = Ok c /\
    tampered = hex_encode (xor_bytes iv delta) ++ skipn 32 c /\
    aesIGE_decrypt tampered K = Ok (utf8_decode (xor_bytes (utf8_encode P) delta)) /\
    aesIGE_decrypt (removelast c) K = Err invalid_hex_length /\
    decryptUserData
      (mk_encryptedUser mail (VStr (removelast c)) VNull VNull (VStr (hex_encode K))) w
    = (Ok (mk_profile mail (VStr (removelast c)) (VStr []) VNull), w).
Proof.
  intros Hiv Hkey Hd16 Hd.
  destruct (aesIGE_encrypt_ok iv P K Hiv Hkey) as (ct & Hcbc & _ & Henc).
  pose proof (cbc_ciphertext_nonempty _ _ _ _ Hcbc) as Hct.
  eexists _, _. split; [exact Henc|]. split; [reflexivity|].
  rewrite skipn_app_exact by (rewrite length_hex_encode; lia).
  split; [|split].
  - rewrite aesIGE_decrypt_hex by (rewrite ?length_xor_bytes; assumption).
    rewrite (aes_256_cbc_decrypt_shifted_iv K iv delta (utf8_encode P) ct) by assumption.
    reflexivity.
  - apply aesIGE_decrypt_truncated; assumption.
  - pose proof (aesIGE_decrypt_truncated K iv ct Hiv Hkey Hct) as Htr.
    set (s := removelast (hex_encode iv ++ colon :: hex_encode ct)) in *.
    assert (Hs : s <> []).
    { unfold s. rewrite removelast_ciphertext by exact Hct.
      destruct (hex_encode iv) eqn:E; [|discriminate].
      apply (f_equal (@length N)) in E. rewrite length_hex_encode in E.
      simpl in E. lia. }
    rewrite (decryptUserData_falls_back _ w (hex_encode K) s invalid_hex_length).
    + unfold plain_data, or_else. cbn [eu_email eu_first_name eu_last_name eu_phone].
      destruct s; [congruence|reflexivity].
    + reflexivity.
    + apply hex_encode_nonempty. destruct K; [discriminate Hkey|discriminate].
    + reflexivity.
    + exact Hs.
    + rewrite hex_decode_encode. exact Htr.
Qed.

Lemma C2_decrypt_does_not_authenticate_witness :
  exists c tampered,
    aesIGE_encrypt sp800_iv (js "Alice") fips_key = Ok c /\
    tampered = hex_encode (xor_bytes sp800_iv [x01]) ++ skipn 32 c /\
    aesIGE_decrypt tampered fips_key
      = Ok (utf8_decode (xor_bytes (utf8_encode (js "Alice")) [x01])) /\
    aesIGE_decrypt (removelast c) fips_key = Err invalid_hex_length /\
    decryptUserData
      (mk_encryptedUser VNull (VStr (removelast c)) VNull VNull
         (VStr (hex_encode fips_key))) empty_world
    = (Ok (mk_profile VNull (VStr (removelast c)) (VStr []) VNull), empty_world).
Proof.
  apply (C2_decrypt_does_not_authenticate fips_key sp800_iv [x01] (js "Alice")
           VNull empty_world);
    [reflexivity|reflexivity|simpl; lia|simpl; lia].
Defined.

(** C2 as stated fails: the ciphertext of ["Alice"] with one bit of its IV
    flipped is not what [encrypt] returned, and [decrypt] returns ["@lice"]
    for it, without any error. *)
Lemma C2_tampered_iv_counterexample :
  aesIGE_encrypt sp800_iv (js "Alice") fips_key
    = Ok (js "000102030405060708090a0b0c0d0e0f:19fd37b06ff1f1520ff984639d7267d9") /\
  js "010102030405060708090a0b0c0d0e0f:19fd37b06ff1f1520ff984639d7267d9"
    <> js "000102030405060708090a0b0c0d0e0f:19fd37b06ff1f1520ff984639d7267d9" /\
  aesIGE_decrypt (js "010102030405060708090a0b0c0d0e0f:19fd37b06ff1f1520ff984639d7267d9")
    fips_key = Ok (js "@lice") /\
  js "@lice" <> js "Alice".
Proof.
  split; [vm_compute; reflexivity|]. split; [discriminate|].
  split; [vm_compute; reflexivity|discriminate].
Qed.

End FieldCipherClaims.

(** ** The access guard *)

Module GuardFacts.

(** [verifySession] never throws and touches the cache with one [GET]. *)
Lemma verifySession_total (uid sid : value) (w : world) :
  exists b, verifySession uid sid w = (Ok b, log_redis (GET (session_key uid)) w).
Proof.
  unfold verifySession, try_catch, bind, redis_get, ret.
  destruct (w_redis_up w); [|eauto].
  destruct (redis_lookup w (session_key uid)) as [text|]; [|cbn; eauto].
  destruct text as [j|s].
  - cbn. unfold session_id_is, ret, throw.
    destruct j as [v|items|fields].
    + destruct v; eauto.
    + eauto.
    + destruct (field "session_id" fields) as [[v|?|?]|]; eauto.
  - destruct s; cbn; eauto.
Qed.

(** Store unreachable: the lookup rejects and the [catch] answers [true]. *)
Lemma verifySession_outage (uid sid : value) (w : world) :
  w_redis_up w = false ->
  verifySession uid sid w = (Ok true, log_redis (GET (session_key uid)) w).
Proof.
  intros Hdown. unfold verifySession, try_catch, bind, redis_get, ret.
  rewrite Hdown. reflexivity.
Qed.

Lemma verifySession_miss (uid sid : value) (w : world) :
  w_redis_up w = true -> redis_lookup w (session_key uid) = None ->
  verifySession uid sid w = (Ok false, log_redis (GET (session_key uid)) w).
Proof.
  intros Hup Hmiss. unfold verifySession, try_catch, bind, redis_get, ret.
  rewrite Hup, Hmiss. reflexivity.
Qed.

(** A record written by [cacheUserSession] is compared by its [session_id]. *)
Lemma verifySession_hit (uid sid : value) (sd : sessionData) (w : world) :
  w_redis_up w = true ->
  redis_lookup w (session_key uid) = Some (JSON_stringify sd) ->
  verifySession uid sid w
  = (Ok (strict_eq (session_id sd) sid), log_redis (GET (session_key uid)) w).
Proof.
  intros Hup Hhit. unfold verifySession, try_catch, bind, redis_get, ret.
  rewrite Hup, Hhit. destruct sd as [s k]. cbn.
  destruct s, k; reflexivity.
Qed.

(** A record whose text is not JSON makes [JSON.parse] throw, and the
    [catch] answers [true]. *)
Lemma verifySession_corrupt (uid sid : value) (c : N) (s : jsstring) (w : world) :
  w_redis_up w = true ->
  redis_lookup w (session_key uid) = Some (NotJson (c :: s)) ->
  verifySession uid sid w = (Ok true, log_redis (GET (session_key uid)) w).
Proof.
  intros Hup Hhit. unfold verifySession, try_catch, bind, redis_get, ret.
  rewrite Hup, Hhit. reflexivity.
Qed.

Lemma redis_lookup_log (c : redis_cmd) (w : world) (key : jsstring) :
  redis_lookup (log_redis c w) key = redis_lookup w key.
Proof. reflexivity. Qed.

(** The guard on a request with both credentials present follows
    [verifySession]. *)
Lemma requireAuth_verified (s : http_session) (w : world) (b : bool) (w' : world) :
  truthy (s_userId s) = true -> truthy (s_sessionId s) = true ->
  verifySession (s_userId s) (s_sessionId s) w = (Ok b, w') ->
  requireAuth s w =
  (Ok (if b then (Next (s_userId s), s)
       else (Respond 401 "SESSION_INVALID", destroy s)), w').
Proof.
  intros Hu Hs Hv. unfold requireAuth, try_catch, bind, ret.
  rewrite Hu, Hs. cbn [negb orb]. rewrite Hv. destruct b; reflexivity.
Qed.

Lemma requireAuth_missing (s : http_session) (w : world) :
  truthy (s_userId s) = false \/ truthy (s_sessionId s) = false ->
  requireAuth s w = (Ok (Respond 401 "AUTH_REQUIRED", s), w).
Proof.
  intros H. unfold requireAuth, try_catch, ret.
  replace (negb (truthy (s_userId s)) || negb (truthy (s_sessionId s))) with true;
    [reflexivity|].
  symmetry. apply orb_true_iff. destruct H as [-> | ->]; auto.
Qed.

Lemma session_key_num_inj (a b : Z) :
  session_key (VNum a) = session_key (VNum b) -> a = b.
Proof.
  unfold session_key, to_string, js. intros H.
  apply app_inv_head in H.
  apply (f_equal (map ascii_of_N)) in H.
  rewrite !List.map_map in H.
  rewrite !(map_ext _ (fun a => a) ascii_N_embedding), !List.map_id in H.
  apply (f_equal string_of_list_ascii) in H.
  rewrite !string_of_list_ascii_of_string in H.
  apply (inj pretty) in H. exact H.
Qed.

Lemma access_guard_verified (uid sid : value) (w : world) (b : bool) (w' : world) :
  truthy uid = true -> truthy sid = true ->
  verifySession uid sid w = (Ok b, w') ->
  access_guard uid sid w = (if b then ALLOWED uid else DENIED_SessionInvalid, w').
Proof.
  intros Hu Hs Hv. unfold access_guard.
  rewrite (requireAuth_verified (mk_http_session uid sid false) w b w' Hu Hs Hv).
  destruct b; reflexivity.
Qed.

Lemma access_guard_missing (uid sid : value) (w : world) :
  truthy uid = false \/ truthy sid = false ->
  access_guard uid sid w = (DENIED_AuthRequired, w).
Proof.
  intros H. unfold access_guard.
  rewrite (requireAuth_missing (mk_http_session uid sid false) w H). reflexivity.
Qed.

Lemma strict_eq_refl (v : value) : strict_eq v v = true.
Proof.
  destruct v as [| |b|n|s]; cbn; try reflexivity.
  - destruct b; reflexivity.
  - apply Z.eqb_refl.
  - apply bool_decide_eq_true. reflexivity.
Qed.

(** The cache after [cacheUserSession] on a reachable store. *)
Lemma cacheUserSession_up (uid : value) (sd : sessionData) (w : world) :
  w_redis_up w = true ->
  let w1 := snd (cacheUserSession uid sd w) in
  w_redis_up w1 = true /\
  redis_lookup w1 (session_key uid) = Some (JSON_stringify sd) /\
  forall key, key <> session_key uid -> redis_lookup w1 key = redis_lookup w key.
Proof.
  intros Hup. unfold cacheUserSession, try_catch, redis_setEx. rewrite Hup.
  cbn [snd]. split; [exact Hup|]. split.
  - unfold redis_lookup. cbn [w_redis set_redis log_redis w_now].
    rewrite lookup_insert_eq.
    replace (w_now w <? w_now w + 86400)%N with true; [reflexivity|].
    symmetry. apply N.ltb_lt. lia.
  - intros key Hne. unfold redis_lookup. cbn [w_redis set_redis log_redis w_now].
    rewrite lookup_insert_ne by congruence. reflexivity.
Qed.

End GuardFacts.

Section GuardClaims.

Import GuardFacts.

(** C9. A request in which the claimed account id or the session token is
    missing ([undefined], [null] or otherwise falsy) is answered 401
    [AUTH_REQUIRED]; the world, and with it the Redis command log and the
    cache, is left exactly as it was: the store is neither read nor written. *)
Theorem C9_missing_credentials_no_store_access (s : http_session) (w : world) :
  truthy (s_userId s) = false \/ truthy (s_sessionId s) = false ->
  requireAuth s w = (Ok (Respond 401 "AUTH_REQUIRED", s), w) /\
  access_guard (s_userId s) (s_sessionId s) w = (DENIED_AuthRequired, w) /\
  w_redis_log (snd (requireAuth s w)) = w_redis_log w.
Proof.
  intros H. pose proof (requireAuth_missing s w H) as Hreq.
  split; [exact Hreq|]. split.
  - unfold access_guard. rewrite requireAuth_missing by exact H. reflexivity.
  - rewrite Hreq. reflexivity.
Qed.

Lemma C9_missing_credentials_witness :
  requireAuth (mk_http_session VUndefined (VStr (js "token-A")) false) session_issued_world
    = (Ok (Respond 401 "AUTH_REQUIRED",
           mk_http_session VUndefined (VStr (js "token-A")) false),
       session_issued_world) /\
  access_guard VUndefined (VStr (js "token-A")) session_issued_world
    = (DENIED_AuthRequired, session_issued_world) /\
  w_redis_log (snd (requireAuth (mk_http_session VUndefined (VStr (js "token-A")) false)
                      session_issued_world))
    = w_redis_log session_issued_world.
Proof.
  apply (C9_missing_credentials_no_store_access
           (mk_http_session VUndefined (VStr (js "token-A")) false)
           session_issued_world).
  left. reflexivity.
Defined.

(** C1, as the code has it. For a request that carries an account id and a
    session token, when the Session Store is unreachable (the lookup
    rejects), [verifySession] catches the error and answers [true], and the
    guard calls [next()] with the claimed account id: the request is
    ALLOWED, not denied. *)
Theorem C1_store_outage_allows (uid sid : value) (w : world) :
  truthy uid = true -> truthy sid = true -> w_redis_up w = false ->
  verifySession uid sid w = (Ok true, log_redis (GET (session_key uid)) w) /\
  access_guard uid sid w = (ALLOWED uid, log_redis (GET (session_key uid)) w).
Proof.
  intros Hu Hs Hdown. pose proof (verifySession_outage uid sid w Hdown) as Hv.
  split; [exact Hv|].
  rewrite (access_guard_verified uid sid w true _ Hu Hs Hv). reflexivity.
Qed.

Lemma C1_store_outage_witness :
  verifySession (VNum 2) (VStr (js "anything")) outage_world
    = (Ok true, log_redis (GET (session_key (VNum 2))) outage_world) /\
  access_guard (VNum 2) (VStr (js "anything")) outage_world
    = (ALLOWED (VNum 2), log_redis (GET (session_key (VNum 2))) outage_world).
Proof.
  apply (C1_store_outage_allows (VNum 2) (VStr (js "anything")) outage_world);
    reflexivity.
Defined.

(** C1 as stated fails: with the store unreachable, a request carrying an
    account id and a token is ALLOWED, not DENIED with AuthServiceError. *)
Lemma C1_store_outage_counterexample :
  w_redis_up outage_world = false /\
  fst (access_guard (VNum 2) (VStr (js "anything")) outage_world) = ALLOWED (VNum 2) /\
  fst (access_guard (VNum 2) (VStr (js "anything")) outage_world)
    <> DENIED_AuthServiceError.
Proof.
  split; [reflexivity|].
  assert (H : fst (access_guard (VNum 2) (VStr (js "anything")) outage_world)
              = ALLOWED (VNum 2)) by (vm_compute; reflexivity).
  split; [exact H|]. rewrite H. discriminate.
Qed.

(** C4, as the code has it. The guard never fails and never writes to the
    Session Store: after it, every key holds what it held before. What a
    failed check (401 [SESSION_INVALID]) destroys is the HTTP session of the
    request, and only in that case. *)
Theorem C4_guard_never_deletes (s : http_session) (w : world) :
  exists o s' w',
    requireAuth s w = (Ok (o, s'), w') /\
    w_redis w' = w_redis w /\
    (forall key, redis_lookup w' key = redis_lookup w key) /\
    s' = (if decide (decision_of o = DENIED_SessionInvalid) then destroy s else s).
Proof.
  destruct (truthy (s_userId s)) eqn:Hu; [destruct (truthy (s_sessionId s)) eqn:Hs|].
  - destruct (verifySession_total (s_userId s) (s_sessionId s) w) as [b Hv].
    rewrite (requireAuth_verified s w b _ Hu Hs Hv).
    destruct b; eexists _, _, _; (split; [reflexivity|]);
      (split; [reflexivity|]); (split; [reflexivity|]);
      cbn [decision_of]; destruct (decide _) as [E|E]; congruence.
  - rewrite (requireAuth_missing s w (or_intror Hs)).
    eexists _, _, _. repeat split.
  - rewrite (requireAuth_missing s w (or_introl Hu)).
    eexists _, _, _. repeat split.
Qed.

(** C4 as stated fails: the session of account 1 is cached, the guard is
    called for account 1 with another token and denies with SessionInvalid,
    and afterwards a lookup of that key still returns the record. *)
Lemma C4_record_survives_counterexample :
  redis_lookup session_issued_world (session_key (VNum 1))
    = Some (JSON_stringify session_A) /\
  fst (access_guard (VNum 1) (VStr (js "token-X")) session_issued_world)
    = DENIED_SessionInvalid /\
  redis_lookup (snd (access_guard (VNum 1) (VStr (js "token-X")) session_issued_world))
    (session_key (VNum 1)) = Some (JSON_stringify session_A).
Proof. vm_compute. repeat split. Qed.

(** C7, as the code has it. Let a session with token [t] be cached for
    account [a] on a reachable store, and let account [b], different from
    [a], have no cached record or a record written by [cacheUserSession]
    whose session id differs from [t]. Then the guard denies the pair
    [(b, t)], and it allows the pair [(a, t)] whenever both are present. *)
Theorem C7_session_isolation_when_store_answers
    (a b : Z) (t k : value) (w : world) :
  a <> b ->
  w_redis_up w = true ->
  (redis_lookup w (session_key (VNum b)) = None \/
   exists sdB, redis_lookup w (session_key (VNum b)) = Some (JSON_stringify sdB) /\
               strict_eq (session_id sdB) t = false) ->
  let w1 := snd (cacheUserSession (VNum a) (mk_sessionData t k) w) in
  (fst (access_guard (VNum b) t w1) = DENIED_SessionInvalid \/
   fst (access_guard (VNum b) t w1) = DENIED_AuthRequired) /\
  fst (access_guard (VNum a) t w1)
  = (if truthy (VNum a) && truthy t then ALLOWED (VNum a) else DENIED_AuthRequired).
Proof.
  intros Hab Hup HB w1.
  destruct (cacheUserSession_up (VNum a) (mk_sessionData t k) w Hup)
    as (Hup1 & HA1 & Hother).
  fold w1 in Hup1, HA1, Hother.
  assert (Hkey : session_key (VNum b) <> session_key (VNum a)).
  { intros E. apply Hab. symmetry. exact (session_key_num_inj _ _ E). }
  split.
  - destruct (truthy (VNum b)) eqn:Htb; [destruct (truthy t) eqn:Ht|].
    + left. rewrite <- (Hother _ Hkey) in HB.
      destruct HB as [Hmiss | (sdB & Hhit & Hneq)].
      * rewrite (access_guard_verified _ _ _ _ _ Htb Ht
                   (verifySession_miss _ t w1 Hup1 Hmiss)). reflexivity.
      * rewrite (access_guard_verified _ _ _ _ _ Htb Ht
                   (verifySession_hit _ t sdB w1 Hup1 Hhit)).
        rewrite Hneq. reflexivity.
    + right. rewrite (access_guard_missing (VNum b) t w1 (or_intror Ht)). reflexivity.
    + right. rewrite (access_guard_missing (VNum b) t w1 (or_introl Htb)). reflexivity.
  - destruct (truthy (VNum a)) eqn:Hta; [destruct (truthy t) eqn:Ht|]; cbn [andb].
    + rewrite (access_guard_verified _ _ _ _ _ Hta Ht
                 (verifySession_hit _ t _ w1 Hup1 HA1)).
      cbn [session_id]. rewrite strict_eq_refl. reflexivity.
    + rewrite (access_guard_missing (VNum a) t w1 (or_intror Ht)). reflexivity.
    + rewrite (access_guard_missing (VNum a) t w1 (or_introl Hta)). reflexivity.
Qed.

Lemma C7_session_isolation_witness :
  (fst (access_guard (VNum 2) (VStr (js "token-A")) session_issued_world)
     = DENIED_SessionInvalid \/
   fst (access_guard (VNum 2) (VStr (js "token-A")) session_issued_world)
     = DENIED_AuthRequired) /\
  fst (access_guard (VNum 1) (VStr (js "token-A")) session_issued_world)
    = ALLOWED (VNum 1).
Proof.
  apply (C7_session_isolation_when_store_answers 1 2
           (VStr (js "token-A")) (VStr (js "auth-key-A")) empty_world);
    [discriminate|reflexivity|].
  left. reflexivity.
Defined.

(** C7 as stated fails: the token cached for account 1, presented with
    the id of account 2 while the store is unreachable, is ALLOWED as
    account 2. *)
Lemma C7_outage_counterexample :
  redis_lookup session_issued_world (session_key (VNum 1))
    = Some (JSON_stringify session_A) /\
  session_id session_A = VStr (js "token-A") /\
  redis_lookup session_issued_world (session_key (VNum 2)) = None /\
  fst (access_guard (VNum 2) (VStr (js "token-A")) outage_world) = ALLOWED (VNum 2).
Proof. vm_compute. repeat split. Qed.

End GuardClaims.

(** ** Registration *)

Module RegisterFacts.

Import FieldCipher.

Lemma same_outside_mysql_refl (w : world) : same_outside_mysql w w.
Proof. repeat split. Qed.

Lemma same_outside_mysql_trans (w1 w2 w3 : world) :
  same_outside_mysql w1 w2 -> same_outside_mysql w2 w3 -> same_outside_mysql w1 w3.
Proof.
  unfold same_outside_mysql.
  intros (A1 & A2 & A3 & A4 & A5 & A6 & A7) (B1 & B2 & B3 & B4 & B5 & B6 & B7).
  repeat split; congruence.
Qed.

(** Each statement of [storeUserInMySQL], by its outcome. *)
Lemma execute_drop_user_sessions (w : world) :
  let r := mysql_execute DropUserSessionsIfExists w in
  same_outside_mysql w (snd r) /\ w_users (snd r) = w_users w /\
  (forall x, fst r = Ok x -> w_user_sessions (snd r) = None).
Proof.
  unfold mysql_execute, run_statement.
  destruct (hd false (w_mysql_faults w)); cbn [fst snd].
  - repeat split. discriminate.
  - repeat split.
Qed.

Lemma execute_drop_users (w : world) :
  let r := mysql_execute DropUsersIfExists w in
  same_outside_mysql w (snd r) /\ w_user_sessions (snd r) = w_user_sessions w /\
  match fst r with
  | Ok _ => w_users (snd r) = None
  | Err _ => w_users (snd r) = w_users w
  end.
Proof.
  unfold mysql_execute, run_statement.
  destruct (hd false (w_mysql_faults w)); cbn [fst snd]; [repeat split|].
  cbn [w_users set_mysql_faults].
  destruct (w_users w) as [t|] eqn:Hu; cbn [fst snd]; [|repeat split; exact Hu].
  match goal with |- context [if ?c then _ else _] => destruct c end;
    cbn [fst snd]; repeat split; exact Hu.
Qed.

Lemma execute_create_users (w : world) :
  let r := mysql_execute CreateUsers w in
  same_outside_mysql w (snd r) /\
  match fst r with
  | Ok _ => w_users (snd r) = Some (empty_table users_columns)
  | Err _ => w_users (snd r) = w_users w
  end.
Proof.
  unfold mysql_execute, run_statement.
  destruct (hd false (w_mysql_faults w)); cbn [fst snd]; [repeat split|].
  cbn [w_users set_mysql_faults].
  destruct (w_users w) as [t|] eqn:Hu; cbn [fst snd]; repeat split; exact Hu.
Qed.

Lemma execute_create_user_sessions (w : world) :
  let r := mysql_execute CreateUserSessions w in
  same_outside_mysql w (snd r) /\ w_users (snd r) = w_users w.
Proof.
  unfold mysql_execute, run_statement.
  destruct (hd false (w_mysql_faults w)); cbn [fst snd]; [repeat split|].
  cbn [w_users w_user_sessions set_mysql_faults].
  destruct (w_user_sessions w), (w_users w) eqn:Hu; cbn [fst snd];
    repeat split; exact Hu.
Qed.

Lemma execute_insert_fresh (email password_hash : jsstring) (w : world) :
  w_users w = Some (empty_table users_columns) ->
  let r := mysql_execute (InsertUser email password_hash) w in
  same_outside_mysql w (snd r) /\
  match fst r with
  | Ok res =>
      res = Inserted 1 /\
      w_users (snd r)
      = Some (mk_table users_columns [inserted_row email password_hash (w_now w)] 2)
  | Err _ => w_users (snd r) = w_users w
  end.
Proof.
  intros Hu. unfold mysql_execute, run_statement.
  destruct (hd false (w_mysql_faults w)); cbn [fst snd]; [repeat split|].
  cbn [w_users set_mysql_faults]. rewrite Hu.
  change (known_columns (empty_table users_columns) ["email"; "password_hash"]%string)
    with true.
  cbn [negb empty_table t_rows email_taken existsb fst snd].
  repeat split.
Qed.

Lemma storeUserInMySQL_try_cases (email password_hash : jsstring) (w : world) :
  let r := storeUserInMySQL_try email password_hash w in
  same_outside_mysql w (snd r) /\
  ((fst r = Ok (VNum 1) /\
    w_users (snd r)
    = Some (mk_table users_columns [inserted_row email password_hash (w_now w)] 2))
   \/
   (exists e, fst r = Err e) /\
   (w_users (snd r) = w_users w \/ w_users (snd r) = None \/
    w_users (snd r) = Some (empty_table users_columns))).
Proof.
  cbv zeta. unfold storeUserInMySQL_try, try_catch, bind, ret.
  destruct (execute_drop_user_sessions w) as (F1 & U1 & _).
  destruct (mysql_execute DropUserSessionsIfExists w) as [[r1|e1] w1];
    cbn [fst snd] in *; [|eauto 10].
  destruct (execute_drop_users w1) as (F2 & _ & U2).
  pose proof (same_outside_mysql_trans _ _ _ F1 F2) as F02.
  destruct (mysql_execute DropUsersIfExists w1) as [[r2|e2] w2]; cbn [fst snd] in *.
  2:{ split; [exact F02|]. right. split; [eauto|]. left. congruence. }
  destruct (execute_create_users w2) as (F3 & U3).
  pose proof (same_outside_mysql_trans _ _ _ F02 F3) as F03.
  destruct (mysql_execute CreateUsers w2) as [[r3|e3] w3]; cbn [fst snd] in *.
  2:{ split; [exact F03|]. right. split; [eauto|]. right. left. congruence. }
  destruct (execute_create_user_sessions w3) as (F4 & U4).
  pose proof (same_outside_mysql_trans _ _ _ F03 F4) as F04.
  destruct (mysql_execute CreateUserSessions w3) as [[r4|e4] w4]; cbn [fst snd] in *.
  2:{ split; [exact F04|]. right. split; [eauto|]. right. right. congruence. }
  assert (U04 : w_users w4 = Some (empty_table users_columns)) by congruence.
  assert (N04 : w_now w4 = w_now w) by apply F04.
  destruct (execute_insert_fresh email password_hash w4 U04) as (F5 & U5).
  pose proof (same_outside_mysql_trans _ _ _ F04 F5) as F05.
  destruct (mysql_execute (InsertUser email password_hash) w4) as [[r5|e5] w5];
    cbn [fst snd] in *.
  { destruct U5 as (-> & U5). rewrite N04 in U5.
    split; [exact F05|]. left. split; [reflexivity|exact U5]. }
  assert (U05 : w_users w5 = Some (empty_table users_columns)) by congruence.
  assert (N05 : w_now w5 = w_now w) by apply F05.
  destruct (execute_insert_fresh email password_hash w5 U05) as (F6 & U6).
  pose proof (same_outside_mysql_trans _ _ _ F05 F6) as F06.
  destruct (mysql_execute (InsertUser email password_hash) w5) as [[r6|e6] w6];
    cbn [fst snd] in *.
  - destruct U6 as (-> & U6). rewrite N05 in U6.
    split; [exact F06|]. left. split; [reflexivity|exact U6].
  - split; [exact F06|]. right. split; [eauto|]. right. right. congruence.
Qed.

Lemma encryptUserData_ok (d : draws) (u : userData) (w : world) :
  valid_draws d ->
  exists e, encryptUserData d u w = (Ok e, w) /\ e_email e = email u.
Proof.
  intros (Hk & H1 & H2 & H3 & _).
  destruct (aesIGE_encrypt_ok (d_iv_first_name d) (firstName u) (d_key d) H1 Hk)
    as (c1 & _ & _ & E1).
  destruct (aesIGE_encrypt_ok (d_iv_last_name d) (lastName u) (d_key d) H2 Hk)
    as (c2 & _ & _ & E2).
  unfold encryptUserData, bind, lift, ret. rewrite E1, E2.
  destruct (phone u) as [[|c p]|]; [eauto|..|eauto].
  destruct (aesIGE_encrypt_ok (d_iv_phone d) (c :: p) (d_key d) H3 Hk)
    as (c3 & _ & _ & E3).
  rewrite E3. eauto.
Qed.

Lemma cacheUserSession_total (uid : value) (sd : sessionData) (w : world) :
  exists w', cacheUserSession uid sd w = (Ok tt, w') /\
             w_users w' = w_users w /\ w_profiles w' = w_profiles w.
Proof.
  unfold cacheUserSession, try_catch, redis_setEx, ret.
  destruct (w_redis_up w); eauto.
Qed.


(** [register] after its first step, by the outcome of [storeUserInMySQL_try]. *)
Lemma register_by_cases (d : draws) (u : userData) (w : world) :
  valid_draws d ->
  exists uid w1 e,
    encryptUserData d u w = (Ok e, w) /\
    storeUserInMySQL d (email u) (d_password_hash d) w = (Ok uid, w1) /\
    uid = match fst (storeUserInMySQL_try (email u) (d_password_hash d) w) with
          | Ok v => v
          | Err _ => VNum (floor_random_times (d_random d) 10000)
          end /\
    w1 = snd (storeUserInMySQL_try (email u) (d_password_hash d) w) /\
    register d u w =
    (if w_mongo_up w1
     then
       (Ok (mk_register_result true uid (VStr (d_session_id d))),
        snd (cacheUserSession uid (createSession d)
               (snd (storeUserProfileInMongoDB uid e (d_session_id d) w1))))
     else (Err ("Failed to register user: " ++ "MongoNetworkError")%string, w1)).
Proof.
  intros Hd. destruct (encryptUserData_ok d u w Hd) as (e & He & Hmail).
  destruct (storeUserInMySQL_try (email u) (d_password_hash d) w) as [res w1] eqn:Hs.
  exists (match res with
          | Ok v => v
          | Err _ => VNum (floor_random_times (d_random d) 10000)
          end), w1, e.
  split; [exact He|]. split.
  { unfold storeUserInMySQL, try_catch, ret. rewrite Hs. destruct res; reflexivity. }
  split; [reflexivity|]. split; [reflexivity|]. cbn [fst snd].
  unfold register, storeUserInMySQL, storeUserProfileInMongoDB, cacheUserSession,
    mongo_insertOne, redis_setEx, get_world, try_catch, bind, ret, throw.
  rewrite He, Hmail, Hs.
  destruct res as [v|er]; cbv beta iota;
    destruct (w_mongo_up w1); try reflexivity;
    cbn [fst snd w_redis_up set_profiles]; destruct (w_redis_up w1); reflexivity.
Qed.

(** The statements of [storeUserInMySQL] when MySQL answers. *)
Lemma mysql_execute_no_fault (s : statement) (w : world) :
  w_mysql_faults w = [] -> mysql_execute s w = run_statement s w.
Proof.
  intros Hf. unfold mysql_execute. rewrite Hf. cbn [hd tl].
  replace (set_mysql_faults [] w) with w; [reflexivity|].
  destruct w. cbn in Hf. subst. reflexivity.
Qed.

Lemma run_drop_user_sessions (w : world) :
  run_statement DropUserSessionsIfExists w = (Ok Done, set_user_sessions None w).
Proof. reflexivity. Qed.

Lemma run_drop_users (w : world) :
  w_users_referenced w = false -> w_user_sessions w = None ->
  exists w', run_statement DropUsersIfExists w = (Ok Done, w') /\
    w_users w' = None /\ w_user_sessions w' = None /\
    w_mysql_faults w' = w_mysql_faults w /\ w_now w' = w_now w.
Proof.
  intros Hr Hs. unfold run_statement. rewrite Hr, Hs.
  destruct (w_users w) eqn:Hu.
  - change (bool_decide (is_Some (@None table))) with false. cbn [orb].
    eexists. split; [reflexivity|]. repeat split. exact Hs.
  - eexists. split; [reflexivity|]. repeat split; assumption.
Qed.

Lemma run_create_users (w : world) :
  w_users w = None ->
  run_statement CreateUsers w
  = (Ok Done, set_users (Some (empty_table users_columns)) w).
Proof. intros Hu. unfold run_statement. rewrite Hu. reflexivity. Qed.

Lemma run_create_user_sessions (w : world) (t : table) :
  w_user_sessions w = None -> w_users w = Some t ->
  run_statement CreateUserSessions w
  = (Ok Done, set_user_sessions (Some (empty_table user_sessions_columns)) w).
Proof. intros Hs Hu. unfold run_statement. rewrite Hs, Hu. reflexivity. Qed.

Lemma run_insert_fresh (email password_hash : jsstring) (w : world) :
  w_users w = Some (empty_table users_columns) ->
  fst (run_statement (InsertUser email password_hash) w) = Ok (Inserted 1).
Proof.
  intros Hu. unfold run_statement. rewrite Hu.
  change (known_columns (empty_table users_columns) ["email"; "password_hash"]%string)
    with true.
  reflexivity.
Qed.

(** With MySQL answering and no other table referring to [users], the
    [try] block succeeds with id 1. *)
Lemma storeUserInMySQL_try_no_faults (email password_hash : jsstring) (w : world) :
  w_mysql_faults w = [] -> w_users_referenced w = false ->
  fst (storeUserInMySQL_try email password_hash w) = Ok (VNum 1).
Proof.
  intros Hf Hr. unfold storeUserInMySQL_try, try_catch, bind, ret.
  rewrite (mysql_execute_no_fault _ w Hf), run_drop_user_sessions.
  set (w1 := set_user_sessions None w).
  destruct (run_drop_users w1 Hr eq_refl) as (w2 & E2 & U2 & S2 & F2 & _).
  rewrite (mysql_execute_no_fault _ w1 Hf), E2.
  assert (Hf2 : w_mysql_faults w2 = []) by (rewrite F2; exact Hf).
  rewrite (mysql_execute_no_fault _ w2 Hf2), (run_create_users w2 U2).
  set (w3 := set_users (Some (empty_table users_columns)) w2).
  assert (Hf3 : w_mysql_faults w3 = []) by exact Hf2.
  rewrite (mysql_execute_no_fault _ w3 Hf3),
    (run_create_user_sessions w3 (empty_table users_columns) S2 eq_refl).
  set (w4 := set_user_sessions (Some (empty_table user_sessions_columns)) w3).
  assert (Hf4 : w_mysql_faults w4 = []) by exact Hf2.
  rewrite (mysql_execute_no_fault _ w4 Hf4).
  pose proof (run_insert_fresh email password_hash w4 eq_refl) as Hins.
  destruct (run_statement (InsertUser email password_hash) w4) as [[res|e] w5];
    cbn [fst snd] in *; [|discriminate Hins].
  injection Hins as ->. reflexivity.
Qed.

(** Whatever happens, [register] leaves the emails of the table distinct. *)
Lemma register_preserves_unique_emails (d : draws) (u : userData) (w : world) :
  valid_draws d -> unique_emails w -> unique_emails (snd (register d u w)).
Proof.
  intros Hd Huniq.
  destruct (register_by_cases d u w Hd) as (uid & w1 & e & _ & _ & _ & Hw1 & Hreg).
  pose proof (storeUserInMySQL_try_cases (email u) (d_password_hash d) w) as Hc.
  cbv zeta in Hc. rewrite <- Hw1 in Hc. destruct Hc as (_ & Hc).
  assert (H1 : unique_emails w1).
  { unfold unique_emails, users_rows in *.
    destruct Hc as [(_ & ->) | (_ & [-> | [-> | ->]])]; cbn [t_rows map empty_table].
    - apply NoDup_singleton.
    - exact Huniq.
    - apply NoDup_nil_2.
    - apply NoDup_nil_2. }
  rewrite Hreg. destruct (w_mongo_up w1) eqn:Hm; cbn [snd]; [|exact H1].
  destruct (cacheUserSession_total uid (createSession d)
              (snd (storeUserProfileInMongoDB uid e (d_session_id d) w1)))
    as (w3 & Hc3 & Hu3 & _).
  rewrite Hc3. cbn [snd]. unfold unique_emails, users_rows in *. rewrite Hu3.
  unfold storeUserProfileInMongoDB, bind, get_world, mongo_insertOne.
  rewrite Hm. exact H1.
Qed.

(** With every store answering, [register] succeeds with id 1 and the
    [users] table afterwards holds the new row and nothing else, whether or
    not the email was taken. *)
Lemma register_replaces_users_table (d : draws) (u : userData) (w : world) :
  valid_draws d -> w_mysql_faults w = [] -> w_users_referenced w = false ->
  w_mongo_up w = true ->
  fst (register d u w)
    = Ok (mk_register_result true (VNum 1) (VStr (d_session_id d))) /\
  users_rows (snd (register d u w))
    = [inserted_row (email u) (d_password_hash d) (w_now w)].
Proof.
  intros Hd Hf Hr Hmongo.
  destruct (register_by_cases d u w Hd) as (uid & w1 & e & _ & _ & Huid & Hw1 & Hreg).
  pose proof (storeUserInMySQL_try_no_faults (email u) (d_password_hash d) w Hf Hr) as Hok.
  pose proof (storeUserInMySQL_try_cases (email u) (d_password_hash d) w) as Hc.
  cbv zeta in Hc. rewrite <- Hw1 in Hc. rewrite Hok in Huid, Hc.
  destruct Hc as ((_ & _ & _ & Hm & _) & [(_ & Hu) | ((er & Her) & _)]);
    [|discriminate Her].
  rewrite Hm, Hmongo in Hreg. subst uid. rewrite Hreg. cbn [fst snd].
  split; [reflexivity|].
  destruct (cacheUserSession_total (VNum 1) (createSession d)
              (snd (storeUserProfileInMongoDB (VNum 1) e (d_session_id d) w1)))
    as (w3 & Hc3 & Hu3 & _).
  rewrite Hc3. cbn [snd]. unfold users_rows. rewrite Hu3.
  unfold storeUserProfileInMongoDB, bind, get_world, mongo_insertOne.
  rewrite Hm, Hmongo. cbn [snd w_users set_profiles]. rewrite Hu. reflexivity.
Qed.

End RegisterFacts.

Section RegisterClaims.

Import RegisterFacts.





End RegisterClaims.

(** ** Profile update *)

Module ProfileFacts.

Import UserService.

Lemma assign_other (asg : list (string * sqlval)) (r : row) (c : string) :
  c ∉ map fst asg -> assign asg r !! c = r !! c.
Proof.
  unfold assign. revert r. induction asg as [|[k v] asg IH]; intros r Hc; [reflexivity|].
  cbn [fold_left fst snd]. cbn [map fst] in Hc.
  apply not_elem_of_cons in Hc as [Hk Hc].
  rewrite IH by exact Hc.
  destruct v; [apply lookup_delete_ne|apply lookup_insert_ne ..]; congruence.
Qed.


Lemma kept_all (now : N) (data : list (string * value)) :
  filter (fun kv : string * field_value =>
            fst kv ≠ "id"%string ∧ fst kv ≠ "password_hash"%string)
    (map (fun kv => (fst kv, FValue (snd kv)))
       (filter (fun kv => fst kv ∈ allowedFields) data)
     ++ [("updatedAt"%string, FDate now)])
  = map (fun kv => (fst kv, FValue (snd kv)))
      (filter (fun kv => fst kv ∈ allowedFields) data)
    ++ [("updatedAt"%string, FDate now)].
Proof.
  rewrite filter_app.
  replace (filter (fun kv : string * field_value =>
                     fst kv ≠ "id"%string ∧ fst kv ≠ "password_hash"%string)
             [("updatedAt"%string, FDate now)])
    with [("updatedAt"%string, FDate now)]
    by (rewrite filter_cons_True by (split; discriminate); reflexivity).
  f_equal.
  induction data as [|[k v] data IH]; [reflexivity|].
  rewrite (filter_cons (fun kv => fst kv ∈ allowedFields)).
  destruct (decide (fst (k, v) ∈ allowedFields)) as [Hin|Hout]; [|exact IH].
  cbn [map fst snd]. rewrite filter_cons_True, IH; [reflexivity|].
  cbn [fst] in *. unfold allowedFields in Hin.
  repeat (apply elem_of_cons in Hin as [->|Hin]; [split; discriminate|]).
  inversion Hin.
Qed.

(** [updateProfile] is the [UPDATE] with [plain_assignments], then [findById]. *)
Lemma updateProfile_unfold (uid : value) (data : list (string * value)) (w : world) :
  updateProfile uid data w =
  match mysql_execute (UpdateUserById (plain_assignments (w_now w) data) uid) w with
  | (Ok _, w1) =>
      match findById uid w1 with
      | (Ok (Some r), w2) => (Ok (delete "password"%string r), w2)
      | (Ok None, w2) =>
          (Err "TypeError: Cannot destructure 'updatedUser' as it is null", w2)
      | (Err e, w2) => (Err e, w2)
      end
  | (Err e, w1) => (Err e, w1)
  end.
Proof.
  unfold updateProfile, update, try_catch, throw. unfold bind at 1, get_world at 1.
  rewrite kept_all.
  destruct (map (fun kv : string * value => (fst kv, FValue (snd kv)))
              (filter (fun kv => fst kv ∈ allowedFields) data)
            ++ [("updatedAt"%string, FDate (w_now w))]) as [|x l] eqn:E.
  { apply (f_equal (@length _)) in E. rewrite length_app in E. simpl in E. lia. }
  rewrite <- E. clear E x l.
  unfold bind, get_world, ret.
  replace (map (fun kv : string * field_value => (fst kv, sql_of_field (snd kv)))
             (map (fun kv : string * value => (fst kv, FValue (snd kv)))
                (filter (fun kv => fst kv ∈ allowedFields) data)
              ++ [("updatedAt"%string, FDate (w_now w))])
           ++ [("updated_at"%string, STime (w_now w))])
    with (plain_assignments (w_now w) data).
  2:{ unfold plain_assignments. rewrite map_app, List.map_map, <- app_assoc.
      reflexivity. }
  destruct (mysql_execute _ w) as [[res|e] w1]; [|reflexivity].
  destruct (findById uid w1) as [[[r|]|e] w2]; reflexivity.
Qed.



End ProfileFacts.

Section ProfileClaims.

Import ProfileFacts UserService.



End ProfileClaims.

(** ** The field cipher: format, error behaviour and the record round trip *)

Module CipherMore.

Import CipherFacts Utf8Facts FieldCipher.

Local Open Scope nat_scope.

Lemma length_aes_256_cbc_encrypt (key iv data ct : list byte) :
  aes_256_cbc_encrypt key iv data = Ok ct ->
  length ct = 16 * (length data / 16 + 1).
Proof.
  unfold aes_256_cbc_encrypt.
  destruct (negb (Nat.eqb (length iv) 16)); [discriminate|].
  destruct (negb (Nat.eqb (length key) 32)); [discriminate|].
  intros H.
  assert (Hct : ct = cbc_encrypt (AES.encrypt_block key)
                      (length (pkcs7_pad data) / 16) iv (pkcs7_pad data))
    by congruence.
  pose proof (length_pkcs7_pad data) as Hlen.
  replace (length (pkcs7_pad data) / 16) with (length data / 16 + 1) in Hct
    by (rewrite Hlen, Nat.mul_comm, Nat.div_mul; lia).
  rewrite Hct.
  apply (length_cbc_encrypt _ (AESFacts.length_encrypt_block key)). exact Hlen.
Qed.

Lemma split_first_colon_none (s : jsstring) :
  ~ In colon s -> split_first_colon s = (s, []).
Proof.
  induction s as [|c s IH]; intros Hno; [reflexivity|].
  cbn [split_first_colon].
  destruct (N.eqb_spec c colon) as [->|Hc].
  - exfalso. apply Hno. left. reflexivity.
  - rewrite IH; [reflexivity|]. intros Hin. apply Hno. right. exact Hin.
Qed.

(** A field survives [encrypt] followed by [decrypt] under the same key. *)
Lemma aesIGE_round_trip (iv : list byte) (P : jsstring) (K : list byte) :
  length iv = 16 -> length K = 32 -> well_formed P = true ->
  exists c, aesIGE_encrypt iv P K = Ok c /\ aesIGE_decrypt c K = Ok P /\ c <> [].
Proof.
  intros Hiv Hkey Hwf.
  destruct (aesIGE_encrypt_ok iv P K Hiv Hkey) as (ct & _ & Hdec & Henc).
  eexists. split; [exact Henc|]. split.
  - rewrite aesIGE_decrypt_hex, Hdec, utf8_decode_encode by assumption.
    reflexivity.
  - intros E. apply (f_equal (@length _)) in E.
    rewrite length_app in E. cbn [length] in E. lia.
Qed.

Lemma hex_encode_key_truthy (key : list byte) :
  length key = 32 -> truthy (VStr (hex_encode key)) = true.
Proof.
  intros H. cbn [truthy]. rewrite length_hex_encode, H. reflexivity.
Qed.

Lemma truthy_nonempty (s : jsstring) : s <> [] -> truthy (VStr s) = true.
Proof. destruct s; [congruence|reflexivity]. Qed.

End CipherMore.

Section CipherProperties.

Import CipherFacts Utf8Facts FieldCipher CipherMore.

Local Open Scope nat_scope.

(** X1. The text [aesIGE.encrypt] returns for a 16-byte IV and a 32-byte
    key is the 32 hex digits of the IV, a colon, and two hex digits per
    ciphertext byte; padding always adds between 1 and 16 bytes, so for a
    plaintext of [n] UTF-8 bytes the text has [33 + 32 * (n / 16 + 1)]
    characters: never fewer than 65, and at most 255 exactly when
    [n <= 95]. *)
Theorem X1_ciphertext_layout (iv : list byte) (data : jsstring) (key : list byte) :
  length iv = 16 -> length key = 32 ->
  exists c,
    aesIGE_encrypt iv data key = Ok c /\
    firstn 33 c = hex_encode iv ++ [colon] /\
    length c = 33 + 32 * (length (utf8_encode data) / 16 + 1) /\
    65 <= length c /\
    (length c <= 255 <-> length (utf8_encode data) <= 95).
Proof.
  intros Hiv Hkey.
  destruct (aesIGE_encrypt_ok iv data key Hiv Hkey) as (ct & Henc & _ & Hc).
  pose proof (length_aes_256_cbc_encrypt _ _ _ _ Henc) as Hlen.
  eexists. split; [exact Hc|].
  assert (Hl : length (hex_encode iv ++ colon :: hex_encode ct)
               = 33 + 32 * (length (utf8_encode data) / 16 + 1)).
  { rewrite length_app. cbn [length]. rewrite !length_hex_encode, Hiv, Hlen. lia. }
  split; [|split; [exact Hl|split; [lia|]]].
  - change (colon :: hex_encode ct) with ([colon] ++ hex_encode ct).
    rewrite app_assoc. apply firstn_app_exact.
    rewrite length_app, length_hex_encode, Hiv. reflexivity.
  - rewrite Hl. set (n := length (utf8_encode data)).
    pose proof (Nat.div_mod_eq n 16) as Hdm.
    pose proof (Nat.mod_upper_bound n 16) as Hm.
    split; intros H; lia.
Qed.

Lemma X1_ciphertext_layout_witness :
  exists c,
    aesIGE_encrypt sp800_iv (js "Alice") fips_key = Ok c /\
    firstn 33 c = hex_encode sp800_iv ++ [colon] /\
    length c = 33 + 32 * (length (utf8_encode (js "Alice")) / 16 + 1) /\
    65 <= length c /\
    (length c <= 255 <-> length (utf8_encode (js "Alice")) <= 95).
Proof.
  apply (X1_ciphertext_layout sp800_iv (js "Alice") fips_key); reflexivity.
Defined.

(** X2. [aesIGE.decrypt] never accepts a text without a colon: the whole
    text is then read as the IV and the ciphertext is empty, so the call
    throws, with the error for the IV unless the text starts with exactly
    16 bytes of hex, then for the key length, then for the final block. *)
Theorem X2_decrypt_without_colon_throws (s : jsstring) (key : list byte) :
  ~ In colon s ->
  aesIGE_decrypt s key
  = Err (if negb (Nat.eqb (length (hex_decode s)) 16) then invalid_iv
         else if negb (Nat.eqb (length key) 32) then invalid_key_length
         else wrong_final_block_length).
Proof.
  intros Hno. unfold aesIGE_decrypt.
  rewrite (split_first_colon_none s Hno).
  destruct (negb (Nat.eqb (length (hex_decode s)) 16)) eqn:Hiv; [reflexivity|].
  destruct (negb (Nat.eqb (length key) 32)) eqn:Hkey; [reflexivity|].
  cbn [length Nat.odd hex_decode]. unfold aes_256_cbc_decrypt.
  rewrite Hiv, Hkey. reflexivity.
Qed.

Lemma X2_decrypt_without_colon_witness :
  ~ In colon (js "Alice") /\
  aesIGE_decrypt (js "Alice") fips_key = Err invalid_iv.
Proof.
  assert (Hno : ~ In colon (js "Alice")).
  { intros H. repeat (destruct H as [H|H]; [discriminate H|]). exact H. }
  split; [exact Hno|].
  exact (X2_decrypt_without_colon_throws (js "Alice") fips_key Hno).
Defined.

(** X3. The record round trip. For names (and a phone number, if given)
    without unpaired surrogates, [decryptUserData] applied to the fields
    [encryptUserData] produces returns the email, first name and last name
    that were passed in; a phone number that is absent or empty comes back
    as [null]. *)
Theorem X3_user_data_round_trip (d : draws) (u : userData) (w : world) :
  valid_draws d ->
  well_formed (firstName u) = true -> well_formed (lastName u) = true ->
  (forall p, phone u = Some p -> well_formed p = true) ->
  exists e,
    encryptUserData d u w = (Ok e, w) /\
    decryptUserData (stored_fields e) w
    = (Ok (mk_profile (VStr (email u)) (VStr (firstName u)) (VStr (lastName u))
             (match phone u with
              | Some (c :: p) => VStr (c :: p)
              | _ => VNull
              end)), w).
Proof.
  intros (Hk & H1 & H2 & H3 & _) Hf Hl Hp.
  destruct (aesIGE_round_trip (d_iv_first_name d) (firstName u) (d_key d) H1 Hk Hf)
    as (c1 & E1 & D1 & N1).
  destruct (aesIGE_round_trip (d_iv_last_name d) (lastName u) (d_key d) H2 Hk Hl)
    as (c2 & E2 & D2 & N2).
  pose proof (hex_encode_key_truthy (d_key d) Hk) as Hkt.
  pose proof (truthy_nonempty c1 N1) as T1.
  pose proof (truthy_nonempty c2 N2) as T2.
  assert (Hdec : forall ph phone_out,
    (match ph with
     | Some c3 => c3 <> [] /\ aesIGE_decrypt c3 (d_key d) = Ok phone_out
     | None => True
     end) ->
    decryptUserData
      (stored_fields (mk_encryptedData (email u) c1 c2 ph
                        (hex_encode (d_key d)) (gender u) (birthDate u))) w
    = (Ok (mk_profile (VStr (email u)) (VStr (firstName u)) (VStr (lastName u))
             (match ph with Some _ => VStr phone_out | None => VNull end)), w)).
  { intros ph phone_out He.
    unfold decryptUserData, stored_fields, try_catch, bind, buffer_from_hex,
      decrypt_column, lift, ret.
    cbn [eu_encryption_key eu_first_name eu_last_name eu_phone eu_email
         e_email e_first_name e_last_name e_phone e_encryption_key].
    rewrite Hkt, T1, T2. cbn [negb].
    rewrite hex_decode_encode, D1, D2.
    destruct ph as [c3|]; [|reflexivity].
    destruct He as (N3 & D3). rewrite (truthy_nonempty c3 N3), D3. reflexivity. }
  unfold encryptUserData, bind, lift, ret. rewrite E1, E2.
  destruct (phone u) as [[|c p]|] eqn:Hphone.
  - eexists. split; [reflexivity|]. exact (Hdec None [] I).
  - destruct (aesIGE_round_trip (d_iv_phone d) (c :: p) (d_key d) H3 Hk
                (Hp _ eq_refl)) as (c3 & E3 & D3 & N3).
    rewrite E3. eexists. split; [reflexivity|].
    exact (Hdec (Some c3) (c :: p) (conj N3 D3)).
  - eexists. split; [reflexivity|]. exact (Hdec None [] I).
Qed.

Lemma X3_user_data_round_trip_witness :
  exists e,
    encryptUserData second_draws second_user empty_world = (Ok e, empty_world) /\
    decryptUserData (stored_fields e) empty_world
    = (Ok (mk_profile (VStr (js "b@x.com")) (VStr (js "Bob")) (VStr (js "Jones"))
             (VStr (js "+15550100"))), empty_world).
Proof.
  apply (X3_user_data_round_trip second_draws second_user empty_world).
  - unfold valid_draws. repeat split; reflexivity.
  - reflexivity.
  - reflexivity.
  - intros p Hp. injection Hp as <-. reflexivity.
Defined.

End CipherProperties.

(** ** Sessions: logout, expiry, replacement, and the page guards *)

Module SessionFacts.

Import GuardFacts.

Lemma redis_lookup_at_time (t : N) (w : world) (key : jsstring) :
  redis_lookup (at_time t w) key =
  match w_redis w !! key with
  | Some (text, expires) => if t <? expires then Some text else None
  | None => None
  end.
Proof. reflexivity. Qed.

Lemma redis_lookup_set_redis_up (b : bool) (w : world) (key : jsstring) :
  redis_lookup (set_redis_up b w) key = redis_lookup w key.
Proof. reflexivity. Qed.

(** [logout] on a reachable store. *)
Lemma logout_up (uid : value) (w : world) :
  w_redis_up w = true ->
  logout uid w
  = (Ok logged_out,
     set_redis (delete (session_key uid) (w_redis w))
       (log_redis (DEL (session_key uid)) w)).
Proof.
  intros Hup. unfold logout, try_catch, bind, redis_del, destroySession, ret.
  rewrite Hup. reflexivity.
Qed.

Lemma logout_down (uid : value) (w : world) :
  w_redis_up w = false ->
  logout uid w = (Ok logged_out, log_redis (DEL (session_key uid)) w).
Proof.
  intros Hdown. unfold logout, try_catch, bind, redis_del, destroySession, ret.
  rewrite Hdown. reflexivity.
Qed.

(** The guard on a pair with both parts present, by what the store holds. *)
Lemma access_guard_hit (uid sid : value) (sd : sessionData) (w : world) :
  truthy uid = true -> truthy sid = true -> w_redis_up w = true ->
  redis_lookup w (session_key uid) = Some (JSON_stringify sd) ->
  fst (access_guard uid sid w)
  = if strict_eq (session_id sd) sid then ALLOWED uid else DENIED_SessionInvalid.
Proof.
  intros Hu Hs Hup Hhit.
  rewrite (access_guard_verified _ _ _ _ _ Hu Hs (verifySession_hit _ sid sd w Hup Hhit)).
  reflexivity.
Qed.

Lemma access_guard_miss (uid sid : value) (w : world) :
  truthy uid = true -> truthy sid = true -> w_redis_up w = true ->
  redis_lookup w (session_key uid) = None ->
  fst (access_guard uid sid w) = DENIED_SessionInvalid.
Proof.
  intros Hu Hs Hup Hmiss.
  rewrite (access_guard_verified _ _ _ _ _ Hu Hs (verifySession_miss _ sid w Hup Hmiss)).
  reflexivity.
Qed.

Lemma cacheUserSession_down (uid : value) (sd : sessionData) (w : world) :
  w_redis_up w = false ->
  cacheUserSession uid sd w
  = (Ok tt, log_redis (SETEX (session_key uid) 86400 (JSON_stringify sd)) w).
Proof.
  intros Hdown. unfold cacheUserSession, try_catch, redis_setEx, ret.
  rewrite Hdown. reflexivity.
Qed.

Lemma cacheUserSession_up_world (uid : value) (sd : sessionData) (w : world) :
  w_redis_up w = true ->
  cacheUserSession uid sd w
  = (Ok tt,
     set_redis (<[session_key uid := (JSON_stringify sd, w_now w + 86400)]> (w_redis w))
       (log_redis (SETEX (session_key uid) 86400 (JSON_stringify sd)) w)).
Proof.
  intros Hup. unfold cacheUserSession, try_catch, redis_setEx, ret.
  rewrite Hup. reflexivity.
Qed.

End SessionFacts.

Section SessionProperties.

Import GuardFacts SessionFacts.

(** X4. On a reachable store [logout] removes the session record of the
    account and leaves every other key alone; afterwards the guard denies
    the account with [SESSION_INVALID], whatever token is presented. *)
Theorem X4_logout_ends_session (uid sid : value) (w : world) :
  w_redis_up w = true -> truthy uid = true -> truthy sid = true ->
  let w1 := snd (logout uid w) in
  fst (logout uid w) = Ok logged_out /\
  redis_lookup w1 (session_key uid) = None /\
  (forall key, key <> session_key uid -> redis_lookup w1 key = redis_lookup w key) /\
  fst (access_guard uid sid w1) = DENIED_SessionInvalid.
Proof.
  intros Hup Hu Hs w1. subst w1. rewrite (logout_up uid w Hup). cbn [fst snd].
  assert (Hmiss : redis_lookup
                    (set_redis (delete (session_key uid) (w_redis w))
                       (log_redis (DEL (session_key uid)) w)) (session_key uid) = None).
  { unfold redis_lookup. cbn [w_redis set_redis]. rewrite lookup_delete_eq. reflexivity. }
  split; [reflexivity|]. split; [exact Hmiss|]. split.
  - intros key Hne. unfold redis_lookup. cbn [w_redis set_redis log_redis w_now].
    rewrite lookup_delete_ne by congruence. reflexivity.
  - apply access_guard_miss; [exact Hu|exact Hs|exact Hup|exact Hmiss].
Qed.

Lemma X4_logout_ends_session_witness :
  let w1 := snd (logout (VNum 1) session_issued_world) in
  fst (logout (VNum 1) session_issued_world) = Ok logged_out /\
  redis_lookup w1 (session_key (VNum 1)) = None /\
  (forall key, key <> session_key (VNum 1) ->
               redis_lookup w1 key = redis_lookup session_issued_world key) /\
  fst (access_guard (VNum 1) (VStr (js "token-A")) w1) = DENIED_SessionInvalid.
Proof.
  apply (X4_logout_ends_session (VNum 1) (VStr (js "token-A")) session_issued_world);
    reflexivity.
Defined.

(** X5. With the store unreachable [logout] still answers success, but
    the cache is left as it was: once the store answers again, the token of
    the session that was logged out is ALLOWED as before. *)
Theorem X5_logout_outage_keeps_session (uid : value) (sd : sessionData) (w : world) :
  w_redis_up w = false -> truthy uid = true -> truthy (session_id sd) = true ->
  redis_lookup w (session_key uid) = Some (JSON_stringify sd) ->
  let w1 := snd (logout uid w) in
  fst (logout uid w) = Ok logged_out /\
  w_redis w1 = w_redis w /\
  fst (access_guard uid (session_id sd) (set_redis_up true w1)) = ALLOWED uid.
Proof.
  intros Hdown Hu Hs Hhit w1. subst w1. rewrite (logout_down uid w Hdown).
  cbn [fst snd]. split; [reflexivity|]. split; [reflexivity|].
  rewrite (access_guard_hit uid (session_id sd) sd); [|exact Hu|exact Hs|reflexivity|].
  - rewrite strict_eq_refl. reflexivity.
  - rewrite redis_lookup_set_redis_up. exact Hhit.
Qed.

Lemma X5_logout_outage_witness :
  let w1 := snd (logout (VNum 1) outage_world) in
  fst (logout (VNum 1) outage_world) = Ok logged_out /\
  w_redis w1 = w_redis outage_world /\
  fst (access_guard (VNum 1) (session_id session_A) (set_redis_up true w1))
    = ALLOWED (VNum 1).
Proof.
  apply (X5_logout_outage_keeps_session (VNum 1) session_A outage_world);
    reflexivity.
Defined.

(** X6. A session cached at time [t0] is honoured for 86400 seconds: with
    the store reachable and the clock at [t], the guard allows the pair of
    the account and its session id exactly when [t < t0 + 86400], and denies
    it with [SESSION_INVALID] from then on. *)
Theorem X6_session_lives_one_day (uid : value) (sd : sessionData) (w : world) (t : N) :
  w_redis_up w = true -> truthy uid = true -> truthy (session_id sd) = true ->
  let w1 := snd (cacheUserSession uid sd w) in
  fst (access_guard uid (session_id sd) (at_time t w1))
  = if t <? w_now w + 86400 then ALLOWED uid else DENIED_SessionInvalid.
Proof.
  intros Hup Hu Hs w1. subst w1.
  rewrite (cacheUserSession_up_world uid sd w Hup). cbn [snd].
  set (w1 := set_redis _ _).
  assert (Hup1 : w_redis_up (at_time t w1) = true) by exact Hup.
  assert (Hl : redis_lookup (at_time t w1) (session_key uid)
               = if t <? w_now w + 86400 then Some (JSON_stringify sd) else None).
  { rewrite redis_lookup_at_time. subst w1. cbn [w_redis set_redis].
    rewrite lookup_insert_eq. reflexivity. }
  destruct (t <? w_now w + 86400).
  - rewrite (access_guard_hit uid (session_id sd) sd _ Hu Hs Hup1 Hl).
    rewrite strict_eq_refl. reflexivity.
  - apply access_guard_miss; assumption.
Qed.

Lemma X6_session_lives_one_day_witness :
  fst (access_guard (VNum 1) (session_id session_A)
         (at_time 87400 (snd (cacheUserSession (VNum 1) session_A empty_world))))
  = DENIED_SessionInvalid.
Proof.
  apply (X6_session_lives_one_day (VNum 1) session_A empty_world 87400); reflexivity.
Defined.

(** X7. One session per account: caching a second session for an account
    replaces the first. With the store reachable, the session id of the
    first is then denied with [SESSION_INVALID] and that of the second is
    ALLOWED. *)
Theorem X7_newer_session_replaces_older (uid : value) (sd1 sd2 : sessionData) (w : world) :
  w_redis_up w = true -> truthy uid = true ->
  truthy (session_id sd1) = true -> truthy (session_id sd2) = true ->
  strict_eq (session_id sd2) (session_id sd1) = false ->
  let w2 := snd (cacheUserSession uid sd2 (snd (cacheUserSession uid sd1 w))) in
  fst (access_guard uid (session_id sd1) w2) = DENIED_SessionInvalid /\
  fst (access_guard uid (session_id sd2) w2) = ALLOWED uid.
Proof.
  intros Hup Hu H1 H2 Hne w2.
  destruct (cacheUserSession_up uid sd1 w Hup) as (Hup1 & _ & _).
  destruct (cacheUserSession_up uid sd2 _ Hup1) as (Hup2 & Hhit & _).
  fold w2 in Hup2, Hhit. split.
  - rewrite (access_guard_hit uid (session_id sd1) sd2 w2 Hu H1 Hup2 Hhit), Hne.
    reflexivity.
  - rewrite (access_guard_hit uid (session_id sd2) sd2 w2 Hu H2 Hup2 Hhit),
      strict_eq_refl. reflexivity.
Qed.

Lemma X7_newer_session_witness :
  let w2 := snd (cacheUserSession (VNum 1)
                   (mk_sessionData (VStr (js "token-B")) (VStr (js "auth-key-B")))
                   (snd (cacheUserSession (VNum 1) session_A empty_world))) in
  fst (access_guard (VNum 1) (session_id session_A) w2) = DENIED_SessionInvalid /\
  fst (access_guard (VNum 1) (VStr (js "token-B")) w2) = ALLOWED (VNum 1).
Proof.
  apply (X7_newer_session_replaces_older (VNum 1) session_A
           (mk_sessionData (VStr (js "token-B")) (VStr (js "auth-key-B"))) empty_world);
    reflexivity.
Defined.


(** X9. A session that holds an account id but no session id is turned
    away by every guard and cleared by none: [requireGuest] redirects it to
    [/messages], [requireAuth] answers 401 [AUTH_REQUIRED] and
    [requireAuthHTML] redirects it to [/login], each leaving the session
    and the store as they were. *)
Theorem X9_half_session_is_stuck (s : http_session) (w : world) :
  truthy (s_userId s) = true -> truthy (s_sessionId s) = false ->
  requireGuest s = Redirect "/messages" /\
  requireAuth s w = (Ok (Respond 401 "AUTH_REQUIRED", s), w) /\
  requireAuthHTML s w = (Ok (Redirect "/login", s), w).
Proof.
  intros Hu Hs. unfold requireGuest, requireAuthHTML, try_catch, ret.
  rewrite Hu, Hs. cbn [negb orb]. split; [reflexivity|]. split; [|reflexivity].
  apply requireAuth_missing. right. exact Hs.
Qed.

Lemma X9_half_session_witness :
  requireGuest (mk_http_session (VNum 1) VNull false) = Redirect "/messages" /\
  requireAuth (mk_http_session (VNum 1) VNull false) session_issued_world
    = (Ok (Respond 401 "AUTH_REQUIRED", mk_http_session (VNum 1) VNull false),
       session_issued_world) /\
  requireAuthHTML (mk_http_session (VNum 1) VNull false) session_issued_world
    = (Ok (Redirect "/login", mk_http_session (VNum 1) VNull false),
       session_issued_world).
Proof.
  apply (X9_half_session_is_stuck (mk_http_session (VNum 1) VNull false)
           session_issued_world); reflexivity.
Defined.

End SessionProperties.

(** ** Registration and login together *)

Module LoginFacts.

Import GuardFacts SessionFacts RegisterFacts.

(** *** The fault schedule *)

Lemma run_statement_faults (s : statement) (w : world) :
  w_mysql_faults (snd (run_statement s w)) = w_mysql_faults w.
Proof.
  destruct s; unfold run_statement;
    repeat match goal with
           | |- context [match ?x with _ => _ end] => destruct x
           end; reflexivity.
Qed.

Lemma keeps_ret {A} (a : A) : keeps_no_faults (ret a).
Proof. intros w H. exact H. Qed.

Lemma keeps_bind {A B} (c : M A) (k : A -> M B) :
  keeps_no_faults c -> (forall a, keeps_no_faults (k a)) -> keeps_no_faults (bind c k).
Proof.
  intros Hc Hk w H. unfold bind. specialize (Hc w H).
  destruct (c w) as [[a|e] w']; cbn [snd] in *; [apply Hk|]; exact Hc.
Qed.

Lemma keeps_try_catch {A} (c : M A) (h : string -> M A) :
  keeps_no_faults c -> (forall e, keeps_no_faults (h e)) -> keeps_no_faults (try_catch c h).
Proof.
  intros Hc Hh w H. unfold try_catch. specialize (Hc w H).
  destruct (c w) as [[a|e] w']; cbn [snd] in *; [|apply Hh]; exact Hc.
Qed.

Lemma keeps_mysql_execute (s : statement) : keeps_no_faults (mysql_execute s).
Proof.
  intros w H. unfold mysql_execute. rewrite H. cbn [hd tl].
  rewrite run_statement_faults. reflexivity.
Qed.

Lemma keeps_storeUserInMySQL_try (email password_hash : jsstring) :
  keeps_no_faults (storeUserInMySQL_try email password_hash).
Proof.
  unfold storeUserInMySQL_try.
  repeat first [ apply keeps_bind; [|intros ?]
               | apply keeps_try_catch; [|intros ?]
               | apply keeps_mysql_execute
               | apply keeps_ret ].
Qed.

(** *** [register] with every store but perhaps the cache answering *)

Lemma encryptUserData_fields (d : draws) (u : userData) (w : world) (e : encryptedData) :
  encryptUserData d u w = (Ok e, w) ->
  e_gender e = gender u /\ e_birth_date e = birthDate u.
Proof.
  unfold encryptUserData, bind, lift, ret.
  destruct (aesIGE_encrypt (d_iv_first_name d) (firstName u) (d_key d)); [|discriminate].
  destruct (aesIGE_encrypt (d_iv_last_name d) (lastName u) (d_key d)); [|discriminate].
  destruct (phone u) as [[|c p]|].
  - intros H. injection H as <-. split; reflexivity.
  - destruct (aesIGE_encrypt (d_iv_phone d) (c :: p) (d_key d)); [|discriminate].
    intros H. injection H as <-. split; reflexivity.
  - intros H. injection H as <-. split; reflexivity.
Qed.

Lemma register_all_up (d : draws) (u : userData) (w : world) :
  valid_draws d -> w_mysql_faults w = [] -> w_users_referenced w = false ->
  w_mongo_up w = true ->
  exists w1,
    register d u w
    = (Ok (mk_register_result true (VNum 1) (VStr (d_session_id d))),
       snd (cacheUserSession (VNum 1) (createSession d) w1)) /\
    stored_world d u w w1.
Proof.
  intros Hd Hf Hr Hmongo.
  destruct (register_by_cases d u w Hd) as (uid & w1 & e & He & _ & Huid & Hw1 & Hreg).
  destruct (encryptUserData_fields d u w e He) as (Hg & Hb).
  pose proof (storeUserInMySQL_try_no_faults (email u) (d_password_hash d) w Hf Hr) as Hok.
  pose proof (storeUserInMySQL_try_cases (email u) (d_password_hash d) w) as Hc.
  pose proof (keeps_storeUserInMySQL_try (email u) (d_password_hash d) w Hf) as Hf1.
  cbv zeta in Hc. rewrite <- Hw1 in Hc, Hf1. rewrite Hok in Huid, Hc.
  destruct Hc as ((Hnow & Href & Hprof & Hm & Hred & Hup & Hlog)
                  & [(_ & Hu) | ((er & Her) & _)]); [|discriminate Her].
  rewrite Hm, Hmongo in Hreg. subst uid.
  eexists. split; [exact Hreg|].
  unfold stored_world, storeUserProfileInMongoDB, bind, get_world, mongo_insertOne.
  rewrite Hm, Hmongo. cbn [snd].
  cbn [w_mysql_faults w_users_referenced w_mongo_up w_users w_now w_redis w_redis_up
       w_redis_log w_profiles set_profiles].
  rewrite Hg, Hb, Hnow, Hprof.
  repeat split; try assumption; congruence.
Qed.

(** With MongoDB unreachable [register] throws after the tables were rebuilt. *)
Lemma register_mongo_down (d : draws) (u : userData) (w : world) :
  valid_draws d -> w_mysql_faults w = [] -> w_users_referenced w = false ->
  w_mongo_up w = false ->
  exists w1,
    register d u w = (Err "Failed to register user: MongoNetworkError", w1) /\
    w_users w1
    = Some (mk_table users_columns
              [inserted_row (email u) (d_password_hash d) (w_now w)] 2) /\
    same_outside_mysql w w1.
Proof.
  intros Hd Hf Hr Hmongo.
  destruct (register_by_cases d u w Hd) as (uid & w1 & e & He & _ & Huid & Hw1 & Hreg).
  pose proof (storeUserInMySQL_try_no_faults (email u) (d_password_hash d) w Hf Hr) as Hok.
  pose proof (storeUserInMySQL_try_cases (email u) (d_password_hash d) w) as Hc.
  cbv zeta in Hc. rewrite <- Hw1 in Hc. rewrite Hok in Hc.
  destruct Hc as (Hsame & [(_ & Hu) | ((er & Her) & _)]); [|discriminate Her].
  assert (Hm : w_mongo_up w1 = false) by (destruct Hsame as (_ & _ & _ & -> & _); exact Hmongo).
  rewrite Hm in Hreg. exists w1. split; [exact Hreg|]. split; [exact Hu|exact Hsame].
Qed.

Lemma cacheUserSession_frame (uid : value) (sd : sessionData) (w : world) :
  let w' := snd (cacheUserSession uid sd w) in
  w_mysql_faults w' = w_mysql_faults w /\ w_users_referenced w' = w_users_referenced w /\
  w_mongo_up w' = w_mongo_up w /\ w_users w' = w_users w /\ w_now w' = w_now w /\
  w_redis_up w' = w_redis_up w /\ w_profiles w' = w_profiles w.
Proof.
  unfold cacheUserSession, try_catch, redis_setEx, ret.
  destruct (w_redis_up w) eqn:Hup; cbn [snd]; repeat split; assumption.
Qed.

(** *** [login] step by step *)

Lemma findUserInMySQL_rows (email : jsstring) (w : world) (t : table) :
  hd false (w_mysql_faults w) = false -> w_users w = Some t ->
  known_columns t ["email"%string] = true ->
  findUserInMySQL email w
  = (Ok (match filter (fun r => col r "email" = SText email) (t_rows t) with
         | r :: _ => Some (user_of_row (t_columns t) r)
         | [] => None
         end),
     set_mysql_faults (tl (w_mysql_faults w)) w).
Proof.
  intros Hf Hu Hk.
  unfold findUserInMySQL, bind, mysql_execute_select, select_users_by_email, ret.
  rewrite Hf. cbn [w_users set_mysql_faults]. rewrite Hu, Hk. cbn [negb].
  destruct (filter _ (t_rows t)); reflexivity.
Qed.

Lemma user_of_inserted_row (email password_hash : jsstring) (now : N) :
  user_of_row users_columns (inserted_row email password_hash now)
  = mk_db_user (VNum 1) (VStr password_hash) VNull VNull
      (mk_encryptedUser (VStr email) VNull VNull VNull VNull).
Proof. vm_compute. reflexivity. Qed.

Lemma inserted_row_email (email password_hash : jsstring) (now : N) :
  col (inserted_row email password_hash now) "email" = SText email.
Proof. vm_compute. reflexivity. Qed.

Section WithBcrypt.

Variable compare : jsstring -> jsstring -> bool.

(** [login] when no row carries the email. *)
Lemma login_not_found (email password : jsstring) (w : world) (t : table) :
  hd false (w_mysql_faults w) = false -> w_users w = Some t ->
  known_columns t ["email"%string] = true ->
  filter (fun r => col r "email" = SText email) (t_rows t) = [] ->
  login compare email password w
  = (Err "Failed to login: User not found",
     set_mysql_faults (tl (w_mysql_faults w)) w).
Proof.
  intros Hf Hu Hk Hnone. unfold login, try_catch, bind.
  rewrite (findUserInMySQL_rows email w t Hf Hu Hk), Hnone. reflexivity.
Qed.

(** [login] when the first row with the email holds a hash that [bcrypt]
    does not accept for the password. *)
Lemma login_bad_password (email password : jsstring) (w : world) (t : table)
    (r : row) (rest : list row) (h : jsstring) :
  hd false (w_mysql_faults w) = false -> w_users w = Some t ->
  known_columns t ["email"%string] = true ->
  filter (fun r => col r "email" = SText email) (t_rows t) = r :: rest ->
  prop (t_columns t) r "password_hash" = VStr h ->
  Nat.eqb (length h) 60 && compare password h = false ->
  login compare email password w
  = (Err "Failed to login: Invalid credentials",
     set_mysql_faults (tl (w_mysql_faults w)) w).
Proof.
  intros Hf Hu Hk Hrow Hh Hcmp. unfold login, try_catch, bind.
  rewrite (findUserInMySQL_rows email w t Hf Hu Hk), Hrow.
  unfold bcrypt_compare, user_of_row, ret, throw. cbn [du_password_hash].
  rewrite Hh, Hcmp. reflexivity.
Qed.

(** [login] for the account a registration has just stored: the session
    record is replaced before the profile is read. *)
Lemma login_stored (d : draws) (u : userData) (w0 w : world) :
  w_mysql_faults w = [] ->
  w_users w
  = Some (mk_table users_columns
            [inserted_row (email u) (d_password_hash d) (w_now w0)] 2) ->
  length (d_password_hash d) = 60%nat ->
  compare (password u) (d_password_hash d) = true ->
  exists doc,
    login compare (email u) (password u) w
    = (if w_mongo_up w
       then Ok (mk_login_result true
                  (mk_login_user (VNum 1)
                     (mk_profile (VStr (email u)) (VStr []) (VStr []) VNull) doc)
                  VNull VNull)
       else Err "Failed to login: MongoNetworkError",
       snd (cacheUserSession (VNum 1) (mk_sessionData VNull VNull) w)).
Proof.
  intros Hf Hu Hlen Hcmp.
  assert (Hw : set_mysql_faults (tl (w_mysql_faults w)) w = w).
  { destruct w. cbn in Hf. subst. reflexivity. }
  unfold login, try_catch, bind.
  rewrite (findUserInMySQL_rows (email u) w _ (eq_trans (f_equal (hd false) Hf) eq_refl)
             Hu eq_refl).
  cbn [t_rows t_columns]. rewrite Hw.
  rewrite filter_cons_True by apply inserted_row_email.
  rewrite user_of_inserted_row.
  unfold bcrypt_compare, ret. cbn [du_password_hash du_session_id du_auth_key
                                   du_encrypted du_id].
  rewrite Hlen, Hcmp. cbn [Nat.eqb andb negb].
  change (decryptUserData (mk_encryptedUser (VStr (email u)) VNull VNull VNull VNull) w)
    with (Ok (mk_profile (VStr (email u)) (VStr []) (VStr []) VNull), w).
  unfold restoreSession.
  destruct (cacheUserSession_total (VNum 1) (mk_sessionData VNull VNull) w)
    as (w' & Hc & _ & _).
  pose proof (cacheUserSession_frame (VNum 1) (mk_sessionData VNull VNull) w)
    as (_ & _ & Hm' & _).
  rewrite Hc in Hm' |- *. cbn [snd] in Hm' |- *.
  unfold getUserProfileFromMongoDB, mongo_findOne. rewrite Hm'.
  destruct (w_mongo_up w); [eexists; reflexivity|exists None; reflexivity].
Qed.

End WithBcrypt.

End LoginFacts.

Section RegistrationProperties.

Import GuardFacts SessionFacts RegisterFacts LoginFacts CipherMore.

(** X10. The pair of account id and session id that a successful
    [register] returns passes the guard while the store is reachable, with
    one exception: when MySQL failed and the dummy id drawn is 0, the id is
    falsy and the guard answers [AUTH_REQUIRED]. *)
Theorem X10_registered_session_passes_unless_id_zero
    (d : draws) (u : userData) (w : world) :
  valid_draws d -> w_mongo_up w = true -> w_redis_up w = true ->
  d_session_id d <> [] ->
  exists uid w',
    register d u w
    = (Ok (mk_register_result true (VNum uid) (VStr (d_session_id d))), w') /\
    fst (access_guard (VNum uid) (VStr (d_session_id d)) w')
    = if (uid =? 0)%Z then DENIED_AuthRequired else ALLOWED (VNum uid).
Proof.
  intros Hd Hmongo Hup Hsid.
  destruct (register_by_cases d u w Hd) as (uid & w1 & e & _ & _ & Huid & Hw1 & Hreg).
  pose proof (storeUserInMySQL_try_cases (email u) (d_password_hash d) w) as Hc.
  cbv zeta in Hc. rewrite <- Hw1 in Hc.
  destruct Hc as ((_ & _ & _ & Hm & _ & Hup1 & _) & Hcase).
  rewrite Hm, Hmongo in Hreg.
  assert (Hn : exists n, uid = VNum n).
  { destruct Hcase as [(Hok & _) | ((er & Her) & _)].
    - rewrite Hok in Huid. eauto.
    - rewrite Her in Huid. eauto. }
  destruct Hn as (n & ->). exists n. eexists. split; [exact Hreg|].
  set (w2 := snd (storeUserProfileInMongoDB (VNum n) e (d_session_id d) w1)).
  assert (Hup2 : w_redis_up w2 = true).
  { subst w2. unfold storeUserProfileInMongoDB, bind, get_world, mongo_insertOne.
    rewrite Hm, Hmongo. cbn [snd w_redis_up set_profiles]. congruence. }
  destruct (cacheUserSession_up (VNum n) (createSession d) w2 Hup2) as (Hup3 & Hhit & _).
  destruct (Z.eqb_spec n 0) as [->|Hne].
  - rewrite access_guard_missing; [reflexivity|]. left. reflexivity.
  - rewrite (access_guard_hit (VNum n) (VStr (d_session_id d)) (createSession d));
      [| |apply truthy_nonempty; exact Hsid|exact Hup3|exact Hhit].
    + cbn [createSession session_id]. rewrite strict_eq_refl. reflexivity.
    + cbn [truthy]. apply negb_true_iff, Z.eqb_neq. exact Hne.
Qed.

Lemma X10_registered_session_witness :
  exists uid w',
    register second_draws second_user mysql_down_world
    = (Ok (mk_register_result true (VNum uid) (VStr (d_session_id second_draws))), w') /\
    fst (access_guard (VNum uid) (VStr (d_session_id second_draws)) w')
    = if (uid =? 0)%Z then DENIED_AuthRequired else ALLOWED (VNum uid).
Proof.
  apply (X10_registered_session_passes_unless_id_zero second_draws second_user
           mysql_down_world).
  - unfold valid_draws. repeat split; reflexivity.
  - reflexivity.
  - reflexivity.
  - discriminate.
Defined.

(** X11. [register] is not atomic. When MySQL answers and MongoDB does
    not, [register] throws, but the [users] table has already been dropped
    and rebuilt: it holds the new row and nothing else. No profile document
    is written and the cache is not touched. *)
Theorem X11_failed_registration_replaces_accounts
    (d : draws) (u : userData) (w : world) :
  valid_draws d -> w_mysql_faults w = [] -> w_users_referenced w = false ->
  w_mongo_up w = false ->
  let w' := snd (register d u w) in
  fst (register d u w) = Err "Failed to register user: MongoNetworkError" /\
  users_rows w' = [inserted_row (email u) (d_password_hash d) (w_now w)] /\
  w_profiles w' = w_profiles w /\ w_redis w' = w_redis w /\
  w_redis_log w' = w_redis_log w.
Proof.
  intros Hd Hf Hr Hmongo.
  destruct (register_mongo_down d u w Hd Hf Hr Hmongo)
    as (w1 & Hreg & Hu & (_ & _ & Hp & _ & Hred & _ & Hlog)).
  cbv zeta. rewrite Hreg. cbn [fst snd]. unfold users_rows. rewrite Hu.
  repeat split; assumption.
Qed.

Lemma X11_failed_registration_witness :
  let w' := snd (register example_draws example_user mongo_down_world) in
  fst (register example_draws example_user mongo_down_world)
    = Err "Failed to register user: MongoNetworkError" /\
  users_rows w'
    = [inserted_row (email example_user) (d_password_hash example_draws)
         (w_now mongo_down_world)] /\
  w_profiles w' = w_profiles mongo_down_world /\
  w_redis w' = w_redis mongo_down_world /\
  w_redis_log w' = w_redis_log mongo_down_world.
Proof.
  apply (X11_failed_registration_replaces_accounts example_draws example_user
           mongo_down_world).
  - unfold valid_draws. repeat split; reflexivity.
  - reflexivity.
  - reflexivity.
  - reflexivity.
Defined.

(** X12. When the cache is unreachable during [register], the call still
    returns success with a session id, but nothing is cached: the cache is
    as before, and once the store answers again the guard denies the new
    session with [SESSION_INVALID] (no earlier record of that account being
    left). *)
Theorem X12_registration_without_cache (d : draws) (u : userData) (w : world) :
  valid_draws d -> w_mysql_faults w = [] -> w_users_referenced w = false ->
  w_mongo_up w = true -> w_redis_up w = false -> d_session_id d <> [] ->
  redis_lookup w (session_key (VNum 1)) = None ->
  let w' := snd (register d u w) in
  fst (register d u w)
    = Ok (mk_register_result true (VNum 1) (VStr (d_session_id d))) /\
  w_redis w' = w_redis w /\
  fst (access_guard (VNum 1) (VStr (d_session_id d)) (set_redis_up true w'))
    = DENIED_SessionInvalid.
Proof.
  intros Hd Hf Hr Hmongo Hdown Hsid Hmiss.
  destruct (register_all_up d u w Hd Hf Hr Hmongo)
    as (w1 & Hreg & (_ & _ & _ & _ & Hnow & Hred & Hup1 & _)).
  cbv zeta. rewrite Hreg. cbn [fst snd].
  rewrite cacheUserSession_down by congruence. cbn [snd].
  split; [reflexivity|]. split; [exact Hred|].
  apply access_guard_miss; [reflexivity|apply truthy_nonempty; exact Hsid|reflexivity|].
  unfold redis_lookup in *. cbn [w_redis w_now set_redis_up log_redis].
  rewrite Hred, Hnow. exact Hmiss.
Qed.

Lemma X12_registration_without_cache_witness :
  let w' := snd (register login_draws example_user (set_redis_up false empty_world)) in
  fst (register login_draws example_user (set_redis_up false empty_world))
    = Ok (mk_register_result true (VNum 1) (VStr (d_session_id login_draws))) /\
  w_redis w' = w_redis (set_redis_up false empty_world) /\
  fst (access_guard (VNum 1) (VStr (d_session_id login_draws)) (set_redis_up true w'))
    = DENIED_SessionInvalid.
Proof.
  apply (X12_registration_without_cache login_draws example_user
           (set_redis_up false empty_world)).
  - unfold valid_draws. repeat split; reflexivity.
  - reflexivity.
  - reflexivity.
  - reflexivity.
  - reflexivity.
  - discriminate.
  - reflexivity.
Defined.

(** X13. Every stored registration gets account id 1, because the table
    is rebuilt each time. After two registrations in a row, with every store
    answering, the table holds only the second account, both callers were
    told id 1, and the record cached under [session:1] is the second one:
    the first session is denied with [SESSION_INVALID], the second is
    ALLOWED. *)
Theorem X13_second_registration_takes_over
    (d1 d2 : draws) (u1 u2 : userData) (w : world) :
  valid_draws d1 -> valid_draws d2 ->
  w_mysql_faults w = [] -> w_users_referenced w = false ->
  w_mongo_up w = true -> w_redis_up w = true ->
  d_session_id d1 <> [] -> d_session_id d2 <> [] ->
  d_session_id d2 <> d_session_id d1 ->
  let w1 := snd (register d1 u1 w) in
  let w2 := snd (register d2 u2 w1) in
  fst (register d1 u1 w)
    = Ok (mk_register_result true (VNum 1) (VStr (d_session_id d1))) /\
  fst (register d2 u2 w1)
    = Ok (mk_register_result true (VNum 1) (VStr (d_session_id d2))) /\
  users_rows w2 = [inserted_row (email u2) (d_password_hash d2) (w_now w)] /\
  fst (access_guard (VNum 1) (VStr (d_session_id d1)) w2) = DENIED_SessionInvalid /\
  fst (access_guard (VNum 1) (VStr (d_session_id d2)) w2) = ALLOWED (VNum 1).
Proof.
  intros Hd1 Hd2 Hf Hr Hmongo Hup Hs1 Hs2 Hne.
  destruct (register_all_up d1 u1 w Hd1 Hf Hr Hmongo)
    as (x1 & Hreg1 & (Hf1 & Hr1 & Hm1 & _ & Hnow1 & _ & Hup1 & _)).
  cbv zeta. rewrite Hreg1. cbn [fst snd].
  set (w1 := snd (cacheUserSession (VNum 1) (createSession d1) x1)).
  destruct (cacheUserSession_frame (VNum 1) (createSession d1) x1)
    as (Ff & Fr & Fm & _ & Fnow & Fup & _).
  fold w1 in Ff, Fr, Fm, Fnow, Fup.
  destruct (register_all_up d2 u2 w1 Hd2) as (x2 & Hreg2 & (_ & _ & _ & Hu2 & _ & _ & Hup2 & _));
    [congruence|congruence|congruence|].
  rewrite Hreg2. cbn [fst snd].
  set (w2 := snd (cacheUserSession (VNum 1) (createSession d2) x2)).
  destruct (cacheUserSession_frame (VNum 1) (createSession d2) x2) as (_ & _ & _ & Gu & _).
  fold w2 in Gu.
  assert (Hx2 : w_redis_up x2 = true) by congruence.
  destruct (cacheUserSession_up (VNum 1) (createSession d2) x2 Hx2) as (Hup3 & Hhit & _).
  fold w2 in Hup3, Hhit.
  split; [reflexivity|]. split; [reflexivity|]. split.
  - unfold users_rows. rewrite Gu, Hu2. cbn [t_rows]. congruence.
  - split.
    + rewrite (access_guard_hit (VNum 1) (VStr (d_session_id d1)) (createSession d2) w2);
        [|reflexivity|apply truthy_nonempty; exact Hs1|exact Hup3|exact Hhit].
      cbn [createSession session_id strict_eq].
      rewrite bool_decide_eq_false_2 by exact Hne. reflexivity.
    + rewrite (access_guard_hit (VNum 1) (VStr (d_session_id d2)) (createSession d2) w2);
        [|reflexivity|apply truthy_nonempty; exact Hs2|exact Hup3|exact Hhit].
      cbn [createSession session_id]. rewrite strict_eq_refl. reflexivity.
Qed.

Lemma X13_second_registration_witness :
  let w1 := snd (register login_draws example_user empty_world) in
  let w2 := snd (register second_draws second_user w1) in
  fst (register login_draws example_user empty_world)
    = Ok (mk_register_result true (VNum 1) (VStr (d_session_id login_draws))) /\
  fst (register second_draws second_user w1)
    = Ok (mk_register_result true (VNum 1) (VStr (d_session_id second_draws))) /\
  users_rows w2
    = [inserted_row (email second_user) (d_password_hash second_draws)
         (w_now empty_world)] /\
  fst (access_guard (VNum 1) (VStr (d_session_id login_draws)) w2)
    = DENIED_SessionInvalid /\
  fst (access_guard (VNum 1) (VStr (d_session_id second_draws)) w2) = ALLOWED (VNum 1).
Proof.
  apply (X13_second_registration_takes_over login_draws second_draws
           example_user second_user empty_world).
  - unfold valid_draws. repeat split; reflexivity.
  - unfold valid_draws. repeat split; reflexivity.
  - reflexivity.
  - reflexivity.
  - reflexivity.
  - reflexivity.
  - discriminate.
  - discriminate.
  - discriminate.
Defined.

End RegistrationProperties.

Section LoginProperties.

Import GuardFacts SessionFacts RegisterFacts LoginFacts CipherMore.

Variable compare : jsstring -> jsstring -> bool.

(** X14. [login] tells an unknown email from a wrong password by the
    message of the error it throws, ["Failed to login: User not found"] or
    ["Failed to login: Invalid credentials"], and in both cases it stops
    before the cache is written: no session is cached, no Redis command is
    issued, and the tables and profile documents are as before. *)
Theorem X14_login_rejections (email password : jsstring) (w : world) (t : table) :
  hd false (w_mysql_faults w) = false -> w_users w = Some t ->
  known_columns t ["email"%string] = true ->
  let found := filter (fun r => col r "email" = SText email) (t_rows t) in
  let res := login compare email password w in
  (found = [] -> fst res = Err "Failed to login: User not found") /\
  (forall r rest h,
      found = r :: rest -> prop (t_columns t) r "password_hash" = VStr h ->
      Nat.eqb (length h) 60 && compare password h = false ->
      fst res = Err "Failed to login: Invalid credentials") /\
  (found = [] \/
   (exists r rest h,
      found = r :: rest /\ prop (t_columns t) r "password_hash" = VStr h /\
      Nat.eqb (length h) 60 && compare password h = false) ->
   w_redis (snd res) = w_redis w /\ w_redis_log (snd res) = w_redis_log w /\
   w_users (snd res) = w_users w /\ w_profiles (snd res) = w_profiles w).
Proof.
  intros Hf Hu Hk found res. subst found res. split; [|split].
  - intros Hnone. rewrite (login_not_found compare email password w t Hf Hu Hk Hnone).
    reflexivity.
  - intros r rest h Hrow Hh Hcmp.
    rewrite (login_bad_password compare email password w t r rest h Hf Hu Hk Hrow Hh Hcmp).
    reflexivity.
  - intros [Hnone | (r & rest & h & Hrow & Hh & Hcmp)].
    + rewrite (login_not_found compare email password w t Hf Hu Hk Hnone).
      repeat split.
    + rewrite (login_bad_password compare email password w t r rest h Hf Hu Hk Hrow Hh Hcmp).
      repeat split.
Qed.

(** X15. Logging in after registering. [storeUserInMySQL] inserts only
    the email and the password hash, so the row [login] reads has no session
    id, no auth key, no field key and no names: with every store answering
    and the password accepted, [login] succeeds for account 1 and returns
    [null] as session id and as token, and empty first and last names. *)
Theorem X15_login_after_register_returns_no_session
    (d : draws) (u : userData) (w : world) :
  valid_draws d -> w_mysql_faults w = [] -> w_users_referenced w = false ->
  w_mongo_up w = true ->
  length (d_password_hash d) = 60%nat ->
  compare (password u) (d_password_hash d) = true ->
  exists doc w2,
    login compare (email u) (password u) (snd (register d u w))
    = (Ok (mk_login_result true
             (mk_login_user (VNum 1)
                (mk_profile (VStr (email u)) (VStr []) (VStr []) VNull) doc)
             VNull VNull), w2).
Proof.
  intros Hd Hf Hr Hmongo Hlen Hcmp.
  destruct (register_all_up d u w Hd Hf Hr Hmongo)
    as (x1 & Hreg & (Hf1 & _ & Hm1 & Hu1 & _)).
  rewrite Hreg. cbn [snd].
  destruct (cacheUserSession_frame (VNum 1) (createSession d) x1)
    as (Ff & _ & Fm & Fu & _).
  destruct (login_stored compare d u w
              (snd (cacheUserSession (VNum 1) (createSession d) x1)))
    as (doc & Hlogin); [congruence|congruence|exact Hlen|exact Hcmp|].
  replace (w_mongo_up (snd (cacheUserSession (VNum 1) (createSession d) x1)))
    with true in Hlogin by congruence.
  eexists _, _. exact Hlogin.
Qed.

(** X16. What that login does to the sessions of the account. Before it,
    the session issued by [register] passes the guard. [login] overwrites
    the cached record with one whose session id is [null]: afterwards the
    session of the registration is denied with [SESSION_INVALID], and the
    pair that [login] itself returned is denied with [AUTH_REQUIRED]. *)
Theorem X16_login_after_register_locks_the_account_out
    (d : draws) (u : userData) (w : world) :
  valid_draws d -> w_mysql_faults w = [] -> w_users_referenced w = false ->
  w_mongo_up w = true -> w_redis_up w = true -> d_session_id d <> [] ->
  length (d_password_hash d) = 60%nat ->
  compare (password u) (d_password_hash d) = true ->
  let w1 := snd (register d u w) in
  let w2 := snd (login compare (email u) (password u) w1) in
  fst (access_guard (VNum 1) (VStr (d_session_id d)) w1) = ALLOWED (VNum 1) /\
  fst (access_guard (VNum 1) (VStr (d_session_id d)) w2) = DENIED_SessionInvalid /\
  fst (access_guard (VNum 1) VNull w2) = DENIED_AuthRequired.
Proof.
  intros Hd Hf Hr Hmongo Hup Hsid Hlen Hcmp.
  destruct (register_all_up d u w Hd Hf Hr Hmongo)
    as (x1 & Hreg & (Hf1 & _ & Hm1 & Hu1 & _ & _ & Hup1 & _)).
  cbv zeta. rewrite Hreg. cbn [snd].
  set (w1 := snd (cacheUserSession (VNum 1) (createSession d) x1)).
  destruct (cacheUserSession_frame (VNum 1) (createSession d) x1)
    as (Ff & _ & Fm & Fu & _).
  fold w1 in Ff, Fm, Fu.
  assert (Hx1 : w_redis_up x1 = true) by congruence.
  destruct (cacheUserSession_up (VNum 1) (createSession d) x1 Hx1) as (Hupw1 & Hhit1 & _).
  fold w1 in Hupw1, Hhit1.
  destruct (login_stored compare d u w w1) as (doc & Hlogin);
    [congruence|congruence|exact Hlen|exact Hcmp|].
  rewrite Hlogin. cbn [snd].
  destruct (cacheUserSession_up (VNum 1) (mk_sessionData VNull VNull) w1 Hupw1)
    as (Hup2 & Hhit2 & _).
  split; [|split].
  - rewrite (access_guard_hit (VNum 1) (VStr (d_session_id d)) (createSession d) w1);
      [|reflexivity|apply truthy_nonempty; exact Hsid|exact Hupw1|exact Hhit1].
    cbn [createSession session_id]. rewrite strict_eq_refl. reflexivity.
  - rewrite (access_guard_hit (VNum 1) (VStr (d_session_id d))
               (mk_sessionData VNull VNull));
      [reflexivity|reflexivity|apply truthy_nonempty; exact Hsid|exact Hup2|exact Hhit2].
  - rewrite access_guard_missing; [reflexivity|]. right. reflexivity.
Qed.


End LoginProperties.

Section LoginExamples.

Lemma X14_login_rejections_witness :
  let found := filter (fun r => col r "email" = SText (js "zz@x.com"))
                 (t_rows (mk_table users_columns
                            [inserted_row (js "a@x.com") example_hash 1000] 2)) in
  let res := login example_compare (js "zz@x.com") (js "guess") stored_account_world in
  (found = [] -> fst res = Err "Failed to login: User not found") /\
  (forall r rest h,
      found = r :: rest -> prop users_columns r "password_hash" = VStr h ->
      Nat.eqb (length h) 60 && example_compare (js "guess") h = false ->
      fst res = Err "Failed to login: Invalid credentials") /\
  (found = [] \/
   (exists r rest h,
      found = r :: rest /\ prop users_columns r "password_hash" = VStr h /\
      Nat.eqb (length h) 60 && example_compare (js "guess") h = false) ->
   w_redis (snd res) = w_redis stored_account_world /\
   w_redis_log (snd res) = w_redis_log stored_account_world /\
   w_users (snd res) = w_users stored_account_world /\
   w_profiles (snd res) = w_profiles stored_account_world).
Proof.
  apply (X14_login_rejections example_compare (js "zz@x.com") (js "guess")
           stored_account_world
           (mk_table users_columns [inserted_row (js "a@x.com") example_hash 1000] 2)).
  - reflexivity.
  - reflexivity.
  - reflexivity.
Defined.

Lemma X15_login_after_register_witness :
  exists doc w2,
    login example_compare (email example_user) (password example_user)
      (snd (register login_draws example_user empty_world))
    = (Ok (mk_login_result true
             (mk_login_user (VNum 1)
                (mk_profile (VStr (email example_user)) (VStr []) (VStr []) VNull) doc)
             VNull VNull), w2).
Proof.
  apply (X15_login_after_register_returns_no_session example_compare login_draws
           example_user empty_world).
  - unfold valid_draws. repeat split; reflexivity.
  - reflexivity.
  - reflexivity.
  - reflexivity.
  - reflexivity.
  - reflexivity.
Defined.

Lemma X16_login_after_register_witness :
  let w1 := snd (register login_draws example_user empty_world) in
  let w2 := snd (login example_compare (email example_user) (password example_user) w1) in
  fst (access_guard (VNum 1) (VStr (d_session_id login_draws)) w1) = ALLOWED (VNum 1) /\
  fst (access_guard (VNum 1) (VStr (d_session_id login_draws)) w2)
    = DENIED_SessionInvalid /\
  fst (access_guard (VNum 1) VNull w2) = DENIED_AuthRequired.
Proof.
  apply (X16_login_after_register_locks_the_account_out example_compare login_draws
           example_user empty_world).
  - unfold valid_draws. repeat split; reflexivity.
  - reflexivity.
  - reflexivity.
  - reflexivity.
  - reflexivity.
  - discriminate.
  - reflexivity.
  - reflexivity.
Defined.


End LoginExamples.

(** ** [UserRepository.delete] *)

Module RepositoryFacts.

Import ProfileFacts.

Lemma delete_effect (id : value) (w : world) (t : table) :
  hd false (w_mysql_faults w) = false -> w_users w = Some t ->
  known_columns t ["is_active"; "updated_at"]%string = true ->
  UserRepository.delete id w
  = (Ok tt,
     set_users
       (Some (mk_table (t_columns t)
                (map (fun r => if row_id_is (sql_param id) r
                               then assign (deactivation (w_now w)) r else r)
                   (t_rows t))
                (t_auto_inc t)))
       (set_mysql_faults (tl (w_mysql_faults w)) w)).
Proof.
  intros Hf Hu Hk.
  unfold UserRepository.delete, bind, get_world, mysql_execute, run_statement, ret.
  rewrite Hf. cbn [w_users set_mysql_faults]. rewrite Hu.
  cbn [map fst]. rewrite Hk. cbn [negb].
  change (assigned_email _) with (@None sqlval). cbv beta iota.
  reflexivity.
Qed.

Lemma deactivation_keeps (now : N) (r : row) (c : string) :
  c <> "is_active"%string -> c <> "updated_at"%string ->
  col (assign (deactivation now) r) c = col r c.
Proof.
  intros H1 H2. unfold col. rewrite assign_other; [reflexivity|].
  cbn [deactivation map fst]. intros H.
  repeat (apply elem_of_cons in H as [H|H]; [congruence|]). inversion H.
Qed.

Lemma deactivation_sets (now : N) (r : row) :
  col (assign (deactivation now) r) "is_active" = SInt 0.
Proof.
  unfold col, assign, deactivation. cbn [fold_left fst snd].
  rewrite (lookup_insert_ne (<["is_active"%string := SInt 0]> r)
             "updated_at"%string "is_active"%string) by discriminate.
  rewrite (lookup_insert_eq r "is_active"%string). reflexivity.
Qed.

End RepositoryFacts.

Section RepositoryProperties.

Import RepositoryFacts.

(** X18. [UserRepository.delete] removes nothing. When the statement runs,
    the table afterwards has the same rows in the same order with the same
    ids and emails, so the email of a deleted account stays taken; the rows
    with the given id have [is_active = 0], and every other row is
    untouched. *)
Theorem X18_delete_keeps_the_row (id : value) (w : world) (t : table) :
  hd false (w_mysql_faults w) = false -> w_users w = Some t ->
  known_columns t ["is_active"; "updated_at"]%string = true ->
  exists t',
    fst (UserRepository.delete id w) = Ok tt /\
    w_users (snd (UserRepository.delete id w)) = Some t' /\
    map (fun r => col r "id") (t_rows t') = map (fun r => col r "id") (t_rows t) /\
    map (fun r => col r "email") (t_rows t') = map (fun r => col r "email") (t_rows t) /\
    Forall (fun r => row_id_is (sql_param id) r = true -> col r "is_active" = SInt 0)
      (t_rows t') /\
    (forall r, r ∈ t_rows t -> row_id_is (sql_param id) r = false -> r ∈ t_rows t').
Proof.
  intros Hf Hu Hk. rewrite (delete_effect id w t Hf Hu Hk). cbn [fst snd].
  eexists. split; [reflexivity|]. split; [reflexivity|]. cbn [t_rows].
  split; [|split; [|split]].
  - rewrite List.map_map. apply map_ext. intros r.
    destruct (row_id_is (sql_param id) r); [|reflexivity].
    apply deactivation_keeps; discriminate.
  - rewrite List.map_map. apply map_ext. intros r.
    destruct (row_id_is (sql_param id) r); [|reflexivity].
    apply deactivation_keeps; discriminate.
  - apply Forall_forall. intros r' Hin.
    apply list_elem_of_In, in_map_iff in Hin as (r & <- & _).
    destruct (row_id_is (sql_param id) r) eqn:Hhit.
    + intros _. apply deactivation_sets.
    + intros H. congruence.
  - intros r Hin Hmiss. apply list_elem_of_In, in_map_iff.
    exists r. rewrite Hmiss. split; [reflexivity|]. apply list_elem_of_In. exact Hin.
Qed.

Lemma X18_delete_keeps_the_row_witness :
  exists t',
    fst (UserRepository.delete (VNum 1) repository_world) = Ok tt /\
    w_users (snd (UserRepository.delete (VNum 1) repository_world)) = Some t' /\
    map (fun r => col r "id") (t_rows t') = [SInt 1] /\
    map (fun r => col r "email") (t_rows t') = [SText (js "a@x.com")] /\
    Forall (fun r => row_id_is (sql_param (VNum 1)) r = true ->
                     col r "is_active" = SInt 0) (t_rows t') /\
    (forall r, r ∈ [assign [("username"%string, SText (js "alice"));
                            ("is_active"%string, SInt 1)]
                      (user_row 1 (js "a@x.com") (js "$2b$12$old-hash"))] ->
               row_id_is (sql_param (VNum 1)) r = false -> r ∈ t_rows t').
Proof.
  apply (X18_delete_keeps_the_row (VNum 1) repository_world
           (mk_table
              (UserService.findById_columns ++ ["password_hash"; "updated_at"]%string)
              [assign [("username"%string, SText (js "alice"));
                       ("is_active"%string, SInt 1)]
                 (user_row 1 (js "a@x.com") (js "$2b$12$old-hash"))] 2));
    reflexivity.
Defined.

End RepositoryProperties.

(** ** Registration against the other services *)

Module IntegrationFacts.

Import ProfileFacts UserService.

Lemma findById_unknown_column (id : value) (w : world) (t : table) :
  hd false (w_mysql_faults w) = false -> w_users w = Some t ->
  known_columns t findById_columns = false ->
  fst (findById id w) = Err "Unknown column".
Proof.
  intros Hf Hu Hk. unfold findById, bind, mysql_execute, run_statement.
  rewrite Hf. cbn [w_users set_mysql_faults]. rewrite Hu, Hk. reflexivity.
Qed.

Lemma plain_assignments_unknown (now : N) (data : list (string * value)) (t : table) :
  existsb (String.eqb "updatedAt") (t_columns t) = false ->
  known_columns t (map fst (plain_assignments now data)) = false.
Proof.
  intros H. unfold known_columns, plain_assignments.
  rewrite map_app, forallb_app. cbn [map fst forallb]. rewrite H.
  cbn [andb]. apply andb_false_r.
Qed.

Lemma updateProfile_unknown_column (id : value) (data : list (string * value))
    (w : world) (t : table) :
  hd false (w_mysql_faults w) = false -> w_users w = Some t ->
  existsb (String.eqb "updatedAt") (t_columns t) = false ->
  fst (updateProfile id data w) = Err "Unknown column".
Proof.
  intros Hf Hu Hk. rewrite updateProfile_unfold.
  unfold mysql_execute, run_statement. rewrite Hf.
  cbn [w_users set_mysql_faults]. rewrite Hu.
  rewrite (plain_assignments_unknown _ _ _ Hk). reflexivity.
Qed.

End IntegrationFacts.

Section IntegrationProperties.

Import GuardFacts SessionFacts RegisterFacts LoginFacts CipherMore IntegrationFacts.

(** X19. The table [register] rebuilds has none of the columns
    [username], [display_name], [bio], ... that [UserRepository] selects and
    no column [updatedAt]. So after a stored registration, on the same
    database, [UserRepository.findById], [UserService.getProfile] and
    [UserService.updateProfile] fail for every id with the error for an
    unknown column. *)
Theorem X19_profile_calls_fail_after_registration
    (d : draws) (u : userData) (w : world) (id : value)
    (data : list (string * value)) :
  valid_draws d -> w_mysql_faults w = [] -> w_users_referenced w = false ->
  w_mongo_up w = true ->
  let w' := snd (register d u w) in
  fst (UserService.findById id w') = Err "Unknown column" /\
  fst (UserProfiles.getProfile id w') = Err "Unknown column" /\
  fst (UserService.updateProfile id data w') = Err "Unknown column".
Proof.
  intros Hd Hf Hr Hmongo.
  destruct (register_all_up d u w Hd Hf Hr Hmongo) as (x1 & Hreg & (Hf1 & _ & _ & Hu1 & _)).
  cbv zeta. rewrite Hreg. cbn [snd].
  set (w' := snd (cacheUserSession (VNum 1) (createSession d) x1)).
  destruct (cacheUserSession_frame (VNum 1) (createSession d) x1)
    as (Ff & _ & _ & Fu & _).
  fold w' in Ff, Fu.
  assert (Hf' : hd false (w_mysql_faults w') = false) by (rewrite Ff, Hf1; reflexivity).
  assert (Hu' : w_users w' = Some (mk_table users_columns
                  [inserted_row (email u) (d_password_hash d) (w_now w)] 2))
    by congruence.
  pose proof (findById_unknown_column id w' _ Hf' Hu' eq_refl) as Hfind.
  split; [exact Hfind|]. split.
  - unfold UserProfiles.getProfile, try_catch, bind, throw.
    destruct (UserService.findById id w') as [[r|e] w2]; cbn [fst] in Hfind;
      [discriminate Hfind|]. cbn [fst]. congruence.
  - exact (updateProfile_unknown_column id data w' _ Hf' Hu' eq_refl).
Qed.

Lemma X19_profile_calls_fail_witness :
  let w' := snd (register login_draws example_user empty_world) in
  fst (UserService.findById (VNum 1) w') = Err "Unknown column" /\
  fst (UserProfiles.getProfile (VNum 1) w') = Err "Unknown column" /\
  fst (UserService.updateProfile (VNum 1) [("bio"%string, VStr (js "hello"))] w')
    = Err "Unknown column".
Proof.
  apply (X19_profile_calls_fail_after_registration login_draws example_user
           empty_world (VNum 1) [("bio"%string, VStr (js "hello"))]).
  - unfold valid_draws. repeat split; reflexivity.
  - reflexivity.
  - reflexivity.
  - reflexivity.
Defined.

Variable compare : jsstring -> jsstring -> bool.

(** X20. [login] is not atomic either. If MongoDB has become unreachable
    after a registration, a login with the right password throws, but it has
    already replaced the cached session of the account: the session issued
    by [register], ALLOWED before the attempt, is denied with
    [SESSION_INVALID] after it. *)
Theorem X20_failed_login_replaces_session (d : draws) (u : userData) (w : world) :
  valid_draws d -> w_mysql_faults w = [] -> w_users_referenced w = false ->
  w_mongo_up w = true -> w_redis_up w = true -> d_session_id d <> [] ->
  length (d_password_hash d) = 60%nat ->
  compare (password u) (d_password_hash d) = true ->
  let w1 := mongo_outage (snd (register d u w)) in
  let w2 := snd (login compare (email u) (password u) w1) in
  fst (login compare (email u) (password u) w1)
    = Err "Failed to login: MongoNetworkError" /\
  fst (access_guard (VNum 1) (VStr (d_session_id d)) w1) = ALLOWED (VNum 1) /\
  fst (access_guard (VNum 1) (VStr (d_session_id d)) w2) = DENIED_SessionInvalid.
Proof.
  intros Hd Hf Hr Hmongo Hup Hsid Hlen Hcmp.
  destruct (register_all_up d u w Hd Hf Hr Hmongo)
    as (x1 & Hreg & (Hf1 & _ & _ & Hu1 & _ & _ & Hup1 & _)).
  cbv zeta. rewrite Hreg. cbn [snd].
  set (w0 := snd (cacheUserSession (VNum 1) (createSession d) x1)).
  destruct (cacheUserSession_frame (VNum 1) (createSession d) x1)
    as (Ff & _ & _ & Fu & _).
  fold w0 in Ff, Fu.
  assert (Hx1 : w_redis_up x1 = true) by congruence.
  destruct (cacheUserSession_up (VNum 1) (createSession d) x1 Hx1) as (Hup0 & Hhit0 & _).
  fold w0 in Hup0, Hhit0.
  set (w1 := mongo_outage w0).
  assert (Hup1' : w_redis_up w1 = true) by exact Hup0.
  assert (Hhit1 : redis_lookup w1 (session_key (VNum 1))
                  = Some (JSON_stringify (createSession d))) by exact Hhit0.
  destruct (login_stored compare d u w w1) as (doc & Hlogin);
    [exact (eq_trans Ff Hf1)|exact (eq_trans Fu Hu1)|exact Hlen|exact Hcmp|].
  change (w_mongo_up w1) with false in Hlogin.
  rewrite Hlogin. cbn [fst snd].
  destruct (cacheUserSession_up (VNum 1) (mk_sessionData VNull VNull) w1 Hup1')
    as (Hup2 & Hhit2 & _).
  split; [reflexivity|]. split.
  - rewrite (access_guard_hit (VNum 1) (VStr (d_session_id d)) (createSession d) w1);
      [|reflexivity|apply truthy_nonempty; exact Hsid|exact Hup1'|exact Hhit1].
    cbn [createSession session_id]. rewrite strict_eq_refl. reflexivity.
  - rewrite (access_guard_hit (VNum 1) (VStr (d_session_id d))
               (mk_sessionData VNull VNull));
      [reflexivity|reflexivity|apply truthy_nonempty; exact Hsid|exact Hup2|exact Hhit2].
Qed.

(** X21. [checkAuth] does not consult the cache: it reports a session as
    authenticated whenever both ids are present on it. So it agrees with the
    guard on every session the guard allows, but also reports as
    authenticated a session whose record is gone from the reachable store,
    which the guard denies with [SESSION_INVALID]. *)
Theorem X21_checkAuth_ignores_the_cache (s : http_session) (w : world) :
  truthy (s_userId s) = true -> truthy (s_sessionId s) = true ->
  AuthController.checkAuth s
    = AuthController.Authenticated (s_userId s) (s_sessionId s) /\
  (w_redis_up w = true -> redis_lookup w (session_key (s_userId s)) = None ->
   fst (requireAuth s w) = Ok (Respond 401 "SESSION_INVALID", destroy s)).
Proof.
  intros Hu Hs. split.
  - unfold AuthController.checkAuth. rewrite Hu, Hs. reflexivity.
  - intros Hup Hmiss.
    rewrite (requireAuth_verified s w false _ Hu Hs
               (verifySession_miss _ _ w Hup Hmiss)). reflexivity.
Qed.

End IntegrationProperties.

Section IntegrationExamples.

Lemma X20_failed_login_witness :
  let w1 := mongo_outage (snd (register login_draws example_user empty_world)) in
  let w2 := snd (login example_compare (email example_user) (password example_user) w1) in
  fst (login example_compare (email example_user) (password example_user) w1)
    = Err "Failed to login: MongoNetworkError" /\
  fst (access_guard (VNum 1) (VStr (d_session_id login_draws)) w1) = ALLOWED (VNum 1) /\
  fst (access_guard (VNum 1) (VStr (d_session_id login_draws)) w2)
    = DENIED_SessionInvalid.
Proof.
  apply (X20_failed_login_replaces_session example_compare login_draws example_user
           empty_world).
  - unfold valid_draws. repeat split; reflexivity.
  - reflexivity.
  - reflexivity.
  - reflexivity.
  - reflexivity.
  - discriminate.
  - reflexivity.
  - reflexivity.
Defined.

Lemma X21_checkAuth_witness :
  AuthController.checkAuth (mk_http_session (VNum 2) (VStr (js "token-A")) false)
    = AuthController.Authenticated (VNum 2) (VStr (js "token-A")) /\
  (w_redis_up session_issued_world = true ->
   redis_lookup session_issued_world (session_key (VNum 2)) = None ->
   fst (requireAuth (mk_http_session (VNum 2) (VStr (js "token-A")) false)
          session_issued_world)
   = Ok (Respond 401 "SESSION_INVALID",
         destroy (mk_http_session (VNum 2) (VStr (js "token-A")) false))).
Proof.
  apply (X21_checkAuth_ignores_the_cache
           (mk_http_session (VNum 2) (VStr (js "token-A")) false) session_issued_world);
    reflexivity.
Defined.

End IntegrationExamples.

(** ** [login] on a completely stored account, and the dummy id *)

Module CompleteLoginFacts.

Import GuardFacts SessionFacts RegisterFacts LoginFacts CipherMore CipherFacts.

Lemma decryptUserData_names (eu : encryptedUser) (key : list byte)
    (c1 c2 fn ln : jsstring) (w : world) :
  length key = 32%nat ->
  eu_encryption_key eu = VStr (hex_encode key) ->
  eu_first_name eu = VStr c1 -> c1 <> [] -> aesIGE_decrypt c1 key = Ok fn ->
  eu_last_name eu = VStr c2 -> c2 <> [] -> aesIGE_decrypt c2 key = Ok ln ->
  truthy (eu_phone eu) = false ->
  decryptUserData eu w
  = (Ok (mk_profile (eu_email eu) (VStr fn) (VStr ln) VNull), w).
Proof.
  intros Hk Hkey H1 N1 D1 H2 N2 D2 Hp.
  unfold decryptUserData, try_catch, bind, buffer_from_hex, decrypt_column, lift, ret.
  rewrite Hkey, H1, H2, Hp, (hex_encode_key_truthy key Hk),
    (truthy_nonempty c1 N1), (truthy_nonempty c2 N2).
  cbn [negb]. rewrite hex_decode_encode, D1, D2. reflexivity.
Qed.

End CompleteLoginFacts.

Section CompleteLoginProperties.

Import GuardFacts SessionFacts RegisterFacts LoginFacts CipherMore CompleteLoginFacts.

Variable compare : jsstring -> jsstring -> bool.

(** X22. [login] on a row that holds every field. If the first row with
    the email has a non-zero id, a hash that [bcrypt] accepts for the
    password, a session id, the field key in hex and names that decrypt
    under that key, then with every store answering [login] returns the
    decrypted names, the stored session id and the stored auth key, caches
    the session under the account, and the guard allows the pair of id and
    session id it returned. *)
Theorem X22_login_on_a_complete_row
    (email password : jsstring) (w : world) (t : table) (r : row) (rest : list row)
    (n : Z) (h sid c1 c2 fn ln : jsstring) (ak : value) (key : list byte) :
  hd false (w_mysql_faults w) = false -> w_users w = Some t ->
  known_columns t ["email"%string] = true ->
  w_mongo_up w = true -> w_redis_up w = true ->
  filter (fun r => col r "email" = SText email) (t_rows t) = r :: rest ->
  prop (t_columns t) r "id" = VNum n -> n <> 0%Z ->
  prop (t_columns t) r "password_hash" = VStr h ->
  length h = 60%nat -> compare password h = true ->
  prop (t_columns t) r "session_id" = VStr sid -> sid <> [] ->
  prop (t_columns t) r "auth_key" = ak ->
  prop (t_columns t) r "encryption_key" = VStr (hex_encode key) ->
  length key = 32%nat ->
  prop (t_columns t) r "first_name" = VStr c1 -> c1 <> [] ->
  aesIGE_decrypt c1 key = Ok fn ->
  prop (t_columns t) r "last_name" = VStr c2 -> c2 <> [] ->
  aesIGE_decrypt c2 key = Ok ln ->
  truthy (prop (t_columns t) r "phone") = false ->
  exists doc w2,
    login compare email password w
    = (Ok (mk_login_result true
             (mk_login_user (VNum n)
                (mk_profile (prop (t_columns t) r "email") (VStr fn) (VStr ln) VNull)
                doc)
             (VStr sid) ak), w2) /\
    fst (access_guard (VNum n) (VStr sid) w2) = ALLOWED (VNum n).
Proof.
  intros Hf Hu Hk Hmongo Hup Hrow Hid Hn Hh Hlen Hcmp Hsid Hsne Hak Hkey Hklen
    H1 N1 D1 H2 N2 D2 Hp.
  set (w1 := set_mysql_faults (tl (w_mysql_faults w)) w).
  assert (Hup1 : w_redis_up w1 = true) by exact Hup.
  assert (Hm1 : w_mongo_up w1 = true) by exact Hmongo.
  unfold login, try_catch, bind.
  rewrite (findUserInMySQL_rows email w t Hf Hu Hk), Hrow. fold w1.
  unfold bcrypt_compare, user_of_row, ret.
  cbn [du_password_hash du_session_id du_auth_key du_encrypted du_id].
  rewrite Hh, Hlen, Hcmp, Hid, Hsid, Hak. cbn [Nat.eqb andb negb].
  rewrite (decryptUserData_names
             (mk_encryptedUser (prop (t_columns t) r "email")
                (prop (t_columns t) r "first_name") (prop (t_columns t) r "last_name")
                (prop (t_columns t) r "phone") (prop (t_columns t) r "encryption_key"))
             key c1 c2 fn ln w1 Hklen Hkey H1 N1 D1 H2 N2 D2 Hp).
  cbn [eu_email]. unfold restoreSession.
  destruct (cacheUserSession_total (VNum n) (mk_sessionData (VStr sid) ak) w1)
    as (w2 & Hc & _ & _).
  pose proof (cacheUserSession_frame (VNum n) (mk_sessionData (VStr sid) ak) w1)
    as (_ & _ & Hm2 & _).
  destruct (cacheUserSession_up (VNum n) (mk_sessionData (VStr sid) ak) w1 Hup1)
    as (Hup2 & Hhit & _).
  rewrite Hc in Hm2, Hup2, Hhit |- *. cbn [snd] in Hm2, Hup2, Hhit |- *.
  unfold getUserProfileFromMongoDB, mongo_findOne. rewrite Hm2, Hm1.
  eexists _, _. split; [reflexivity|].
  rewrite (access_guard_hit (VNum n) (VStr sid) (mk_sessionData (VStr sid) ak) w2);
    [| |apply truthy_nonempty; exact Hsne|exact Hup2|exact Hhit].
  - cbn [session_id]. rewrite strict_eq_refl. reflexivity.
  - cbn [truthy]. apply negb_true_iff, Z.eqb_neq. exact Hn.
Qed.

End CompleteLoginProperties.

Section CompleteLoginExamples.

Lemma X22_login_on_a_complete_row_witness :
  exists doc w2,
    login example_compare (js "d@x.com") (js "Str0ng!Pass") complete_account_world
    = (Ok (mk_login_result true
             (mk_login_user (VNum 1)
                (mk_profile (VStr (js "d@x.com")) (VStr (js "Alice"))
                   (VStr (js "Alice")) VNull) doc)
             (VStr (js "token-D")) (VStr (js "auth-key-D"))), w2) /\
    fst (access_guard (VNum 1) (VStr (js "token-D")) w2) = ALLOWED (VNum 1).
Proof.
  apply (X22_login_on_a_complete_row example_compare (js "d@x.com") (js "Str0ng!Pass")
           complete_account_world (mk_table users_columns [complete_row] 2)
           complete_row [] 1 example_hash (js "token-D")
           (hex_encode sp800_iv ++ js ":19fd37b06ff1f1520ff984639d7267d9")
           (hex_encode sp800_iv ++ js ":19fd37b06ff1f1520ff984639d7267d9")
           (js "Alice") (js "Alice") (VStr (js "auth-key-D")) fips_key).
  - reflexivity.
  - reflexivity.
  - reflexivity.
  - reflexivity.
  - reflexivity.
  - cbn [t_rows]. rewrite filter_cons_True by (vm_compute; reflexivity). reflexivity.
  - vm_compute. reflexivity.
  - discriminate.
  - vm_compute. reflexivity.
  - reflexivity.
  - reflexivity.
  - vm_compute. reflexivity.
  - discriminate.
  - vm_compute. reflexivity.
  - vm_compute. reflexivity.
  - reflexivity.
  - vm_compute. reflexivity.
  - discriminate.
  - vm_compute. reflexivity.
  - vm_compute. reflexivity.
  - discriminate.
  - vm_compute. reflexivity.
  - vm_compute. reflexivity.
Defined.

End CompleteLoginExamples.

Section DummyIdProperties.

Import GuardFacts SessionFacts RegisterFacts LoginFacts CipherMore.



End DummyIdProperties.
